(** * MinesShell (mish): a shallow embedding of [MinesShell.cpp]

    The development follows the source file top to bottom: the line
    normaliser and tokenizer, the two syntax validators, a small model of
    the POSIX process primitives the shell calls ([fork], [pipe], [open],
    [dup], [dup2], [close], [waitpid], [execvp]), the three executors
    ([executeCommand], [executePipedCommand],
    [executeCommandInBackground]) and the command loop of [main]. *)

From Stdlib Require Import String Ascii List ZArith Lia Bool.
Import ListNotations.

Open Scope string_scope.
Open Scope Z_scope.

(** ** Characters and strings *)

Module Chars.

(** [isspace] of <cctype> in the "C" locale (the program never calls
    [setlocale]): space, \t, \n, \v, \f, \r.  The same class delimits the
    words extracted by [operator>>] on a [std::string]. *)
Definition isspace (c : ascii) : bool :=
  let n := N_of_ascii c in
  (N.eqb n 32 || (N.leb 9 n && N.leb n 13))%bool.

(** [strchr("|<>&", c) != NULL].  [strchr] also finds the terminating NUL
    of the searched literal, so the character of code 0 counts as found. *)
Definition is_special (c : ascii) : bool :=
  (Ascii.eqb c "|" || Ascii.eqb c "<" || Ascii.eqb c ">" || Ascii.eqb c "&"
   || Ascii.eqb c zero)%bool.

(** The four operator characters proper. *)
Definition is_operator (c : ascii) : bool :=
  (Ascii.eqb c "|" || Ascii.eqb c "<" || Ascii.eqb c ">" || Ascii.eqb c "&")%bool.

Definition str1 (c : ascii) : string := String c EmptyString.

End Chars.
Import Chars.

(** ** [tokenize] and [checkWhiteSpaces] *)

(** A word under construction is emitted only when it is not empty:
    [operator>>] skips leading white space and never yields an empty word. *)
Definition flush (word : string) : list string :=
  match word with
  | EmptyString => []
  | _ => [word]
  end.

(** [istream_iterator<string>] over the line: [word] holds the characters
    read since the last white space. *)
Fixpoint tokenize_from (word : string) (str : string) : list string :=
  match str with
  | EmptyString => flush word
  | String c rest =>
      if isspace c then flush word ++ tokenize_from EmptyString rest
      else tokenize_from (word ++ str1 c) rest
  end.

Definition tokenize (str : string) : list string :=
  tokenize_from EmptyString str.

(** [input[i]] for an index inside the string. *)
Definition char_at (input : string) (i : nat) : ascii :=
  match String.get i input with
  | Some c => c
  | None => zero
  end.

(** The [for] loop of [checkWhiteSpaces] from index [i] on, with [fuel]
    iterations left; [newInput] is the string built so far. *)
Fixpoint checkWhiteSpaces_loop (input : string) (fuel i : nat) (newInput : string)
    : string :=
  match fuel with
  | O => newInput
  | S fuel' =>
      let current := char_at input i in
      let newInput :=
        if is_special current then
          let newInput :=
            if Nat.ltb 0 i && negb (isspace (char_at input (i - 1)))
            then newInput ++ " " else newInput in
          let newInput := newInput ++ str1 current in
          if Nat.ltb i (String.length input - 1)
             && negb (isspace (char_at input (i + 1)))
          then newInput ++ " " else newInput
        else newInput ++ str1 current in
      checkWhiteSpaces_loop input fuel' (S i) newInput
  end.

Definition checkWhiteSpaces (input : string) : string :=
  checkWhiteSpaces_loop input (String.length input) 0 "".

(** The same loop written on the part of the line still to be read:
    [prev] is [input[i-1]] ([None] when [i = 0]) and the argument is the
    suffix [input[i..]], whose second character is [input[i+1]].  It yields
    what the loop appends from index [i] on
    ([checkWhiteSpaces_loop_from]). *)
Fixpoint checkWhiteSpaces_from (prev : option ascii) (input : string) : string :=
  match input with
  | EmptyString => EmptyString
  | String current rest =>
      if is_special current then
        (match prev with
         | Some p => if isspace p then "" else " "
         | None => ""
         end)
        ++ String current
             ((match rest with
               | String next _ => if isspace next then "" else " "
               | EmptyString => ""
               end)
              ++ checkWhiteSpaces_from (Some current) rest)
      else String current (checkWhiteSpaces_from (Some current) rest)
  end.

(** [cmd.back()], [None] on the empty string. *)
Fixpoint back (cmd : string) : option ascii :=
  match cmd with
  | EmptyString => None
  | String c EmptyString => Some c
  | String _ rest => back rest
  end.

(** A direct lexer, used only as the meaning of "token sequence of a line":
    white space separates, a special character is a token of its own. *)
Fixpoint lex_from (word : string) (str : string) : list string :=
  match str with
  | EmptyString => flush word
  | String c rest =>
      if isspace c then flush word ++ lex_from EmptyString rest
      else if is_special c then flush word ++ str1 c :: lex_from EmptyString rest
      else lex_from (word ++ str1 c) rest
  end.

(** Two raw lines differ only in white space adjacent to an operator
    character: one white-space character is inserted (or removed) directly
    before or directly after an operator, any number of times. *)
Inductive adjacent_ws : string -> string -> Prop :=
| aw_before (u v : string) (w op : ascii) :
    isspace w = true -> is_operator op = true ->
    adjacent_ws (u ++ String op v) (u ++ String w (String op v))
| aw_after (u v : string) (w op : ascii) :
    isspace w = true -> is_operator op = true ->
    adjacent_ws (u ++ String op v) (u ++ String op (String w v))
| aw_refl (s : string) : adjacent_ws s s
| aw_sym (s t : string) : adjacent_ws s t -> adjacent_ws t s
| aw_trans (s t u : string) :
    adjacent_ws s t -> adjacent_ws t u -> adjacent_ws s u.

(** [s.c_str()] as a C function reads it: the characters before the first
    NUL. *)
Fixpoint c_str (s : string) : string :=
  match s with
  | EmptyString => EmptyString
  | String c rest =>
      if Ascii.eqb c Ascii.zero then EmptyString else String c (c_str rest)
  end.
(** ** Token vectors *)

Open Scope list_scope.

(** [tokens.size()] and [tokens[i]] with the [int] and [size_t] indices of
    the source.  Every subscript of the source is guarded by a bounds test;
    outside the vector the model yields the empty string. *)
Definition size {A : Type} (v : list A) : Z := Z.of_nat (length v).

Definition at_ (tokens : list string) (i : Z) : string :=
  nth (Z.to_nat i) tokens ""%string.

(** [commands[i].erase(begin + a, begin + b)]. *)
Definition erase (v : list string) (a b : Z) : list string :=
  firstn (Z.to_nat a) v ++ skipn (Z.to_nat b) v.

(** [std::count(tokens.begin(), tokens.end(), token)]. *)
Definition count (tokens : list string) (token : string) : Z :=
  Z.of_nat (length (filter (String.eqb token) tokens)).

Fixpoint findTokenIndex_from (i : Z) (tokens : list string) (token : string) : Z :=
  match tokens with
  | [] => -1
  | t :: rest =>
      if String.eqb t token then i else findTokenIndex_from (i + 1) rest token
  end.

(** [findTokenIndex]: index of the first occurrence, or -1. *)
Definition findTokenIndex (tokens : list string) (token : string) : Z :=
  findTokenIndex_from 0 tokens token.

(** ** The validators

    Both validators print one diagnostic on [cerr] and return [true], or
    return [false] silently.  The model returns the diagnostic, [None]
    standing for [false]; the caller emits it. *)

(** The [for] loop of [hasSyntaxErrors] at index [i]; [rest] is
    [tokens[i..]]. *)
Fixpoint hasSyntaxErrors_loop (tokens : list string) (i : Z)
    (redirectInCount redirectOutCount pipeCount : Z) (prevToken : string)
    (rest : list string) : option string :=
  match rest with
  | [] => None
  | t :: rest' =>
      if String.eqb t "<" then
        let redirectInCount := redirectInCount + 1 in
        if (i =? 0) || String.eqb (at_ tokens (i - 1)) "|" || (redirectInCount >? 1)
        then Some "mish: multiple input redirect or pipe"%string
        else hasSyntaxErrors_loop tokens (i + 1) redirectInCount redirectOutCount
               pipeCount t rest'
      else if String.eqb t ">" then
        let redirectOutCount := redirectOutCount + 1 in
        if (i =? 0) || String.eqb (at_ tokens (i - 1)) "|" || (redirectOutCount >? 1)
        then Some "mish: multiple output redirect or pipe"%string
        else hasSyntaxErrors_loop tokens (i + 1) redirectInCount redirectOutCount
               pipeCount t rest'
      else if String.eqb t "|" then
        let pipeCount := pipeCount + 1 in
        if String.eqb prevToken "|" || (i =? 0) || (i =? size tokens - 1)
        then Some "mish: syntax error, unexpected PIPE, expecting STRING"%string
        else hasSyntaxErrors_loop tokens (i + 1) redirectInCount redirectOutCount
               pipeCount t rest'
      else hasSyntaxErrors_loop tokens (i + 1) redirectInCount redirectOutCount
             pipeCount t rest'
  end.

Definition hasSyntaxErrors (tokens : list string) : option string :=
  hasSyntaxErrors_loop tokens 0 0 0 0 ""%string tokens.

(** The inner loop of [hasMultipleRedirectionsOrPipes]: is there an index
    [i] holding a pipe with a redirect operator directly before or after. *)
Definition improper_mix_at (tokens : list string) (i : Z) : bool :=
  String.eqb (at_ tokens i) "|" &&
  (((i >? 0) && (String.eqb (at_ tokens (i - 1)) ">" || String.eqb (at_ tokens (i - 1)) "<"))
   || ((i <? size tokens - 1)
       && (String.eqb (at_ tokens (i + 1)) ">" || String.eqb (at_ tokens (i + 1)) "<"))).

Definition hasMultipleRedirectionsOrPipes (tokens : list string) : option string :=
  let redirectInCount := count tokens "<" in
  let redirectOutCount := count tokens ">" in
  let pipeCount := count tokens "|" in
  if redirectInCount >? 1 then Some "mish: multiple input redirect or pipe"%string
  else if redirectOutCount >? 1 then Some "mish: multiple output redirect or pipe"%string
  else if (pipeCount >? 0) && ((redirectInCount >? 0) || (redirectOutCount >? 0)) then
    if existsb (improper_mix_at tokens) (map Z.of_nat (seq 0 (length tokens)))
    then Some "Error: Improper mixing of pipes and redirections."%string
    else None
  else None.

(** A line is launched when neither validator objects. *)
Definition validated (tokens : list string) : bool :=
  match hasMultipleRedirectionsOrPipes tokens, hasSyntaxErrors tokens with
  | None, None => true
  | _, _ => false
  end.

(** [isBackgroundCommand]: the line is not empty and ends in [&]. *)
Definition isBackgroundCommand (cmd : string) : bool :=
  match back cmd with
  | Some c => Ascii.eqb c "&"
  | None => false
  end.

(** [input.pop_back()]. *)
Fixpoint pop_back (s : string) : string :=
  match s with
  | EmptyString => EmptyString
  | String _ EmptyString => EmptyString
  | String c rest => String c (pop_back rest)
  end.

(** [input.find('=')] as the pair of [substr(0, pos)] and
    [substr(pos + 1)], [None] for [npos]. *)
Fixpoint split_at_equal (s : string) : option (string * string) :=
  match s with
  | EmptyString => None
  | String c rest =>
      if Ascii.eqb c "=" then Some (EmptyString, rest)
      else match split_at_equal rest with
           | Some (name, value) => Some (String c name, value)
           | None => None
           end
  end.

(** The segmentation loop at the head of [executePipedCommand]: [seg] is
    the range from [startIt] to the current position. *)
Fixpoint split_loop (seg : list string) (tokens : list string) : list (list string) :=
  match tokens with
  | [] => [seg]
  | t :: rest =>
      if String.eqb t "|" then
        seg :: match rest with
               | [] => []
               | _ :: _ => split_loop [] rest
               end
      else split_loop (seg ++ [t]) rest
  end.

Definition split_commands (tokens : list string) : list (list string) :=
  match tokens with
  | [] => []
  | _ :: _ => split_loop [] tokens
  end.

(** [segment_args]: the vector of C strings handed to [execvp], one
    [c_str()] per token (the terminating null pointer is left implicit). *)
Definition segment_args (segment : list string) : list string :=
  map c_str segment.
(** ** Processes, descriptors and the primitives of the host system *)

(** What a descriptor is bound to. *)
Inductive file : Type :=
| Terminal
| PipeRead (k : nat)
| PipeWrite (k : nat)
| FileRead (path : string)
| FileWrite (path : string).

(** The descriptor table of a process: slot [n] is descriptor [n]. *)
Definition fdtable : Type := list (option file).

Definition fd_lookup (t : fdtable) (fd : Z) : option file :=
  if fd <? 0 then None else nth (Z.to_nat fd) t None.

Fixpoint set_nth (n : nat) (v : option file) (t : fdtable) : fdtable :=
  match n, t with
  | O, [] => [v]
  | O, _ :: t' => v :: t'
  | S n', [] => None :: set_nth n' v []
  | S n', x :: t' => x :: set_nth n' v t'
  end.

Definition fd_set (t : fdtable) (fd : Z) (v : option file) : fdtable :=
  if fd <? 0 then t else set_nth (Z.to_nat fd) v t.

(** The lowest descriptor not in use, the one [open], [dup] and [pipe]
    hand out. *)
Fixpoint lowest_free_from (n : Z) (t : fdtable) : Z :=
  match t with
  | [] => n
  | None :: _ => n
  | Some _ :: t' => lowest_free_from (n + 1) t'
  end.

Definition lowest_free (t : fdtable) : Z := lowest_free_from 0 t.

(** The calls a process makes, in program order, with the values the
    program passes on.  [SysExecvp] holds the argument vector, a vector of
    C strings; the events of [open], [chdir], [setenv] and [unsetenv] hold
    the [std::string] whose [c_str()] is the argument of the call. *)
Inductive syscall : Type :=
| SysFork (ret : Z)
| SysPipe (ret : Z) (fd : Z * Z)
| SysOpen (path : string) (writing : bool) (ret : Z)
| SysDup (oldfd ret : Z)
| SysDup2 (oldfd newfd : Z)
| SysClose (fd : Z)
| SysWaitpid (pid : Z)
| SysExecvp (argv : list string)
| SysChdir (path : string)
| SysSetenv (name value : string)
| SysUnsetenv (name : string)
| SysWrite (fd : Z) (data : string)
| Cerr (message : string)
| Perror (message : string)
| Prompt.

Record proc : Type := mkProc {
  fdt : fdtable;
  trace : list syscall
}.

(** How a process stops: [exit(code)], a successful [execvp], or a signal
    that kills it. *)
Inductive halt : Type :=
| Exited (code : Z)
| Execed (argv : list string)
| Killed (signal : Z).

Inductive result (S A : Type) : Type :=
| Ret (a : A) (s : S)
| Halt (h : halt) (s : S).
Arguments Ret {S A} a s.
Arguments Halt {S A} h s.

(** Code of a process: a state transformer that may stop the process. *)
Definition M (S A : Type) : Type := S -> result S A.

Definition ret {S A : Type} (a : A) : M S A := fun s => Ret a s.

Definition bind {S A B : Type} (c : M S A) (k : A -> M S B) : M S B :=
  fun s => match c s with
           | Ret a s' => k a s'
           | Halt h s' => Halt h s'
           end.

Notation "x <- c ;; k" := (bind c (fun x => k))
  (at level 61, c at next level, right associativity).
Notation "' p <- c ;; k" := (bind c (fun x => match x with p => k end))
  (at level 61, p pattern, c at next level, right associativity).
Notation "c ;; k" := (bind c (fun _ => k))
  (at level 61, right associativity).

Definition when {S : Type} (b : bool) (c : M S unit) : M S unit :=
  if b then c else ret tt.

Definition EXIT_FAILURE : Z := 1.
Definition STDIN_FILENO : Z := 0.
Definition STDOUT_FILENO : Z := 1.
Definition ENOENT : Z := 2.
Definition SIGSEGV : Z := 11.

(** Which executor forked a child, and for which stage. *)
Inductive launcher : Type :=
| BySingle
| ByPiped (stage : Z)
| ByBackground.

(** A spawned process: its identifier, who forked it, how it stopped and
    its own descriptor table and calls up to that point. *)
Record child : Type := mkChild {
  c_pid : Z;
  c_launcher : launcher;
  c_halt : halt;
  c_proc : proc
}.

(** The shell process together with what the host system remembers about
    it: the calls to [fork] and [pipe] made so far, the pipes created, the
    next process identifier and the children forked.  Identifiers are
    positive, handed out in increasing order and not reused while the
    shell runs. *)
Record shell : Type := mkShell {
  self : proc;
  forks : nat;
  pipe_calls : nat;
  pipes : nat;
  next_pid : positive;
  children : list child
}.

(** The answers of the host system that the program cannot determine:
    whether a call to [fork] or [pipe] succeeds, whether a path can be
    opened, the [errno] of [execvp] (0: the image is replaced), whether
    [chdir] succeeds and the status [waitpid] stores. *)
Record OS : Type := mkOS {
  fork_ok : nat -> bool;
  pipe_ok : nat -> bool;
  open_ok : string -> bool -> bool;
  exec_errno : list string -> Z;
  chdir_ok : string -> bool;
  wait_status : Z -> Z
}.

Definition set_wait_status (os : OS) (st : Z -> Z) : OS :=
  mkOS (fork_ok os) (pipe_ok os) (open_ok os) (exec_errno os) (chdir_ok os) st.

Section Shell.

Variable os : OS.

(** *** Calls available to every process *)

Definition emit (e : syscall) : M proc unit :=
  fun p => Ret tt (mkProc (fdt p) (trace p ++ [e])).

Definition sys_exit {S A : Type} (code : Z) : M S A :=
  fun s => Halt (Exited code) s.

Definition cerr (message : string) : M proc unit := emit (Cerr message).

Definition perror (message : string) : M proc unit := emit (Perror message).

(** [open]: on success the file occupies the lowest free descriptor. *)
Definition sys_open (path : string) (writing : bool) : M proc Z :=
  fun p =>
    if open_ok os path writing then
      let fd := lowest_free (fdt p) in
      let f := if writing then FileWrite path else FileRead path in
      Ret fd (mkProc (fd_set (fdt p) fd (Some f))
                (trace p ++ [SysOpen path writing fd]))
    else Ret (-1) (mkProc (fdt p) (trace p ++ [SysOpen path writing (-1)])).

(** [dup2]: fails (EBADF) without effect when [oldfd] is not open or
    [newfd] is negative; otherwise [newfd] becomes a copy of [oldfd]. *)
Definition sys_dup2 (oldfd newfd : Z) : M proc Z :=
  fun p =>
    let tr := trace p ++ [SysDup2 oldfd newfd] in
    match fd_lookup (fdt p) oldfd with
    | None => Ret (-1) (mkProc (fdt p) tr)
    | Some f =>
        if newfd <? 0 then Ret (-1) (mkProc (fdt p) tr)
        else Ret newfd (mkProc (fd_set (fdt p) newfd (Some f)) tr)
    end.

(** [dup]: a copy of [oldfd] on the lowest free descriptor. *)
Definition sys_dup (oldfd : Z) : M proc Z :=
  fun p =>
    match fd_lookup (fdt p) oldfd with
    | None => Ret (-1) (mkProc (fdt p) (trace p ++ [SysDup oldfd (-1)]))
    | Some f =>
        let fd := lowest_free (fdt p) in
        Ret fd (mkProc (fd_set (fdt p) fd (Some f)) (trace p ++ [SysDup oldfd fd]))
    end.

Definition sys_close (fd : Z) : M proc Z :=
  fun p =>
    let tr := trace p ++ [SysClose fd] in
    match fd_lookup (fdt p) fd with
    | None => Ret (-1) (mkProc (fdt p) tr)
    | Some _ => Ret 0 (mkProc (fd_set (fdt p) fd None) tr)
    end.

(** [execvp(args[0], args.data())] on a vector of C strings: replaces the
    image, or returns with [errno] set.  With an empty vector [args[0]] is
    the terminating null pointer: [execvp] reads through it and the process
    is killed by [SIGSEGV]. *)
Definition sys_execvp (args : list string) : M proc Z :=
  fun p =>
    let p' := mkProc (fdt p) (trace p ++ [SysExecvp args]) in
    match args with
    | [] => Halt (Killed SIGSEGV) p'
    | _ :: _ =>
        if exec_errno os args =? 0 then Halt (Execed args) p'
        else Ret (exec_errno os args) p'
    end.

(** *** Calls of the shell process *)

Definition with_self (s : shell) (p : proc) : shell :=
  mkShell p (forks s) (pipe_calls s) (pipes s) (next_pid s) (children s).

Definition lift {A : Type} (c : M proc A) : M shell A :=
  fun s =>
    match c (self s) with
    | Ret a p => Ret a (with_self s p)
    | Halt h p => Halt h (with_self s p)
    end.

(** The outcome of a child: its code never returns. *)
Definition run_child (code : M proc Empty_set) (p : proc) : halt * proc :=
  match code p with
  | Ret a _ => match a with end
  | Halt h p' => (h, p')
  end.

(** [fork]: the branch [pid == 0] of the source is [code]; it runs in a
    copy of the caller.  The caller receives the new identifier, or -1. *)
Definition sys_fork (by_ : launcher) (code : M proc Empty_set) : M shell Z :=
  fun s =>
    if fork_ok os (forks s) then
      let pid := Z.pos (next_pid s) in
      let '(h, p) := run_child code (mkProc (fdt (self s)) []) in
      Ret pid (mkShell (mkProc (fdt (self s)) (trace (self s) ++ [SysFork pid]))
                 (S (forks s)) (pipe_calls s) (pipes s) (Pos.succ (next_pid s))
                 (children s ++ [mkChild pid by_ h p]))
    else
      Ret (-1) (mkShell (mkProc (fdt (self s)) (trace (self s) ++ [SysFork (-1)]))
                  (S (forks s)) (pipe_calls s) (pipes s) (next_pid s) (children s)).

(** [pipe(fd)]: on success the read end takes the lowest free descriptor
    and the write end the next one; on failure [fd] is left as it was. *)
Definition sys_pipe (fd : Z * Z) : M shell (Z * (Z * Z)) :=
  fun s =>
    let p := self s in
    if pipe_ok os (pipe_calls s) then
      let r := lowest_free (fdt p) in
      let t1 := fd_set (fdt p) r (Some (PipeRead (pipes s))) in
      let w := lowest_free t1 in
      let t2 := fd_set t1 w (Some (PipeWrite (pipes s))) in
      Ret (0, (r, w))
        (mkShell (mkProc t2 (trace p ++ [SysPipe 0 (r, w)]))
           (forks s) (S (pipe_calls s)) (S (pipes s)) (next_pid s) (children s))
    else
      Ret (-1, fd)
        (mkShell (mkProc (fdt p) (trace p ++ [SysPipe (-1) fd]))
           (forks s) (S (pipe_calls s)) (pipes s) (next_pid s) (children s)).

(** [waitpid(pid, &status, 0)]: yields the status stored. *)
Definition sys_waitpid (pid : Z) : M shell Z :=
  lift (emit (SysWaitpid pid) ;; ret (wait_status os pid)).

Definition sys_chdir (path : string) : M shell Z :=
  lift (emit (SysChdir path) ;; ret (if chdir_ok os path then 0 else -1)).

(** ** [executeCommand] *)

(** The test of the argument-collecting loop of [executeCommand], and the
    tokens the loop keeps; the loop pushes the [c_str()] of each. *)
Definition keep_arg (redirectInIndex redirectOutIndex i : Z) : bool :=
  negb (i =? redirectInIndex) && negb (i =? redirectOutIndex)
  && ((redirectInIndex =? -1) || negb (i =? redirectInIndex + 1))
  && ((redirectOutIndex =? -1) || negb (i =? redirectOutIndex + 1)).

Fixpoint collect_args (redirectInIndex redirectOutIndex i : Z) (rest : list string)
    : list string :=
  match rest with
  | [] => []
  | t :: rest' =>
      if keep_arg redirectInIndex redirectOutIndex i
      then t :: collect_args redirectInIndex redirectOutIndex (i + 1) rest'
      else collect_args redirectInIndex redirectOutIndex (i + 1) rest'
  end.

(** The branch [pid == 0] of [executeCommand], block by block. *)

(** "Handle input redirection". *)
Definition redirect_input (tokens : list string) (redirectInIndex : Z) : M proc unit :=
  when (negb (redirectInIndex =? -1) && (redirectInIndex + 1 <? size tokens))
    (fd <- sys_open (at_ tokens (redirectInIndex + 1)) false ;;
     if fd =? -1 then
       cerr "Failed to open input redirection file" ;; sys_exit EXIT_FAILURE
     else
       sys_dup2 fd STDIN_FILENO ;; sys_close fd ;; ret tt).

(** "Handle output redirection". *)
Definition redirect_output (tokens : list string) (redirectOutIndex : Z) : M proc unit :=
  when (negb (redirectOutIndex =? -1) && (redirectOutIndex + 1 <? size tokens))
    (fd <- sys_open (at_ tokens (redirectOutIndex + 1)) true ;;
     if fd =? -1 then
       perror "Failed to open output redirection file" ;; sys_exit EXIT_FAILURE
     else
       sys_dup2 fd STDOUT_FILENO ;; sys_close fd ;; ret tt).

(** "Execute the command", and what follows when [execvp] returns;
    [args] is the vector of C strings, and the message prints [args[0]] as
    one. *)
Definition exec_or_fail (args : list string) : M proc Empty_set :=
  errno <- sys_execvp args ;;
  when (errno =? ENOENT)
    (cerr ("mish: '" ++ hd "" args ++ "': No such file or directory")%string) ;;
  sys_exit EXIT_FAILURE.

Definition executeCommand_child (tokens : list string)
    (redirectInIndex redirectOutIndex : Z) (args : list string) : M proc Empty_set :=
  redirect_input tokens redirectInIndex ;;
  redirect_output tokens redirectOutIndex ;;
  exec_or_fail args.

Definition executeCommand (tokens : list string) : M shell unit :=
  let redirectInIndex := findTokenIndex tokens "<" in
  let redirectOutIndex := findTokenIndex tokens ">" in
  let args := map c_str (collect_args redirectInIndex redirectOutIndex 0 tokens) in
  pid <- sys_fork BySingle
           (executeCommand_child tokens redirectInIndex redirectOutIndex args) ;;
  if pid =? -1 then
    lift (cerr "Failed to fork process") ;; sys_exit EXIT_FAILURE
  else
    saved_stdout <- (if negb (redirectOutIndex =? -1)
                     then lift (sys_dup STDOUT_FILENO) else ret (-1)) ;;
    saved_stdin <- (if negb (redirectInIndex =? -1)
                    then lift (sys_dup STDIN_FILENO) else ret (-1)) ;;
    status <- sys_waitpid pid ;;
    when (negb (saved_stdout =? -1))
      (lift (sys_dup2 saved_stdout STDOUT_FILENO ;; sys_close saved_stdout ;; ret tt)) ;;
    when (negb (saved_stdin =? -1))
      (lift (sys_dup2 saved_stdin STDIN_FILENO ;; sys_close saved_stdin ;; ret tt)).

(** ** [executePipedCommand] *)

(** The branch [pid == 0] of the launching loop, for stage [i] of [n],
    block by block; [in_fd] and [fd] are the child's copies of the loop
    variables. *)

(** "Handle input redirection for the first command". *)
Definition stage_redirect_input (i : Z) (command : list string) (in_fd : Z)
    : M proc (Z * list string) :=
  if i =? 0 then
    let redirectInIndex := findTokenIndex command "<" in
    if negb (redirectInIndex =? -1) && (redirectInIndex + 1 <? size command) then
      in_fd <- sys_open (at_ command (redirectInIndex + 1)) false ;;
      when (in_fd =? -1)
        (perror "syntax error, unexpected PIPE, expecting STRING") ;;
      sys_dup2 in_fd STDIN_FILENO ;;
      sys_close in_fd ;;
      ret (in_fd, erase command redirectInIndex (redirectInIndex + 2))
    else ret (in_fd, command)
  else ret (in_fd, command).

(** "Redirect input from the previous pipe". *)
Definition stage_bind_input (in_fd : Z) : M proc unit :=
  when (negb (in_fd =? STDIN_FILENO))
    (sys_dup2 in_fd STDIN_FILENO ;; sys_close in_fd ;; ret tt).

(** "Set up output redirection for all but the last command". *)
Definition stage_bind_output (n i : Z) (fd : Z * Z) : M proc unit :=
  when (i <? n - 1)
    (sys_dup2 (snd fd) STDOUT_FILENO ;; sys_close (fst fd) ;; sys_close (snd fd) ;; ret tt).

(** "Handle output redirection for the last command". *)
Definition stage_redirect_output (n i : Z) (command : list string)
    : M proc (list string) :=
  if i =? n - 1 then
    let redirectOutIndex := findTokenIndex command ">" in
    if negb (redirectOutIndex =? -1) && (redirectOutIndex + 1 <? size command) then
      out_fd <- sys_open (at_ command (redirectOutIndex + 1)) true ;;
      if out_fd =? -1 then
        perror "open for output redirection failed" ;; sys_exit EXIT_FAILURE
      else
        sys_dup2 out_fd STDOUT_FILENO ;;
        sys_close out_fd ;;
        ret (erase command redirectOutIndex (redirectOutIndex + 2))
    else ret command
  else ret command.

(** "Execute the command". *)
Definition stage_exec (command : list string) : M proc Empty_set :=
  let args := segment_args command in
  sys_execvp args ;;
  cerr ("mish: '" ++ hd "" args ++ "': No such file or directory")%string ;;
  sys_exit EXIT_FAILURE.

Definition piped_child (n i : Z) (command : list string) (in_fd : Z) (fd : Z * Z)
    : M proc Empty_set :=
  '(in_fd, command) <- stage_redirect_input i command in_fd ;;
  stage_bind_input in_fd ;;
  stage_bind_output n i fd ;;
  command <- stage_redirect_output n i command ;;
  stage_exec command.

(** [int fd[2]] is declared without initialiser in the loop body; it is
    read only under [i < commands.size() - 1], after [pipe] has filled it. *)
Definition fd_indeterminate : Z * Z := (-1, -1).

(** "Set up pipe for all but the last command": the pair for stage [i]
    and the descriptors remembered for the closing loop. *)
Definition setup_pipe (n i : Z) (fds : list Z) : M shell ((Z * Z) * list Z) :=
  if i <? n - 1 then
    '(r, fd) <- sys_pipe fd_indeterminate ;;
    if r =? -1 then
      '(r', fd) <- sys_pipe fd ;;
      if r' =? -1 then
        lift (perror "pipe") ;; sys_exit EXIT_FAILURE
      else ret (fd, fds ++ [fst fd; snd fd])
    else ret (fd, fds)
  else ret (fd_indeterminate, fds).

(** The parent's branch after a successful [fork]: the new value of
    [in_fd]. *)
Definition parent_after_fork (n i : Z) (in_fd : Z) (fd : Z * Z) : M shell Z :=
  when (negb (in_fd =? STDIN_FILENO)) (lift (sys_close in_fd ;; ret tt)) ;;
  if i <? n - 1
  then lift (sys_close (snd fd)) ;; ret (fst fd)
  else ret in_fd.

(** The launching loop at index [i]; [rest] is [commands[i..]] and [n] is
    [commands.size()]. *)
Fixpoint launch_loop (n i : Z) (rest : list (list string))
    (in_fd : Z) (fds child_pids : list Z) : M shell (list Z * list Z) :=
  match rest with
  | [] => ret (fds, child_pids)
  | command :: rest' =>
      '(fd, fds) <- setup_pipe n i fds ;;
      pid <- sys_fork (ByPiped i) (piped_child n i command in_fd fd) ;;
      if pid =? -1 then
        lift (perror "fork") ;; sys_exit EXIT_FAILURE
      else
        in_fd <- parent_after_fork n i in_fd fd ;;
        launch_loop n (i + 1) rest' in_fd fds (child_pids ++ [pid])
  end.

Fixpoint close_all (fds : list Z) : M shell unit :=
  match fds with
  | [] => ret tt
  | fd :: rest => lift (sys_close fd) ;; close_all rest
  end.

Fixpoint wait_all (child_pids : list Z) : M shell unit :=
  match child_pids with
  | [] => ret tt
  | pid :: rest => status <- sys_waitpid pid ;; wait_all rest
  end.

Definition executePipedCommand (tokens : list string) : M shell unit :=
  let commands := split_commands tokens in
  '(fds, child_pids) <- launch_loop (size commands) 0 commands STDIN_FILENO [] [] ;;
  close_all fds ;;
  wait_all child_pids.

(** ** [executeCommandInBackground] *)

Definition background_child (tokens : list string) : M proc Empty_set :=
  let args := segment_args tokens in
  sys_execvp args ;;
  cerr ("mish: '" ++ hd "" args ++ "': No such file or directory")%string ;;
  sys_exit EXIT_FAILURE.

Definition executeCommandInBackground (tokens : list string) : M shell unit :=
  pid <- sys_fork ByBackground (background_child tokens) ;;
  ret tt.

(** ** The command loop of [main] *)

Definition handleVariableAssignment (input : string) : M proc unit :=
  match split_at_equal input with
  | Some (varName, value) =>
      if String.eqb varName "PATH" && String.eqb value ""
      then emit (SysUnsetenv "PATH")
      else emit (SysSetenv varName value)
  | None => cerr "Invalid assignment format."
  end.

Definition clear_screen : string :=
  (String (ascii_of_nat 27) "[H" ++ String (ascii_of_nat 27) "[2J")%string.

(** One turn of the loop after the line has been read and found different
    from [exit]: from [checkWhiteSpaces] to the end of the loop body.  A
    [continue] is a return from this function. *)
Definition main_body (line : string) : M shell unit :=
  let input := checkWhiteSpaces line in
  let tokens := tokenize input in
  match tokens with
  | [] => ret tt
  | _ :: _ =>
  match hasMultipleRedirectionsOrPipes tokens with
  | Some diagnostic => lift (cerr diagnostic)
  | None =>
  match hasSyntaxErrors tokens with
  | Some diagnostic => lift (cerr diagnostic)
  | None =>
      input <- (if isBackgroundCommand input
                then executeCommandInBackground tokens ;; ret (pop_back input)
                else ret input) ;;
      let pipeIndex := findTokenIndex tokens "|" in
      let redirectOutIndex := findTokenIndex tokens ">" in
      let redirectInIndex := findTokenIndex tokens "<" in
      if negb (pipeIndex =? -1) then executePipedCommand tokens
      else if negb (redirectOutIndex =? -1) || negb (redirectInIndex =? -1)
      then executeCommand tokens
      else if String.eqb (at_ tokens 0) "cd" then
        if size tokens =? 2 then
          r <- sys_chdir (at_ tokens 1) ;;
          when (negb (r =? 0)) (lift (perror "cd failed"))
        else lift (cerr "Usage: cd <directory>")
      else if String.eqb (at_ tokens 0) "ls" && (size tokens =? 2)
              && String.eqb (at_ tokens 1) "-al"
      then executeCommand tokens
      else if String.eqb (at_ tokens 0) "ls" then executeCommand tokens
      else if String.eqb (at_ tokens 0) "rm" then ret tt
      else if String.eqb (at_ tokens 0) "clear"
      then lift (emit (SysWrite STDOUT_FILENO clear_screen))
      else if String.eqb (at_ tokens 0) "emacs" then executeCommand tokens
      else match split_at_equal input with
           | Some _ => lift (handleVariableAssignment input)
           | None => executeCommand tokens
           end
  end end end.

(** The loop itself, over the lines standard input will deliver before
    end of file: prompt, read, stop at [exit] or at end of file. *)
Fixpoint main_loop (lines : list string) : M shell unit :=
  lift (emit Prompt) ;;
  match lines with
  | [] => ret tt
  | input :: rest =>
      if String.eqb input "exit" then ret tt
      else main_body input ;; main_loop rest
  end.

End Shell.

(** The shell as started from a terminal: the three standard descriptors
    open, nothing forked yet. *)
Definition initial_shell : shell :=
  mkShell (mkProc [Some Terminal; Some Terminal; Some Terminal] []) 0 0 0 100%positive [].

(** A host on which every call succeeds and every program is found. *)
Definition friendly : OS :=
  mkOS (fun _ => true) (fun _ => true) (fun _ _ => true) (fun _ => 0)
       (fun _ => true) (fun _ => 0).

(** ** Script mode of [main]

    With a file name on the command line, [main] reads the file line by
    line and hands every line that holds a token to [executeCommand]: no
    [checkWhiteSpaces], no validator, no built-in, no background launch.
    [lines] are the lines [getline] delivers (none when the file cannot be
    opened). *)
Fixpoint main_script (os : OS) (lines : list string) : M shell unit :=
  match lines with
  | [] => ret tt
  | command :: rest =>
      let tokens := tokenize command in
      match tokens with
      | [] => ret tt
      | _ :: _ => executeCommand os tokens
      end ;;
      main_script os rest
  end.

(** ** Vocabulary of the statements *)

(** The state a computation leaves behind, whether it returns or stops. *)
Definition final {S A : Type} (r : result S A) : S :=
  match r with
  | Ret _ s => s
  | Halt _ s => s
  end.

(** Identifiers the shell has waited for, and identifiers [fork] returned,
    in the order of the calls. *)
Fixpoint waited (tr : list syscall) : list Z :=
  match tr with
  | [] => []
  | SysWaitpid pid :: tr' => pid :: waited tr'
  | _ :: tr' => waited tr'
  end.

Fixpoint forked (tr : list syscall) : list Z :=
  match tr with
  | [] => []
  | SysFork pid :: tr' => if pid =? -1 then forked tr' else pid :: forked tr'
  | _ :: tr' => forked tr'
  end.

(** A call that duplicates a standard descriptor or binds one. *)
Definition touches_std (e : syscall) : bool :=
  match e with
  | SysDup oldfd _ => (oldfd =? STDIN_FILENO) || (oldfd =? STDOUT_FILENO)
  | SysDup2 _ newfd => (newfd =? STDIN_FILENO) || (newfd =? STDOUT_FILENO)
  | _ => false
  end.

Definition is_open_call (e : syscall) : bool :=
  match e with
  | SysOpen _ _ _ => true
  | _ => false
  end.

(** Standard input and standard output are open. *)
Definition std_open (t : fdtable) : Prop :=
  fd_lookup t STDIN_FILENO <> None /\ fd_lookup t STDOUT_FILENO <> None.

(** Two tables bind every descriptor alike. *)
Definition same_bindings (t t' : fdtable) : Prop :=
  forall fd, fd_lookup t' fd = fd_lookup t fd.


(** The children a computation added to those of [s]. *)
Definition spawned (s s' : shell) : list child :=
  skipn (length (children s)) (children s').

Definition called (s s' : shell) : list syscall :=
  skipn (length (trace (self s))) (trace (self s')).

Definition is_background (c : child) : bool :=
  match c_launcher c with
  | ByBackground => true
  | _ => false
  end.

(** A host on which [exists_] tells which paths can be opened for reading;
    everything else succeeds. *)
Definition host_with_files (exists_ : string -> bool) : OS :=
  mkOS (fun _ => true) (fun _ => true)
       (fun path writing => if writing then true else exists_ path)
       (fun _ => 0) (fun _ => true) (fun _ => 0).

(** What a stage of a pipeline hands to [execvp]: the first stage drops a
    complete input redirection, the last stage a complete output
    redirection, nothing else is removed. *)
Definition strip_redirect (op : string) (command : list string) : list string :=
  let index := findTokenIndex command op in
  if negb (index =? -1) && (index + 1 <? size command)
  then erase command index (index + 2)
  else command.

Definition stage_argv (n i : Z) (command : list string) : list string :=
  let command := if i =? 0 then strip_redirect "<" command else command in
  segment_args (if i =? n - 1 then strip_redirect ">" command else command).

(** A redirection the executors act on: the operator occurs and a token
    follows its first occurrence, which is taken for the file name. *)
Definition complete_redirect (op : string) (command : list string) : bool :=
  let index := findTokenIndex command op in
  negb (index =? -1) && (index + 1 <? size command).

Definition redirect_file (op : string) (command : list string) : string :=
  at_ command (findTokenIndex command op + 1).

(** Stage [i] of [n], launched for [command], with pipe [k] to its right
    and [src] to its left. *)
Definition stage_ok (n i : Z) (k : nat) (src : file) (command : list string)
    (c : child) : Prop :=
  c_launcher c = ByPiped i /\
  (i < n - 1 -> fd_lookup (fdt (c_proc c)) STDOUT_FILENO = Some (PipeWrite k)) /\
  (0 < i -> fd_lookup (fdt (c_proc c)) STDIN_FILENO = Some src) /\
  (In (SysExecvp (stage_argv n i command)) (trace (c_proc c))
   \/ (i = n - 1 /\ c_halt c = Exited EXIT_FAILURE)) /\
  (0 < i < n - 1 -> existsb is_open_call (trace (c_proc c)) = false).

Fixpoint stages_ok (n i : Z) (k : nat) (src : file)
    (commands : list (list string)) (cs : list child) : Prop :=
  match commands, cs with
  | [], [] => True
  | command :: commands', c :: cs' =>
      stage_ok n i k src command c /\
      stages_ok n (i + 1) (S k) (PipeRead k) commands' cs'
  | _, _ => False
  end.

(** What the shell keeps of its children: their identifiers are below
    [next_pid], and every identifier it has waited for is below [next_pid]
    and belongs to no background child. *)
Definition foreground_pid (s : shell) (pid : Z) : Prop :=
  pid < Z.pos (next_pid s) /\
  forall c, In c (children s) -> c_pid c = pid -> is_background c = false.

Definition accounted (s : shell) : Prop :=
  (forall c, In c (children s) -> c_pid c < Z.pos (next_pid s)) /\
  (forall pid, In pid (waited (trace (self s))) -> foreground_pid s pid).

(** The binding of a descriptor in a process. *)
Definition look (p : proc) (fd : Z) : option file := fd_lookup (fdt p) fd.

(** Hoare triples over process code, with a separate condition for the
    states in which the process stops. *)
Definition hoare {S A : Type} (P : S -> Prop) (c : M S A)
    (Q : A -> S -> Prop) (E : S -> Prop) : Prop :=
  forall s, P s -> match c s with
                   | Ret a s' => Q a s'
                   | Halt _ s' => E s'
                   end.

(** No [open] among the calls. *)
Definition opens (tr : list syscall) : bool := existsb is_open_call tr.

(** The common shape of the redirection blocks of [executeCommand]: open
    the file, report and leave when that fails, otherwise bind [target] to
    it and close the descriptor [open] returned. *)
Definition open_and_bind (os : OS) (path : string) (writing : bool) (target : Z)
    (report : syscall) : M proc unit :=
  fd <- sys_open os path writing ;;
  if fd =? -1 then
    emit report ;; sys_exit EXIT_FAILURE
  else
    sys_dup2 fd target ;; sys_close fd ;; ret tt.



(** The part of the shell's state that [accounted] speaks of. *)
Definition view (s : shell) : list child * positive * list Z :=
  (children s, next_pid s, waited (trace (self s))).

(** [accounted], together with identifiers still to be waited for. *)
Definition inv (pids : list Z) (s : shell) : Prop :=
  accounted s /\ forall pid, In pid pids -> foreground_pid s pid.

(** Process code that never calls [waitpid]. *)
Definition quiet {A : Type} (c : M proc A) : Prop :=
  forall p, waited (trace (final (c p))) = waited (trace p).

Definition launched_in_background (by_ : launcher) : bool :=
  match by_ with
  | ByBackground => true
  | _ => false
  end.

(** A pipeline of [N] stages launched between the states [s] and [s']:
    [N - 1] pipes were created and [N] processes forked, one per stage, and
    the pipe created k-th is bound to the standard output of stage k and to
    the standard input of stage k + 1. *)
Definition pipeline_launched (s s' : shell) (N : nat) : Prop :=
  (1 <= N)%nat /\
  pipes s' = (pipes s + (N - 1))%nat /\
  length (spawned s s') = N /\
  length (forked (called s s')) = N /\
  forall k, (S k < N)%nat ->
    exists producer consumer,
      nth_error (spawned s s') k = Some producer /\
      nth_error (spawned s s') (S k) = Some consumer /\
      c_launcher producer = ByPiped (Z.of_nat k) /\
      c_launcher consumer = ByPiped (Z.of_nat (S k)) /\
      look (c_proc producer) STDOUT_FILENO = Some (PipeWrite (pipes s + k)) /\
      look (c_proc consumer) STDIN_FILENO = Some (PipeRead (pipes s + k)).

(** Stage [i] of [n] as the launching loop forks it: the child runs
    [piped_child] for [command] on some descriptor table. *)
Definition stage_child (os : OS) (n i : Z) (command : list string) (c : child)
    : Prop :=
  c_launcher c = ByPiped i /\
  exists in_fd fd t,
    (c_halt c, c_proc c)
    = run_child (piped_child os n i command in_fd fd) (mkProc t []).

Fixpoint stages_run (os : OS) (n i : Z) (commands : list (list string))
    (cs : list child) : Prop :=
  match commands, cs with
  | [], [] => True
  | command :: commands', c :: cs' =>
      stage_child os n i command c /\ stages_run os n (i + 1) commands' cs'
  | _, _ => False
  end.

(** The descriptor table after a call, read off the record of the call.
    The record of a successful [pipe] does not name the pipe, so a trace
    that holds one is not replayed. *)
Definition apply_call (t : fdtable) (e : syscall) : option fdtable :=
  match e with
  | SysOpen path writing ret =>
      Some (if ret <? 0 then t
            else fd_set t ret (Some (if writing then FileWrite path
                                     else FileRead path)))
  | SysDup oldfd ret =>
      Some (if ret <? 0 then t else fd_set t ret (fd_lookup t oldfd))
  | SysDup2 oldfd newfd =>
      Some (match fd_lookup t oldfd with
            | None => t
            | Some f => if newfd <? 0 then t else fd_set t newfd (Some f)
            end)
  | SysClose fd =>
      Some (match fd_lookup t fd with
            | None => t
            | Some _ => fd_set t fd None
            end)
  | SysPipe ret _ => if ret =? -1 then Some t else None
  | _ => Some t
  end.

Fixpoint replay (t : fdtable) (calls : list syscall) : option fdtable :=
  match calls with
  | [] => Some t
  | e :: rest =>
      match apply_call t e with
      | Some t' => replay t' rest
      | None => None
      end
  end.

(** Standard input and standard output are bound in [t'] as in [t]. *)
Definition same_std (t t' : fdtable) : Prop :=
  fd_lookup t' STDIN_FILENO = fd_lookup t STDIN_FILENO /\
  fd_lookup t' STDOUT_FILENO = fd_lookup t STDOUT_FILENO.
(** ** Vocabulary of the further statements *)

(** Every character of the string passes the test. *)
Fixpoint all_chars (test : ascii -> bool) (s : string) : bool :=
  match s with
  | EmptyString => true
  | String c rest => test c && all_chars test rest
  end.

(** A token made of one special character, and a token free of special
    characters and of white space. *)
Definition lone_special (t : string) : bool :=
  match t with
  | String c EmptyString => is_special c
  | _ => false
  end.

Definition plain_word (t : string) : bool :=
  negb (String.eqb t "")
  && all_chars (fun c => negb (isspace c) && negb (is_special c)) t.

(** A word as [operator>>] reads it: not empty, no white space. *)
Definition is_word (t : string) : bool :=
  negb (String.eqb t "") && all_chars (fun c => negb (isspace c)) t.

(** Words written on one line, one blank between neighbours. *)
Fixpoint join_words (words : list string) : string :=
  match words with
  | [] => ""
  | [w] => w
  | w :: rest => w ++ " " ++ join_words rest
  end.


(** The three operator tokens the validators know, and the two redirect
    operators among them. *)
Definition is_redirect (t : string) : bool :=
  String.eqb t "<" || String.eqb t ">".

Definition is_op (t : string) : bool :=
  String.eqb t "|" || is_redirect t.

(** Neighbouring tokens the validators refuse: an operator directly after
    a pipe, and a pipe directly after a redirect operator. *)
Definition bad_pair (a b : string) : bool :=
  (String.eqb a "|" && is_op b) || (is_redirect a && String.eqb b "|").

Fixpoint pairs_ok (tokens : list string) : bool :=
  match tokens with
  | a :: (b :: _) as rest => negb (bad_pair a b) && pairs_ok rest
  | _ => true
  end.

(** The token sequences both validators let through, said at once: at most
    one [<] and one [>], no operator in front, no pipe at the end, no
    refused neighbours. *)
Definition well_formed (tokens : list string) : bool :=
  (count tokens "<" <=? 1) && (count tokens ">" <=? 1)
  && negb (is_op (hd ""%string tokens))
  && negb (String.eqb (last tokens ""%string) "|")
  && pairs_ok tokens.

(** Stages written back on one line, a pipe between neighbours. *)
Fixpoint join_pipes (commands : list (list string)) : list string :=
  match commands with
  | [] => []
  | [c] => c
  | c :: rest => c ++ "|"%string :: join_pipes rest
  end.

Definition operator_free (tokens : list string) : bool :=
  forallb (fun t => negb (is_op t)) tokens.

Definition nil_b {A : Type} (l : list A) : bool :=
  match l with
  | [] => true
  | _ :: _ => false
  end.

(** The position tests of [hasSyntaxErrors], read along the list: [first]
    tells whether the token is the first one and [prev] is the token
    before it. *)
Fixpoint placed_ok (first : bool) (prev : string) (rest : list string) : bool :=
  match rest with
  | [] => true
  | t :: rest' =>
      (if is_redirect t then negb first && negb (String.eqb prev "|")
       else if String.eqb t "|"
            then negb (String.eqb prev "|") && negb first
                 && negb (match rest' with [] => true | _ :: _ => false end)
            else true)
      && placed_ok false t rest'
  end.

(** The test of the inner loop of [hasMultipleRedirectionsOrPipes], read
    along the list. *)
Fixpoint mixed (first : bool) (prev : string) (rest : list string) : bool :=
  match rest with
  | [] => false
  | t :: rest' =>
      (String.eqb t "|"
       && ((negb first && is_redirect prev)
           || match rest' with [] => false | next :: _ => is_redirect next end))
      || mixed false t rest'
  end.

Definition is_none {A : Type} (o : option A) : bool :=
  match o with
  | None => true
  | Some _ => false
  end.

(** A stage a validated line can have: not empty, no operator in front,
    no pipe inside. *)
Definition good_stage (c : list string) : Prop :=
  c <> [] /\ is_op (hd ""%string c) = false /\ ~ In "|"%string c.

(** No character, or a white-space character, before the current one. *)
Definition blank_or_none (prev : option ascii) : bool :=
  match prev with
  | Some p => isspace p
  | None => true
  end.


(** Hosts for the failure paths: one on which no file can be opened for
    writing, one on which [fork] always fails, one on which only the first
    [fork] succeeds. *)
Definition read_only_host : OS :=
  mkOS (fun _ => true) (fun _ => true) (fun _ writing => negb writing)
       (fun _ => 0) (fun _ => true) (fun _ => 0).

Definition host_without_fork : OS :=
  mkOS (fun _ => false) (fun _ => true) (fun _ _ => true) (fun _ => 0)
       (fun _ => true) (fun _ => 0).

Definition host_with_one_fork : OS :=
  mkOS (fun m => Nat.eqb m 0) (fun _ => true) (fun _ _ => true) (fun _ => 0)
       (fun _ => true) (fun _ => 0).


(** * Properties *)

(** ** Descriptor tables *)

Lemma nth_set_nth_eq (n : nat) (v : option file) (t : fdtable) :
  nth n (set_nth n v t) None = v.
Proof.
  revert t. induction n as [| n IH]; intros [| x t]; simpl; auto.
Qed.

Lemma nth_set_nth_neq (n m : nat) (v : option file) (t : fdtable) :
  n <> m -> nth m (set_nth n v t) None = nth m t None.
Proof.
  revert m t. induction n as [| n IH]; intros [| m] [| x t] Hneq; simpl;
    try congruence; auto.
  - destruct m; reflexivity.
  - rewrite IH by congruence. destruct m; reflexivity.
Qed.

Lemma fd_lookup_set_eq (t : fdtable) (fd : Z) (v : option file) :
  0 <= fd -> fd_lookup (fd_set t fd v) fd = v.
Proof.
  intros H. unfold fd_lookup, fd_set.
  destruct (fd <? 0) eqn:E; [apply Z.ltb_lt in E; lia |].
  apply nth_set_nth_eq.
Qed.

Lemma fd_lookup_set_neq (t : fdtable) (a b : Z) (v : option file) :
  a <> b -> fd_lookup (fd_set t a v) b = fd_lookup t b.
Proof.
  intros H. unfold fd_lookup, fd_set.
  destruct (a <? 0) eqn:Ea; [reflexivity |].
  destruct (b <? 0) eqn:Eb; [reflexivity |].
  apply Z.ltb_ge in Ea, Eb. apply nth_set_nth_neq. lia.
Qed.

Lemma fd_lookup_nonneg (t : fdtable) (fd : Z) (f : file) :
  fd_lookup t fd = Some f -> 0 <= fd.
Proof.
  unfold fd_lookup. destruct (fd <? 0) eqn:E; [discriminate |].
  intros _. now apply Z.ltb_ge in E.
Qed.

Lemma lowest_free_from_spec (t : fdtable) :
  forall n, n <= lowest_free_from n t /\
            nth (Z.to_nat (lowest_free_from n t - n)) t None = None.
Proof.
  induction t as [| [f |] t IH]; intros n; simpl.
  - split; [lia |]. now destruct (Z.to_nat (n - n)).
  - destruct (IH (n + 1)) as [Hle Hnth]. split; [lia |].
    replace (Z.to_nat (lowest_free_from (n + 1) t - n))
      with (S (Z.to_nat (lowest_free_from (n + 1) t - (n + 1)))) by lia.
    exact Hnth.
  - split; [lia |]. now rewrite Z.sub_diag.
Qed.

Lemma lowest_free_nonneg (t : fdtable) : 0 <= lowest_free t.
Proof. apply (lowest_free_from_spec t 0). Qed.

Lemma lowest_free_is_free (t : fdtable) : fd_lookup t (lowest_free t) = None.
Proof.
  unfold fd_lookup. pose proof (lowest_free_nonneg t) as H.
  destruct (lowest_free t <? 0) eqn:E; [reflexivity |].
  destruct (lowest_free_from_spec t 0) as [_ Hn]. unfold lowest_free.
  now rewrite Z.sub_0_r in Hn.
Qed.

(** ** The monad and the primitives *)

Lemma bind_Ret {S A B : Type} (c : M S A) (k : A -> M S B) (s s' : S) (a : A) :
  c s = Ret a s' -> bind c k s = k a s'.
Proof. unfold bind. intros ->. reflexivity. Qed.

Lemma bind_Halt {S A B : Type} (c : M S A) (k : A -> M S B) (s s' : S) (h : halt) :
  c s = Halt h s' -> bind c k s = Halt h s'.
Proof. unfold bind. intros ->. reflexivity. Qed.

Lemma bind_inv {S A B : Type} (c : M S A) (k : A -> M S B) (s s2 : S) (b : B) :
  bind c k s = Ret b s2 -> exists a s1, c s = Ret a s1 /\ k a s1 = Ret b s2.
Proof.
  unfold bind. destruct (c s) as [a s1 | h s1]; [eauto | discriminate].
Qed.

Lemma hoare_bind {S A B : Type} (P : S -> Prop) (c : M S A) (Q : A -> S -> Prop)
    (k : A -> M S B) (R : B -> S -> Prop) (E : S -> Prop) :
  hoare P c Q E -> (forall a, hoare (Q a) (k a) R E) -> hoare P (bind c k) R E.
Proof.
  intros Hc Hk s HP. unfold bind. specialize (Hc s HP).
  destruct (c s) as [a s1 | h s1]; [apply (Hk a s1 Hc) | exact Hc].
Qed.

Lemma hoare_ret {S A : Type} (P : S -> Prop) (a : A) (Q : A -> S -> Prop)
    (E : S -> Prop) :
  (forall s, P s -> Q a s) -> hoare P (ret a) Q E.
Proof. intros H s HP. simpl. auto. Qed.

Lemma hoare_exit {S A : Type} (P : S -> Prop) (code : Z) (Q : A -> S -> Prop)
    (E : S -> Prop) :
  (forall s, P s -> E s) -> hoare P (sys_exit code) Q E.
Proof. intros H s HP. simpl. auto. Qed.

Lemma hoare_weaken {S A : Type} (P P' : S -> Prop) (c : M S A)
    (Q Q' : A -> S -> Prop) (E : S -> Prop) :
  hoare P' c Q' E -> (forall s, P s -> P' s) -> (forall a s, Q' a s -> Q a s) ->
  hoare P c Q E.
Proof.
  intros H HP HQ s Hs. specialize (H s (HP s Hs)).
  destruct (c s); auto.
Qed.

(** *** Descriptor effects of the calls of a process

    Each call returns, and binds every descriptor as stated. *)

Section ProcCalls.

Variable os : OS.

Lemma sys_close_look (fd : Z) (p : proc) :
  exists r p', sys_close fd p = Ret r p' /\
    trace p' = trace p ++ [SysClose fd] /\
    forall x, look p' x = if x =? fd then None else look p x.
Proof.
  unfold sys_close, look. destruct (fd_lookup (fdt p) fd) as [f |] eqn:E.
  - do 2 eexists. split; [reflexivity |]. split; [reflexivity |]. simpl.
    intros x. destruct (x =? fd) eqn:Ex.
    + apply Z.eqb_eq in Ex. subst x. apply fd_lookup_set_eq.
      eapply fd_lookup_nonneg; eassumption.
    + apply Z.eqb_neq in Ex. apply fd_lookup_set_neq. congruence.
  - do 2 eexists. split; [reflexivity |]. split; [reflexivity |]. simpl.
    intros x. destruct (x =? fd) eqn:Ex; [| reflexivity].
    apply Z.eqb_eq in Ex. now subst x.
Qed.

Lemma sys_dup2_look (oldfd newfd : Z) (p : proc) :
  0 <= newfd ->
  exists r p', sys_dup2 oldfd newfd p = Ret r p' /\
    trace p' = trace p ++ [SysDup2 oldfd newfd] /\
    forall x, look p' x =
              match look p oldfd with
              | Some f => if x =? newfd then Some f else look p x
              | None => look p x
              end.
Proof.
  intros Hnew. unfold sys_dup2, look.
  destruct (fd_lookup (fdt p) oldfd) as [f |] eqn:E.
  - destruct (newfd <? 0) eqn:En; [apply Z.ltb_lt in En; lia |].
    do 2 eexists. split; [reflexivity |]. split; [reflexivity |]. simpl.
    intros x. destruct (x =? newfd) eqn:Ex.
    + apply Z.eqb_eq in Ex. subst x. now apply fd_lookup_set_eq.
    + apply Z.eqb_neq in Ex. apply fd_lookup_set_neq. congruence.
  - do 2 eexists. split; [reflexivity |]. split; reflexivity.
Qed.

Lemma sys_open_look (path : string) (writing : bool) (p : proc) :
  exists fd p', sys_open os path writing p = Ret fd p' /\
    trace p' = trace p ++ [SysOpen path writing fd] /\
    ((fd = -1 /\ open_ok os path writing = false /\ fdt p' = fdt p /\
      forall x, look p' x = look p x)
     \/ (0 <= fd /\ look p fd = None /\ open_ok os path writing = true /\
         forall x, look p' x =
                   if x =? fd
                   then Some (if writing then FileWrite path else FileRead path)
                   else look p x)).
Proof.
  unfold sys_open, look. destruct (open_ok os path writing).
  - do 2 eexists. split; [reflexivity |]. split; [reflexivity |]. right.
    pose proof (lowest_free_nonneg (fdt p)) as Hn.
    split; [exact Hn |]. split; [apply lowest_free_is_free |].
    split; [reflexivity |]. simpl. intros x.
    destruct (x =? lowest_free (fdt p)) eqn:Ex.
    + apply Z.eqb_eq in Ex. subst x. now apply fd_lookup_set_eq.
    + apply Z.eqb_neq in Ex. apply fd_lookup_set_neq. congruence.
  - do 2 eexists. split; [reflexivity |]. split; [reflexivity |]. left.
    repeat split; reflexivity.
Qed.

Lemma sys_dup_look (oldfd : Z) (p : proc) :
  exists fd p', sys_dup oldfd p = Ret fd p' /\
    trace p' = trace p ++ [SysDup oldfd fd] /\
    ((fd = -1 /\ look p oldfd = None /\ forall x, look p' x = look p x)
     \/ (0 <= fd /\ look p fd = None /\
         forall x, look p' x = if x =? fd then look p oldfd else look p x)).
Proof.
  unfold sys_dup, look. destruct (fd_lookup (fdt p) oldfd) as [f |] eqn:E.
  - do 2 eexists. split; [reflexivity |]. split; [reflexivity |]. right.
    pose proof (lowest_free_nonneg (fdt p)) as Hn.
    split; [exact Hn |]. split; [apply lowest_free_is_free |]. simpl. intros x.
    destruct (x =? lowest_free (fdt p)) eqn:Ex.
    + apply Z.eqb_eq in Ex. subst x. now apply fd_lookup_set_eq.
    + apply Z.eqb_neq in Ex. apply fd_lookup_set_neq. congruence.
  - do 2 eexists. split; [reflexivity |]. split; [reflexivity |]. left.
    repeat split; auto.
Qed.

End ProcCalls.

(** ** The child of a pipeline stage, block by block *)

Section StageChild.

Variable os : OS.

Lemma opens_app (tr tr' : list syscall) : opens (tr ++ tr') = opens tr || opens tr'.
Proof. apply existsb_app. Qed.

(** The three calls [open], [dup2], [close] that bind [target] to a
    freshly opened file leave every other descriptor that was open alone,
    and bind [target] to the file. *)
Lemma bind_fresh_look (p p1 p2 p3 : proc) (fd target : Z) (f : file) (r r' : Z) :
  0 <= target ->
  0 <= fd -> look p fd = None ->
  (forall x, look p1 x = if x =? fd then Some f else look p x) ->
  sys_dup2 fd target p1 = Ret r p2 ->
  sys_close fd p2 = Ret r' p3 ->
  (forall x, x <> target -> look p3 x = look p x) /\
  (fd <> target -> look p3 target = Some f).
Proof.
  intros Ht Hfd Hfree H1 Hdup Hclose.
  destruct (sys_dup2_look fd target p1 Ht) as (r0 & p2' & E2 & _ & L2).
  rewrite Hdup in E2. injection E2 as <- <-.
  destruct (sys_close_look fd p2) as (r0 & p3' & E3 & _ & L3).
  rewrite Hclose in E3. injection E3 as <- <-.
  assert (Hfd1 : look p1 fd = Some f) by (rewrite H1, Z.eqb_refl; reflexivity).
  rewrite Hfd1 in L2.
  split.
  - intros x Hx. rewrite L3. destruct (x =? fd) eqn:Ex.
    + apply Z.eqb_eq in Ex. subst x. now rewrite Hfree.
    + rewrite L2. apply Z.eqb_neq in Hx. rewrite Hx. rewrite H1, Ex. reflexivity.
  - intros Hne. rewrite L3. apply Z.eqb_neq in Hne. rewrite Z.eqb_sym, Hne.
    rewrite L2, Z.eqb_refl. reflexivity.
Qed.

Lemma stage_redirect_input_spec (i : Z) (command : list string) (in_fd : Z) (p : proc) :
  exists in_fd' p',
    stage_redirect_input os i command in_fd p
    = Ret (in_fd', if i =? 0 then strip_redirect "<" command else command) p' /\
    (i <> 0 -> in_fd' = in_fd /\ p' = p) /\
    (in_fd = STDIN_FILENO -> look p STDIN_FILENO <> None ->
     (in_fd' = STDIN_FILENO /\ p' = p)
     \/ (in_fd' <> STDIN_FILENO /\ look p' in_fd' = None /\
         forall x, look p x <> None -> x <> STDIN_FILENO -> look p' x = look p x)).
Proof.
  unfold stage_redirect_input, strip_redirect.
  destruct (i =? 0) eqn:Ei.
  2:{ do 2 eexists. split; [reflexivity |]. split; [auto |].
      intros -> _. left. auto. }
  apply Z.eqb_eq in Ei. subst i.
  destruct (negb (findTokenIndex command "<" =? -1)
            && (findTokenIndex command "<" + 1 <? size command)) eqn:Eredir.
  2:{ do 2 eexists. split; [reflexivity |]. split; [intros H; now elim H |].
      intros -> _. left. auto. }
  set (path := at_ command (findTokenIndex command "<" + 1)).
  destruct (sys_open_look os path false p) as (fd & p1 & E1 & _ & L1).
  rewrite (bind_Ret _ _ _ _ _ E1).
  assert (Hp : exists p1', when (fd =? -1)
                 (perror "syntax error, unexpected PIPE, expecting STRING") p1
               = Ret tt p1' /\ fdt p1' = fdt p1).
  { destruct (fd =? -1); simpl; eexists; split; reflexivity. }
  destruct Hp as (p1' & Ep & Hfdt).
  rewrite (bind_Ret _ _ _ _ _ Ep).
  assert (L1' : forall x, look p1' x = look p1 x)
    by (intros x; unfold look; now rewrite Hfdt).
  destruct (sys_dup2_look fd STDIN_FILENO p1' ltac:(unfold STDIN_FILENO; lia))
    as (r2 & p2 & E2 & _ & L2).
  rewrite (bind_Ret _ _ _ _ _ E2).
  destruct (sys_close_look fd p2) as (r3 & p3 & E3 & _ & L3).
  rewrite (bind_Ret _ _ _ _ _ E3).
  exists fd, p3. split; [reflexivity |]. split; [intros H; now elim H |].
  intros _ Hin. right.
  destruct L1 as [(-> & _ & _ & L1) | (Hfd & Hfree & _ & L1)].
  - assert (Hnone : look p (-1) = None) by reflexivity.
    split; [unfold STDIN_FILENO; lia |].
    assert (Hall : forall x, look p3 x = look p x).
    { intros x. rewrite L3. destruct (x =? -1) eqn:Ex.
      - apply Z.eqb_eq in Ex. now subst x.
      - rewrite L2, L1', L1, Hnone. now rewrite L1', L1. }
    split; [now rewrite Hall |]. intros x _ _. apply Hall.
  - assert (Hne : fd <> STDIN_FILENO)
      by (intros ->; contradiction).
    assert (L1'' : forall x, look p1' x
                  = if x =? fd then Some (FileRead path) else look p x)
      by (intros x; now rewrite L1', L1).
    destruct (bind_fresh_look p p1' p2 p3 fd STDIN_FILENO (FileRead path) r2 r3
                ltac:(unfold STDIN_FILENO; lia) Hfd Hfree L1'' E2 E3) as [Hkeep _].
    split; [exact Hne |]. split.
    + rewrite L3, Z.eqb_refl. reflexivity.
    + intros x _ Hx. now apply Hkeep.
Qed.

Lemma stage_bind_input_spec (in_fd : Z) (p : proc) :
  exists p',
    stage_bind_input in_fd p = Ret tt p' /\
    opens (trace p') = opens (trace p) /\
    (forall x, x <> STDIN_FILENO -> x <> in_fd -> look p' x = look p x) /\
    (in_fd <> STDIN_FILENO -> forall f, look p in_fd = Some f ->
       look p' STDIN_FILENO = Some f) /\
    (look p in_fd = None -> forall x, look p' x = look p x) /\
    (in_fd = STDIN_FILENO -> p' = p).
Proof.
  unfold stage_bind_input. destruct (in_fd =? STDIN_FILENO) eqn:Ein; simpl.
  - apply Z.eqb_eq in Ein. exists p. repeat split; auto. congruence.
  - apply Z.eqb_neq in Ein.
    destruct (sys_dup2_look in_fd STDIN_FILENO p ltac:(unfold STDIN_FILENO; lia))
      as (r2 & p2 & E2 & T2 & L2).
    rewrite (bind_Ret _ _ _ _ _ E2).
    destruct (sys_close_look in_fd p2) as (r3 & p3 & E3 & T3 & L3).
    rewrite (bind_Ret _ _ _ _ _ E3).
    exists p3. split; [reflexivity |]. split.
    { rewrite T3, T2, !opens_app. simpl. now rewrite !orb_false_r. }
    split; [| split; [| split]].
    + intros x Hx0 Hxi. rewrite L3. apply Z.eqb_neq in Hxi. rewrite Hxi, L2.
      apply Z.eqb_neq in Hx0. rewrite Hx0. now destruct (look p in_fd).
    + intros _ f Hf. rewrite L3.
      assert (E : (STDIN_FILENO =? in_fd) = false) by (apply Z.eqb_neq; congruence).
      rewrite E, L2, Hf, Z.eqb_refl. reflexivity.
    + intros Hnone x. rewrite L3, L2, Hnone. destruct (x =? in_fd) eqn:Ex; auto.
      apply Z.eqb_eq in Ex. now subst x.
    + intros H. contradiction.
Qed.

Lemma stage_bind_output_spec (n i : Z) (fd : Z * Z) (p : proc) :
  exists p',
    stage_bind_output n i fd p = Ret tt p' /\
    opens (trace p') = opens (trace p) /\
    (i < n - 1 -> forall f, look p (snd fd) = Some f ->
       fst fd <> STDOUT_FILENO -> snd fd <> STDOUT_FILENO ->
       look p' STDOUT_FILENO = Some f) /\
    (forall x, x <> STDOUT_FILENO -> x <> fst fd -> x <> snd fd ->
       look p' x = look p x) /\
    (~ i < n - 1 -> p' = p).
Proof.
  unfold stage_bind_output. destruct (i <? n - 1) eqn:Ei; simpl.
  - apply Z.ltb_lt in Ei.
    destruct (sys_dup2_look (snd fd) STDOUT_FILENO p ltac:(unfold STDOUT_FILENO; lia))
      as (r2 & p2 & E2 & T2 & L2).
    rewrite (bind_Ret _ _ _ _ _ E2).
    destruct (sys_close_look (fst fd) p2) as (r3 & p3 & E3 & T3 & L3).
    rewrite (bind_Ret _ _ _ _ _ E3).
    destruct (sys_close_look (snd fd) p3) as (r4 & p4 & E4 & T4 & L4).
    rewrite (bind_Ret _ _ _ _ _ E4).
    exists p4. split; [reflexivity |]. split.
    { rewrite T4, T3, T2, !opens_app. simpl. now rewrite !orb_false_r. }
    split; [| split].
    + intros _ f Hf H0 H1. rewrite L4.
      assert (E : (STDOUT_FILENO =? snd fd) = false) by (apply Z.eqb_neq; congruence).
      rewrite E, L3.
      assert (E' : (STDOUT_FILENO =? fst fd) = false) by (apply Z.eqb_neq; congruence).
      rewrite E', L2, Hf, Z.eqb_refl. reflexivity.
    + intros x Hx1 Hx0 Hxw. rewrite L4. apply Z.eqb_neq in Hxw. rewrite Hxw, L3.
      apply Z.eqb_neq in Hx0. rewrite Hx0, L2. apply Z.eqb_neq in Hx1. rewrite Hx1.
      now destruct (look p (snd fd)).
    + intros H. contradiction.
  - apply Z.ltb_ge in Ei. exists p. repeat split; auto. intros H. lia.
Qed.

Lemma stage_redirect_output_spec (n i : Z) (command : list string) (p : proc) :
  (exists p',
     stage_redirect_output os n i command p
     = Ret (if i =? n - 1 then strip_redirect ">" command else command) p' /\
     (forall x, look p x <> None -> x <> STDOUT_FILENO -> look p' x = look p x) /\
     (i <> n - 1 -> p' = p))
  \/ (exists p',
        stage_redirect_output os n i command p = Halt (Exited EXIT_FAILURE) p' /\
        i = n - 1 /\ (forall x, look p' x = look p x) /\
        forall argv, ~ In (SysExecvp argv) (trace p) ->
                     ~ In (SysExecvp argv) (trace p')).
Proof.
  unfold stage_redirect_output, strip_redirect.
  destruct (i =? n - 1) eqn:Ei.
  2:{ left. eexists. split; [reflexivity |]. split; auto. }
  apply Z.eqb_eq in Ei.
  destruct (negb (findTokenIndex command ">" =? -1)
            && (findTokenIndex command ">" + 1 <? size command)) eqn:Eredir.
  2:{ left. eexists. split; [reflexivity |]. split; auto. }
  set (path := at_ command (findTokenIndex command ">" + 1)).
  destruct (sys_open_look os path true p) as (fd & p1 & E1 & T1 & L1).
  rewrite (bind_Ret _ _ _ _ _ E1).
  destruct L1 as [(-> & _ & _ & L1) | (Hfd & Hfree & _ & L1)].
  - right. simpl. eexists. split; [reflexivity |]. split; [exact Ei |]. split.
    + intros x. unfold look. simpl. apply L1.
    + intros argv Hno. simpl. rewrite T1, !in_app_iff. simpl.
      intros [[H | [H | []]] | [H | []]]; try discriminate. contradiction.
  - left. assert (Hfd' : (fd =? -1) = false) by (apply Z.eqb_neq; lia).
    rewrite Hfd'.
    destruct (sys_dup2_look fd STDOUT_FILENO p1 ltac:(unfold STDOUT_FILENO; lia))
      as (r2 & p2 & E2 & _ & L2).
    rewrite (bind_Ret _ _ _ _ _ E2).
    destruct (sys_close_look fd p2) as (r3 & p3 & E3 & _ & L3).
    rewrite (bind_Ret _ _ _ _ _ E3).
    exists p3. split; [reflexivity |]. split; [| intros H; contradiction].
    destruct (bind_fresh_look p p1 p2 p3 fd STDOUT_FILENO (FileWrite path) r2 r3
                ltac:(unfold STDOUT_FILENO; lia) Hfd Hfree L1 E2 E3) as [Hkeep _].
    intros x _ Hx. now apply Hkeep.
Qed.

Lemma stage_exec_spec (command : list string) (p : proc) :
  exists h p' tl,
    stage_exec os command p = Halt h p' /\
    fdt p' = fdt p /\
    trace p' = trace p ++ SysExecvp (segment_args command) :: tl /\
    opens tl = false.
Proof.
  unfold stage_exec, sys_execvp, bind. cbv zeta.
  destruct (segment_args command) as [| prog args].
  - do 3 eexists. split; [reflexivity |]. simpl. split; [reflexivity |].
    split; reflexivity.
  - destruct (exec_errno os (prog :: args) =? 0).
    + exists (Execed (prog :: args)). do 2 eexists. split; [reflexivity |]. simpl.
      split; [reflexivity |]. split; reflexivity.
    + do 3 eexists. split; [reflexivity |]. simpl. split; [reflexivity |]. split.
      * rewrite <- app_assoc. reflexivity.
      * reflexivity.
Qed.

End StageChild.

Section StageChildWhole.

Variable os : OS.

(** The child of stage [i]: what its standard descriptors are bound to
    when it stops, and what it hands to [execvp]. *)
Lemma piped_child_spec (n i : Z) (command : list string) (in_fd : Z) (fd : Z * Z)
    (t : fdtable) (k : nat) (src : file) (pid : Z) :
  std_open t ->
  (i < n - 1 ->
   fd_lookup t (snd fd) = Some (PipeWrite k) /\
   fst fd <> STDIN_FILENO /\ fst fd <> STDOUT_FILENO /\
   snd fd <> STDIN_FILENO /\ snd fd <> STDOUT_FILENO /\ in_fd <> snd fd) ->
  (i <= 0 -> i = 0 /\ in_fd = STDIN_FILENO) ->
  (0 < i -> in_fd <> STDIN_FILENO /\ fd_lookup t in_fd = Some src) ->
  stage_ok n i k src command
    (mkChild pid (ByPiped i)
       (fst (run_child (piped_child os n i command in_fd fd) (mkProc t [])))
       (snd (run_child (piped_child os n i command in_fd fd) (mkProc t [])))).
Proof.
  intros [Hstdin Hstdout] Hpipe Hfirst Hlater.
  set (p0 := mkProc t []).
  change (look p0 STDIN_FILENO <> None) in Hstdin.
  unfold run_child, piped_child.
  destruct (stage_redirect_input_spec os i command in_fd p0)
    as (in_fd1 & p1 & EA & HA1 & HA2).
  rewrite (bind_Ret _ _ _ _ _ EA).
  set (cmd1 := if i =? 0 then strip_redirect "<" command else command) in *.
  destruct (stage_bind_input_spec in_fd1 p1) as (p2 & EB & OB & HB1 & HB2 & HB3 & HB4).
  rewrite (bind_Ret _ _ _ _ _ EB).
  destruct (stage_bind_output_spec n i fd p2) as (p3 & EC & OC & HC1 & HC2 & HC3).
  rewrite (bind_Ret _ _ _ _ _ EC).
  (* the write end of the pipe is still bound after the input blocks *)
  assert (Hw2 : i < n - 1 -> look p2 (snd fd) = Some (PipeWrite k)).
  { intros Hi. destruct (Hpipe Hi) as (Hw & _ & _ & Hw0 & _ & Hwin).
    change (look p0 (snd fd) = Some (PipeWrite k)) in Hw.
    destruct (Z_lt_le_dec 0 i) as [Hpos | Hzero].
    - destruct (HA1 ltac:(lia)) as [-> ->].
      rewrite HB1; auto.
    - destruct (Hfirst Hzero) as [_ Hin0].
      destruct (HA2 Hin0 Hstdin) as [[-> ->] | (Hne & Hnone & Hkeep)].
      + rewrite (HB4 eq_refl). exact Hw.
      + rewrite (HB3 Hnone). rewrite Hkeep; auto. congruence. }
  (* standard input after the input blocks *)
  assert (Hin2 : 0 < i -> look p2 STDIN_FILENO = Some src).
  { intros Hi. destruct (HA1 ltac:(lia)) as [-> ->].
    destruct (Hlater Hi) as [Hne Hsrc]. now apply HB2. }
  assert (Hin3 : 0 < i -> look p3 STDIN_FILENO = Some src).
  { intros Hi. destruct (Z_lt_le_dec i (n - 1)) as [Hmid | Hlast].
    - destruct (Hpipe Hmid) as (_ & Hr0 & _ & Hw0 & _ & _).
      rewrite HC2; auto. unfold STDIN_FILENO, STDOUT_FILENO. lia.
    - rewrite (HC3 ltac:(lia)). auto. }
  assert (Hout3 : i < n - 1 -> look p3 STDOUT_FILENO = Some (PipeWrite k)).
  { intros Hi. destruct (Hpipe Hi) as (_ & _ & Hr1 & _ & Hw1 & _).
    apply HC1; auto. }
  assert (Hopen3 : 0 < i < n - 1 -> opens (trace p3) = false).
  { intros [Hi _]. destruct (HA1 ltac:(lia)) as [_ ->].
    rewrite OC, OB. reflexivity. }
  destruct (stage_redirect_output_spec os n i cmd1 p3)
    as [(p4 & ED & HD1 & HD2) | (p4 & ED & Hlast & HD1 & _)].
  - rewrite (bind_Ret _ _ _ _ _ ED).
    destruct (stage_exec_spec os (if i =? n - 1 then strip_redirect ">" cmd1 else cmd1) p4)
      as (h & p5 & tl & EE & HE1 & HE2 & HE3).
    rewrite EE. unfold stage_ok, stage_argv. simpl. fold cmd1.
    assert (L5 : forall x, look p5 x = look p4 x)
      by (intros x; unfold look; now rewrite HE1).
    split; [reflexivity |]. split; [| split; [| split]].
    + intros Hi. change (look p5 STDOUT_FILENO = Some (PipeWrite k)).
      rewrite L5, (HD2 ltac:(lia)). auto.
    + intros Hi. change (look p5 STDIN_FILENO = Some src).
      rewrite L5, HD1.
      * auto.
      * rewrite (Hin3 Hi). discriminate.
      * unfold STDIN_FILENO, STDOUT_FILENO. lia.
    + left. rewrite HE2. apply in_or_app. right. left. reflexivity.
    + intros Hi. rewrite HE2. change (opens (trace p4 ++ SysExecvp
        (segment_args (if i =? n - 1 then strip_redirect ">" cmd1 else cmd1)) :: tl)
                                      = false).
      rewrite opens_app. rewrite (HD2 ltac:(lia)), (Hopen3 Hi). simpl. exact HE3.
  - rewrite (bind_Halt _ _ _ _ _ ED). unfold stage_ok. simpl.
    split; [reflexivity |]. split; [| split; [| split]].
    + intros Hi. lia.
    + intros Hi. change (look p4 STDIN_FILENO = Some src). rewrite HD1. auto.
    + right. split; [exact Hlast | reflexivity].
    + intros Hi. lia.
Qed.

End StageChildWhole.

(** ** The calls of the shell process *)

Section ShellCalls.

Variable os : OS.

Lemma waited_app (tr tr' : list syscall) : waited (tr ++ tr') = waited tr ++ waited tr'.
Proof.
  induction tr as [| e tr IH]; [reflexivity |].
  destruct e; simpl; rewrite ?IH; reflexivity.
Qed.

Lemma forked_app (tr tr' : list syscall) : forked (tr ++ tr') = forked tr ++ forked tr'.
Proof.
  induction tr as [| e tr IH]; [reflexivity |].
  destruct e; simpl; rewrite ?IH; try reflexivity.
  match goal with
  | |- context [if ?b then _ else _] => destruct b; simpl; rewrite ?IH; reflexivity
  end.
Qed.

Lemma sys_pipe_spec (fd0 : Z * Z) (s : shell) :
  exists rc fd s1,
    sys_pipe os fd0 s = Ret (rc, fd) s1 /\
    children s1 = children s /\ next_pid s1 = next_pid s /\ forks s1 = forks s /\
    trace (self s1) = trace (self s) ++ [SysPipe rc fd] /\
    ((rc = -1 /\ pipe_ok os (pipe_calls s) = false /\ fd = fd0 /\
      fdt (self s1) = fdt (self s) /\ pipes s1 = pipes s)
     \/ (rc = 0 /\ pipe_ok os (pipe_calls s) = true /\ pipes s1 = S (pipes s) /\
         look (self s) (fst fd) = None /\ look (self s) (snd fd) = None /\
         fst fd <> snd fd /\
         look (self s1) (fst fd) = Some (PipeRead (pipes s)) /\
         look (self s1) (snd fd) = Some (PipeWrite (pipes s)) /\
         forall x, x <> fst fd -> x <> snd fd -> look (self s1) x = look (self s) x)).
Proof.
  unfold sys_pipe. destruct (pipe_ok os (pipe_calls s)) eqn:Eok.
  - set (t := fdt (self s)).
    set (r := lowest_free t).
    set (t1 := fd_set t r (Some (PipeRead (pipes s)))).
    set (w := lowest_free t1).
    exists 0, (r, w). eexists. split; [reflexivity |]. simpl.
    repeat (split; [reflexivity |]). right.
    assert (Hr : 0 <= r) by apply lowest_free_nonneg.
    assert (Hw : 0 <= w) by apply lowest_free_nonneg.
    assert (Hrfree : fd_lookup t r = None) by apply lowest_free_is_free.
    assert (Hwfree1 : fd_lookup t1 w = None) by apply lowest_free_is_free.
    assert (Hrw : r <> w).
    { intros E. rewrite <- E in Hwfree1. unfold t1 in Hwfree1.
      rewrite fd_lookup_set_eq in Hwfree1 by exact Hr. discriminate. }
    unfold look. simpl. fold t. fold r. fold t1. fold w.
    repeat split; auto.
    + unfold t1 in Hwfree1. rewrite fd_lookup_set_neq in Hwfree1 by exact Hrw.
      exact Hwfree1.
    + rewrite fd_lookup_set_neq by congruence. unfold t1.
      now rewrite fd_lookup_set_eq.
    + now rewrite fd_lookup_set_eq.
    + intros x Hxr Hxw. rewrite fd_lookup_set_neq by congruence.
      unfold t1. rewrite fd_lookup_set_neq by congruence. reflexivity.
  - exists (-1), fd0. eexists. split; [reflexivity |]. simpl.
    repeat (split; [reflexivity |]). left. repeat split; reflexivity.
Qed.

Lemma sys_fork_spec (by_ : launcher) (code : M proc Empty_set) (s : shell) :
  exists pid s1,
    sys_fork os by_ code s = Ret pid s1 /\
    fdt (self s1) = fdt (self s) /\ pipes s1 = pipes s /\
    trace (self s1) = trace (self s) ++ [SysFork pid] /\
    ((pid = -1 /\ fork_ok os (forks s) = false /\
      children s1 = children s /\ next_pid s1 = next_pid s)
     \/ (pid = Z.pos (next_pid s) /\ fork_ok os (forks s) = true /\
         next_pid s1 = Pos.succ (next_pid s) /\
         children s1
         = children s
           ++ [mkChild pid by_
                 (fst (run_child code (mkProc (fdt (self s)) [])))
                 (snd (run_child code (mkProc (fdt (self s)) [])))])).
Proof.
  unfold sys_fork. destruct (fork_ok os (forks s)).
  - destruct (run_child code (mkProc (fdt (self s)) [])) as [h p].
    do 2 eexists. split; [reflexivity |]. simpl.
    repeat (split; [reflexivity |]). right. repeat split; reflexivity.
  - do 2 eexists. split; [reflexivity |]. simpl.
    repeat (split; [reflexivity |]). left. repeat split; reflexivity.
Qed.

Lemma lift_close_spec (fd : Z) (s : shell) :
  exists r s1,
    lift (sys_close fd) s = Ret r s1 /\
    children s1 = children s /\ next_pid s1 = next_pid s /\ pipes s1 = pipes s /\
    trace (self s1) = trace (self s) ++ [SysClose fd] /\
    forall x, look (self s1) x = if x =? fd then None else look (self s) x.
Proof.
  unfold lift. destruct (sys_close_look fd (self s)) as (r & p & E & T & L).
  rewrite E. do 2 eexists. split; [reflexivity |]. simpl. auto.
Qed.

Lemma setup_pipe_spec (n i : Z) (fds : list Z) (s : shell)
    (fd : Z * Z) (fds1 : list Z) (s1 : shell) :
  setup_pipe os n i fds s = Ret (fd, fds1) s1 ->
  children s1 = children s /\ next_pid s1 = next_pid s /\
  (exists tr, trace (self s1) = trace (self s) ++ tr /\
              forked tr = [] /\ waited tr = []) /\
  ((i < n - 1 /\ pipes s1 = S (pipes s) /\
    look (self s) (fst fd) = None /\ look (self s) (snd fd) = None /\
    fst fd <> snd fd /\
    look (self s1) (fst fd) = Some (PipeRead (pipes s)) /\
    look (self s1) (snd fd) = Some (PipeWrite (pipes s)) /\
    forall x, x <> fst fd -> x <> snd fd -> look (self s1) x = look (self s) x)
   \/ (~ i < n - 1 /\ s1 = s)).
Proof.
  unfold setup_pipe. destruct (i <? n - 1) eqn:Ei.
  2:{ intros H. injection H as <- <- <-. apply Z.ltb_ge in Ei.
      repeat split; auto.
      - exists []. rewrite app_nil_r. auto.
      - right. split; [lia | reflexivity]. }
  apply Z.ltb_lt in Ei.
  destruct (sys_pipe_spec fd_indeterminate s)
    as (rc & fda & sa & Ea & Hc & Hn & _ & Ht & Hcase).
  rewrite (bind_Ret _ _ _ _ _ Ea).
  destruct Hcase as [(-> & _ & -> & Hfdt & Hp) | (-> & _ & Hrest)].
  - simpl.
    destruct (sys_pipe_spec fd_indeterminate sa)
      as (rc & fdb & sb & Eb & Hc' & Hn' & _ & Ht' & Hcase).
    rewrite (bind_Ret _ _ _ _ _ Eb).
    destruct Hcase as [(-> & _) | (-> & _ & Hp' & Hr & Hw & Hrw & Lr & Lw & Lx)].
    + simpl. discriminate.
    + simpl. intros H. injection H as <- <- <-.
      split; [congruence |]. split; [congruence |]. split.
      * eexists. rewrite Ht', Ht, <- app_assoc. split; [reflexivity |].
        split; reflexivity.
      * left. unfold look in *. rewrite Hfdt in *. rewrite Hp in *.
        repeat split; auto.
  - simpl. intros H. injection H as <- <- <-.
    split; [congruence |]. split; [congruence |]. split.
    + eexists. split; [exact Ht |]. split; reflexivity.
    + left. tauto.
Qed.

Lemma setup_pipe_returns (n i : Z) (fds : list Z) (s : shell) :
  (forall m, pipe_ok os m = true) ->
  exists r s1, setup_pipe os n i fds s = Ret r s1 /\ forks s1 = forks s.
Proof.
  intros Hok. unfold setup_pipe, sys_pipe, bind. destruct (i <? n - 1).
  - rewrite Hok. simpl. do 2 eexists. split; reflexivity.
  - do 2 eexists. split; reflexivity.
Qed.

Lemma parent_after_fork_spec (n i : Z) (in_fd : Z) (fd : Z * Z) (s : shell) :
  exists s1,
    parent_after_fork n i in_fd fd s
    = Ret (if i <? n - 1 then fst fd else in_fd) s1 /\
    children s1 = children s /\ next_pid s1 = next_pid s /\ pipes s1 = pipes s /\
    forks s1 = forks s /\
    (exists tr, trace (self s1) = trace (self s) ++ tr /\
                forked tr = [] /\ waited tr = []) /\
    forall x, (in_fd = STDIN_FILENO \/ x <> in_fd) -> (i < n - 1 -> x <> snd fd) ->
              look (self s1) x = look (self s) x.
Proof.
  unfold parent_after_fork.
  assert (HA : exists sa,
             when (negb (in_fd =? STDIN_FILENO)) (lift (sys_close in_fd;; ret tt)) s
             = Ret tt sa /\
             children sa = children s /\ next_pid sa = next_pid s /\
             pipes sa = pipes s /\ forks sa = forks s /\
             (exists tr, trace (self sa) = trace (self s) ++ tr /\
                         forked tr = [] /\ waited tr = []) /\
             forall x, (in_fd = STDIN_FILENO \/ x <> in_fd) ->
                       look (self sa) x = look (self s) x).
  { destruct (in_fd =? STDIN_FILENO) eqn:Ein; simpl.
    - exists s. repeat split; auto. exists []. rewrite app_nil_r. auto.
    - apply Z.eqb_neq in Ein. unfold lift, bind.
      destruct (sys_close_look in_fd (self s)) as (r & p & E & T & L).
      rewrite E. simpl. eexists. split; [reflexivity |]. simpl.
      repeat split; auto.
      + eexists. split; [exact T |]. split; reflexivity.
      + intros x [Hx | Hx]; [contradiction |]. rewrite L.
        apply Z.eqb_neq in Hx. now rewrite Hx. }
  destruct HA as (sa & EA & Hc & Hn & Hp & Hf & (tra & Ht & Hfk & Hwt) & HL).
  rewrite (bind_Ret _ _ _ _ _ EA).
  destruct (i <? n - 1) eqn:Ei.
  - apply Z.ltb_lt in Ei. unfold lift, bind.
    destruct (sys_close_look (snd fd) (self sa)) as (r & p & E & T & L).
    rewrite E. simpl. eexists. split; [reflexivity |]. simpl.
    split; [auto |]. split; [auto |]. split; [auto |]. split; [auto |]. split.
    + eexists. rewrite T, Ht, <- app_assoc. split; [reflexivity |].
      rewrite forked_app, waited_app, Hfk, Hwt. split; reflexivity.
    + intros x Hx Hw. rewrite L. specialize (Hw Ei). apply Z.eqb_neq in Hw.
      rewrite Hw. now apply HL.
  - exists sa. simpl. split; [reflexivity |]. repeat split; auto.
    exists tra. auto.
Qed.

End ShellCalls.

(** *** Proofs about the normaliser *)

Lemma operator_is_special (c : ascii) : is_operator c = true -> is_special c = true.
Proof.
  unfold is_operator, is_special. intros H. rewrite H. reflexivity.
Qed.

Lemma special_not_space (c : ascii) : is_special c = true -> isspace c = false.
Proof.
  unfold is_special. intros H.
  repeat (apply orb_true_iff in H; destruct H as [H | H]);
    apply Ascii.eqb_eq in H; subst c; reflexivity.
Qed.

Lemma lex_from_word (word : string) (str : string) :
  lex_from word str = match str with
                      | EmptyString => flush word
                      | String c rest =>
                          if (isspace c || is_special c)%bool
                          then (flush word ++ lex_from EmptyString str)%list
                          else lex_from word str
                      end.
Proof.
  destruct str as [| c rest]; [reflexivity |].
  destruct (isspace c) eqn:Hs; simpl; rewrite Hs; simpl.
  - reflexivity.
  - destruct (is_special c) eqn:Hp; reflexivity.
Qed.

(** The normaliser followed by [tokenize] computes the direct lexer.  The
    side condition ties the word under construction to the previous
    character: at the start of the line, or after white space, no word is
    pending. *)
Lemma tokenize_checkWhiteSpaces_from (str : string) :
  forall (word : string) (prev : option ascii),
    (match prev with
     | None => word = EmptyString
     | Some p => isspace p = true -> word = EmptyString
     end) ->
    tokenize_from word (checkWhiteSpaces_from prev str) = lex_from word str.
Proof.
  induction str as [| c rest IH]; intros word prev Hinv; [reflexivity |].
  simpl. destruct (is_special c) eqn:Hsp.
  - pose proof (special_not_space c Hsp) as Hns. rewrite Hns.
    assert (Hhead : forall tl,
               tokenize_from word
                 ((match prev with
                   | Some p => if isspace p then "" else " "
                   | None => ""
                   end) ++ String c tl)
               = (flush word ++ tokenize_from (str1 c) tl)%list).
    { intros tl. destruct prev as [p |].
      - destruct (isspace p) eqn:Hp.
        + rewrite (Hinv eq_refl). simpl. rewrite Hns. reflexivity.
        + simpl. rewrite Hns. reflexivity.
      - rewrite Hinv. simpl. rewrite Hns. reflexivity. }
    rewrite Hhead. f_equal.
    destruct rest as [| next rest'].
    + reflexivity.
    + destruct (isspace next) eqn:Hn.
      * change ("" ++ checkWhiteSpaces_from (Some c) (String next rest'))%string
          with (checkWhiteSpaces_from (Some c) (String next rest')).
        rewrite IH by (intros Hc; congruence).
        simpl. rewrite Hn. reflexivity.
      * change (" " ++ checkWhiteSpaces_from (Some c) (String next rest'))%string
          with (String " " (checkWhiteSpaces_from (Some c) (String next rest'))).
        cbn [tokenize_from]. change (isspace " ") with true. cbv iota.
        rewrite IH by (intros Hc; congruence). reflexivity.
  - destruct (isspace c) eqn:Hc.
    + simpl. rewrite Hc. f_equal. apply IH. intros _. reflexivity.
    + simpl. rewrite Hc. apply IH. intros Hc'. congruence.
Qed.

Lemma append_empty_r (s : string) : (s ++ "")%string = s.
Proof. induction s as [| c s IH]; simpl; [| rewrite IH]; reflexivity. Qed.

Lemma append_assoc (s t u : string) : ((s ++ t) ++ u)%string = (s ++ t ++ u)%string.
Proof. induction s as [| c s IH]; simpl; [| rewrite IH]; reflexivity. Qed.

Lemma length_append (s t : string) :
  String.length (s ++ t) = (String.length s + String.length t)%nat.
Proof. induction s as [| c s IH]; simpl; [| rewrite IH]; reflexivity. Qed.

Lemma char_at_append (pre suf : string) (n : nat) :
  char_at (pre ++ suf) (String.length pre + n) = char_at suf n.
Proof.
  unfold char_at. rewrite Nat.add_comm, <- append_correct2. reflexivity.
Qed.

Lemma char_at_back (pre suf : string) :
  pre <> EmptyString ->
  back pre = Some (char_at (pre ++ suf) (String.length pre - 1)).
Proof.
  induction pre as [| c pre IH]; intros Hne; [contradiction |].
  destruct pre as [| c' pre'].
  - reflexivity.
  - change (back (String c (String c' pre'))) with (back (String c' pre')).
    rewrite IH by discriminate. simpl. rewrite Nat.sub_0_r. reflexivity.
Qed.

Lemma back_snoc (pre : string) (c : ascii) : back (pre ++ str1 c) = Some c.
Proof.
  induction pre as [| c' pre IH]; [reflexivity |].
  simpl. rewrite IH. destruct (pre ++ str1 c)%string eqn:E; [| reflexivity].
  destruct pre; discriminate.
Qed.

(** The loop of the source, started at index [i] with [pre] already read,
    appends what the suffix form computes. *)
Lemma checkWhiteSpaces_loop_from (suf : string) :
  forall (pre newInput : string),
    checkWhiteSpaces_loop (pre ++ suf) (String.length suf) (String.length pre) newInput
    = (newInput ++ checkWhiteSpaces_from (back pre) suf)%string.
Proof.
  induction suf as [| c suf IH]; intros pre newInput.
  - simpl. now rewrite append_empty_r.
  - cbn [String.length checkWhiteSpaces_loop checkWhiteSpaces_from].
    assert (Hcur : char_at (pre ++ String c suf) (String.length pre) = c).
    { rewrite <- (Nat.add_0_r (String.length pre)) at 1. now rewrite char_at_append. }
    assert (Hnext : char_at (pre ++ String c suf) (String.length pre + 1)
                    = char_at suf 0).
    { rewrite char_at_append. reflexivity. }
    assert (Hlen : Nat.ltb (String.length pre) (String.length (pre ++ String c suf) - 1)
                   = match suf with EmptyString => false | _ => true end).
    { rewrite length_append. simpl. destruct suf; simpl.
      - apply Nat.ltb_ge. lia.
      - apply Nat.ltb_lt. lia. }
    assert (Hprev : (Nat.ltb 0 (String.length pre)
                     && negb (isspace (char_at (pre ++ String c suf)
                                         (String.length pre - 1))))%bool
                    = match back pre with
                      | Some p => negb (isspace p)
                      | None => false
                      end).
    { destruct pre as [| c0 pre0]; [reflexivity |].
      rewrite (char_at_back (String c0 pre0) (String c suf)) by discriminate.
      reflexivity. }
    rewrite Hcur, Hnext, Hlen, Hprev.
    replace (pre ++ String c suf)%string with ((pre ++ str1 c) ++ suf)%string
      by (rewrite append_assoc; reflexivity).
    replace (S (String.length pre)) with (String.length (pre ++ str1 c))
      by (rewrite length_append; simpl; lia).
    rewrite IH, back_snoc.
    destruct (is_special c).
    + destruct (back pre) as [p |]; [destruct (isspace p) |];
        (destruct suf as [| next suf']; [| unfold char_at; simpl; destruct (isspace next)]);
        simpl; rewrite ?append_assoc; simpl; rewrite ?append_empty_r; reflexivity.
    + rewrite append_assoc. reflexivity.
Qed.

Lemma checkWhiteSpaces_from_start (input : string) :
  checkWhiteSpaces input = checkWhiteSpaces_from None input.
Proof.
  unfold checkWhiteSpaces.
  apply (checkWhiteSpaces_loop_from input EmptyString EmptyString).
Qed.

Lemma tokenize_checkWhiteSpaces (input : string) :
  tokenize (checkWhiteSpaces input) = lex_from EmptyString input.
Proof.
  rewrite checkWhiteSpaces_from_start.
  apply tokenize_checkWhiteSpaces_from. reflexivity.
Qed.

Lemma lex_from_app (u : string) :
  forall (word : string) (s t : string),
    (forall w, lex_from w s = lex_from w t) ->
    lex_from word (u ++ s) = lex_from word (u ++ t).
Proof.
  induction u as [| c u IH]; intros word s t H; simpl.
  - apply H.
  - destruct (isspace c); [f_equal; apply IH; exact H |].
    destruct (is_special c); [do 2 f_equal; apply IH; exact H |].
    apply IH; exact H.
Qed.

Lemma lex_from_ws_before (w op : ascii) (v word : string) :
  isspace w = true -> is_operator op = true ->
  lex_from word (String w (String op v)) = lex_from word (String op v).
Proof.
  intros Hw Hop. pose proof (operator_is_special op Hop) as Hsp.
  pose proof (special_not_space op Hsp) as Hns.
  simpl. rewrite Hw, Hns, Hsp. reflexivity.
Qed.

Lemma lex_from_ws_after (w op : ascii) (v word : string) :
  isspace w = true -> is_operator op = true ->
  lex_from word (String op (String w v)) = lex_from word (String op v).
Proof.
  intros Hw Hop. pose proof (operator_is_special op Hop) as Hsp.
  pose proof (special_not_space op Hsp) as Hns.
  simpl. rewrite Hw, Hns, Hsp. simpl.
  rewrite (lex_from_word EmptyString v). destruct v as [| c v']; [reflexivity |].
  destruct (isspace c || is_special c)%bool; reflexivity.
Qed.

Lemma adjacent_ws_lex (s t : string) :
  adjacent_ws s t -> lex_from EmptyString s = lex_from EmptyString t.
Proof.
  induction 1.
  - apply lex_from_app. intros word. symmetry. now apply lex_from_ws_before.
  - apply lex_from_app. intros word. symmetry. now apply lex_from_ws_after.
  - reflexivity.
  - symmetry; assumption.
  - etransitivity; eassumption.
Qed.

(** C9: two raw lines that differ only in white space adjacent to the
    operator characters [|], [<], [>], [&] give the same token sequence
    after [checkWhiteSpaces] and [tokenize]. *)
Theorem normalize_adjacent_ws_same_tokens (s t : string) :
  adjacent_ws s t ->
  tokenize (checkWhiteSpaces s) = tokenize (checkWhiteSpaces t).
Proof.
  intros H. rewrite !tokenize_checkWhiteSpaces. now apply adjacent_ws_lex.
Qed.

Lemma adjacent_ws_a_pipe_b : adjacent_ws "a|b" "a | b".
Proof.
  apply aw_trans with (t := "a |b").
  - apply (aw_before "a" "b" " " "|"); reflexivity.
  - apply (aw_after "a " "b" " " "|"); reflexivity.
Qed.

Lemma normalize_adjacent_ws_same_tokens_witness :
  adjacent_ws "a|b" "a | b" /\
  tokenize (checkWhiteSpaces "a|b") = tokenize (checkWhiteSpaces "a | b").
Proof.
  split.
  - exact adjacent_ws_a_pipe_b.
  - apply (normalize_adjacent_ws_same_tokens "a|b" "a | b").
    exact adjacent_ws_a_pipe_b.
Defined.
(** ** The launching loop *)

Section LaunchLoop.

Variable os : OS.

Lemma size_nonneg {A : Type} (v : list A) : 0 <= size v.
Proof. unfold size. lia. Qed.

Lemma size_cons {A : Type} (x : A) (v : list A) : size (x :: v) = size v + 1.
Proof. unfold size. simpl length. lia. Qed.

Lemma stages_ok_nil (n i : Z) (k k' : nat) (src src' : file) (cs : list child) :
  stages_ok n i k src [] cs -> stages_ok n i k' src' [] cs.
Proof. destruct cs; simpl; auto. Qed.

(** When the loop runs to its end, it has forked one child per remaining
    command, each wired as [stages_ok] says, created one pipe per command
    but the last, and waited for nobody. *)
Lemma launch_loop_spec (rest : list (list string)) :
  forall (n i in_fd : Z) (fds pids : list Z) (s : shell)
         (fds' pids' : list Z) (s' : shell) (src : file),
    launch_loop os n i rest in_fd fds pids s = Ret (fds', pids') s' ->
    i + size rest = n ->
    std_open (fdt (self s)) ->
    (i <= 0 -> i = 0 /\ in_fd = STDIN_FILENO) ->
    (0 < i -> rest <> [] ->
     in_fd <> STDIN_FILENO /\ in_fd <> STDOUT_FILENO /\
     look (self s) in_fd = Some src) ->
    exists cs tr,
      children s' = children s ++ cs /\
      trace (self s') = trace (self s) ++ tr /\
      pids' = pids ++ map c_pid cs /\
      forked tr = map c_pid cs /\
      waited tr = [] /\
      pipes s' = (pipes s + pred (length rest))%nat /\
      stages_ok n i (pipes s) src rest cs.
Proof.
  induction rest as [| command rest' IH];
    intros n i in_fd fds pids s fds' pids' s' src Hrun Hn Hstd Hfirst Hlater.
  - simpl in Hrun. injection Hrun as <- <- <-.
    exists [], []. rewrite !app_nil_r. simpl. repeat split; auto.
  - rewrite size_cons in Hn. pose proof (size_nonneg rest') as Hsz.
    cbn [launch_loop] in Hrun.
    apply bind_inv in Hrun. destruct Hrun as ([fd fds1] & s1 & Esetup & Hrun).
    apply bind_inv in Hrun. destruct Hrun as (pid & s2 & Efork & Hrun).
    destruct (setup_pipe_spec os n i fds s fd fds1 s1 Esetup)
      as (Hc1 & Hn1 & (tr1 & Ht1 & Hfk1 & Hwt1) & Hpipe).
    destruct (sys_fork_spec os (ByPiped i) (piped_child os n i command in_fd fd) s1)
      as (pid' & s2' & Efork' & Hfdt2 & Hp2 & Ht2 & Hcase).
    rewrite Efork in Efork'. injection Efork' as <- <-.
    destruct Hcase as [(-> & _) | (Hpid & _ & Hn2 & Hc2)].
    { simpl in Hrun. unfold bind, lift in Hrun. simpl in Hrun. discriminate. }
    assert (Hpidne : (pid =? -1) = false) by (apply Z.eqb_neq; lia).
    rewrite Hpidne in Hrun.
    apply bind_inv in Hrun. destruct Hrun as (in_fd2 & s3 & Eparent & Hrun).
    destruct (parent_after_fork_spec n i in_fd fd s2)
      as (s3' & Eparent' & Hc3 & Hn3 & Hp3 & _ & (tr3 & Ht3 & Hfk3 & Hwt3) & HL3).
    rewrite Eparent in Eparent'. injection Eparent' as -> <-.
    (* descriptors of the shell at the time of the fork *)
    destruct Hstd as [Hstd0 Hstd1].
    change (look (self s) STDIN_FILENO <> None) in Hstd0.
    change (look (self s) STDOUT_FILENO <> None) in Hstd1.
    assert (Hkeep1 : forall x, look (self s) x <> None ->
                               look (self s1) x = look (self s) x).
    { intros x Hx. destruct Hpipe as [(_ & _ & Hr & Hw & _ & _ & _ & Lx) | (_ & ->)];
        [| reflexivity].
      apply Lx; intros ->; contradiction. }
    assert (Hin : 0 < i -> in_fd <> STDIN_FILENO /\ in_fd <> STDOUT_FILENO /\
                           look (self s) in_fd = Some src).
    { intros Hi. apply Hlater; [exact Hi | discriminate]. }
    assert (Hinopen : in_fd = STDIN_FILENO \/ look (self s) in_fd <> None).
    { destruct (Z_lt_le_dec 0 i) as [Hi | Hi].
      - right. destruct (Hin Hi) as (_ & _ & ->). discriminate.
      - left. now apply Hfirst. }
    assert (Hin_ne : forall x, look (self s) x = None -> in_fd <> x).
    { intros x Hx ->. destruct Hinopen as [-> | H]; contradiction. }
    (* the child *)
    set (c := mkChild pid (ByPiped i)
                (fst (run_child (piped_child os n i command in_fd fd)
                        (mkProc (fdt (self s1)) [])))
                (snd (run_child (piped_child os n i command in_fd fd)
                        (mkProc (fdt (self s1)) [])))) in *.
    assert (Hchild : stage_ok n i (pipes s) src command c).
    { apply piped_child_spec.
      - split.
        + change (look (self s1) STDIN_FILENO <> None). now rewrite Hkeep1.
        + change (look (self s1) STDOUT_FILENO <> None). now rewrite Hkeep1.
      - intros Hi.
        destruct Hpipe as [(_ & _ & Hr & Hw & _ & _ & Lw & _) | (Hno & _)];
          [| contradiction].
        split; [exact Lw |].
        split; [intros E; rewrite E in Hr; contradiction |].
        split; [intros E; rewrite E in Hr; contradiction |].
        split; [intros E; rewrite E in Hw; contradiction |].
        split; [intros E; rewrite E in Hw; contradiction |].
        now apply Hin_ne.
      - exact Hfirst.
      - intros Hi. destruct (Hin Hi) as (Hne & _ & Hsrc). split; [exact Hne |].
        change (look (self s1) in_fd = Some src). rewrite Hkeep1; [exact Hsrc |].
        rewrite Hsrc. discriminate. }
    (* the shell after its own closes *)
    assert (Hkeep3 : forall x, look (self s) x <> None ->
                               (in_fd = STDIN_FILENO \/ x <> in_fd) ->
                               look (self s3) x = look (self s) x).
    { intros x Hx Hxin. rewrite HL3; auto.
      - unfold look. rewrite Hfdt2. now apply Hkeep1.
      - intros Hi. destruct Hpipe as [(_ & _ & _ & Hw & _) | (Hno & _)];
          [| contradiction].
        intros ->. contradiction. }
    assert (Hin01 : in_fd = STDIN_FILENO \/ (STDIN_FILENO <> in_fd /\ STDOUT_FILENO <> in_fd)).
    { destruct (Z_lt_le_dec 0 i) as [Hi | Hi].
      - right. destruct (Hin Hi) as (H0 & H1 & _). split; congruence.
      - left. now apply Hfirst. }
    specialize (IH n (i + 1) (if i <? n - 1 then fst fd else in_fd) fds1
                  (pids ++ [pid]) s3 fds' pids' s' (PipeRead (pipes s)) Hrun
                  ltac:(lia)).
    destruct IH as (cs & tr & Hcs & Htr & Hpids & Hfk & Hwt & Hpipes & Hstages).
    + split.
      * change (look (self s3) STDIN_FILENO <> None). rewrite Hkeep3; auto.
        destruct Hin01 as [H | [H _]]; auto.
      * change (look (self s3) STDOUT_FILENO <> None). rewrite Hkeep3; auto.
        destruct Hin01 as [H | [_ H]]; auto.
    + intros Hi. lia.
    + intros _ Hrest'.
      assert (Hmid : i < n - 1).
      { destruct rest'; [contradiction |]. rewrite size_cons in Hn.
        pose proof (size_nonneg rest'). lia. }
      assert (Emid : (i <? n - 1) = true) by now apply Z.ltb_lt.
      rewrite Emid.
      destruct Hpipe as [(_ & _ & Hr & Hw & Hrw & Lr & _ & _) | (Hno & _)];
        [| contradiction].
      split; [intros E; rewrite E in Hr; contradiction |].
      split; [intros E; rewrite E in Hr; contradiction |].
      rewrite HL3.
      * unfold look. rewrite Hfdt2. exact Lr.
      * destruct Hinopen as [H | H]; [now left | right].
        intros E. rewrite E in Hr. contradiction.
      * intros _. exact Hrw.
    + exists (c :: cs), (tr1 ++ [SysFork pid] ++ tr3 ++ tr).
      split; [rewrite Hcs, Hc3, Hc2, Hc1, <- app_assoc; reflexivity |].
      split.
      { rewrite Htr, Ht3, Ht2, Ht1. rewrite <- !app_assoc. reflexivity. }
      split; [rewrite Hpids, <- app_assoc; reflexivity |].
      split.
      { rewrite !forked_app, Hfk1, Hfk3, Hfk. simpl. rewrite Hpidne. reflexivity. }
      split.
      { rewrite !waited_app, Hwt1, Hwt3, Hwt. reflexivity. }
      split.
      { rewrite Hpipes, Hp3, Hp2.
        destruct Hpipe as [(Hmid & -> & _) | (Hno & ->)].
        - destruct rest'; [unfold size in Hn; simpl in Hn; lia | simpl; lia].
        - destruct rest' as [| c' rest'']; [simpl; lia |].
          rewrite size_cons in Hn. pose proof (size_nonneg rest''). lia. }
      simpl. split; [exact Hchild |].
      destruct rest' as [| c' rest''].
      * eapply stages_ok_nil. exact Hstages.
      * assert (Hmid : i < n - 1).
        { rewrite size_cons in Hn. pose proof (size_nonneg rest''). lia. }
        destruct Hpipe as [(_ & Hp1 & _) | (Hno & _)]; [| contradiction].
        rewrite Hp3, Hp2, Hp1 in Hstages. exact Hstages.
Qed.

End LaunchLoop.

(** ** [executePipedCommand] as a whole *)

Section Pipeline.

Variable os : OS.

Lemma close_all_spec (fds : list Z) :
  forall s, exists s1,
    close_all fds s = Ret tt s1 /\
    children s1 = children s /\ next_pid s1 = next_pid s /\ pipes s1 = pipes s /\
    exists tr, trace (self s1) = trace (self s) ++ tr /\
               forked tr = [] /\ waited tr = [].
Proof.
  induction fds as [| fd fds IH]; intros s.
  - exists s. simpl. repeat split; auto. exists []. rewrite app_nil_r. auto.
  - destruct (lift_close_spec fd s) as (r & sa & Ea & Hc & Hn & Hp & Ht & _).
    destruct (IH sa) as (s1 & E1 & Hc1 & Hn1 & Hp1 & tr & Ht1 & Hfk & Hwt).
    exists s1. cbn [close_all]. rewrite (bind_Ret _ _ _ _ _ Ea).
    split; [exact E1 |]. split; [congruence |]. split; [congruence |].
    split; [congruence |]. exists (SysClose fd :: tr).
    rewrite Ht1, Ht, <- app_assoc. auto.
Qed.

Lemma wait_all_spec (pids : list Z) :
  forall s, exists s1,
    wait_all os pids s = Ret tt s1 /\
    children s1 = children s /\ next_pid s1 = next_pid s /\ pipes s1 = pipes s /\
    fdt (self s1) = fdt (self s) /\
    exists tr, trace (self s1) = trace (self s) ++ tr /\
               forked tr = [] /\ waited tr = pids.
Proof.
  induction pids as [| pid pids IH]; intros s.
  - exists s. simpl. repeat split; auto. exists []. rewrite app_nil_r. auto.
  - cbn [wait_all]. unfold bind at 1. unfold sys_waitpid, lift, bind, emit, ret.
    cbn [self with_self trace fdt].
    match goal with
    | |- context [wait_all os pids ?sa] =>
        destruct (IH sa) as (s1 & E1 & Hc1 & Hn1 & Hp1 & Hf1 & tr & Ht1 & Hfk & Hwt)
    end.
    exists s1. split; [exact E1 |]. simpl in *.
    repeat (split; [assumption |]).
    exists (SysWaitpid pid :: tr). rewrite Ht1, <- app_assoc. simpl.
    rewrite Hfk, Hwt. auto.
Qed.

Lemma launch_loop_returns (rest : list (list string)) :
  (forall m, fork_ok os m = true) -> (forall m, pipe_ok os m = true) ->
  forall (n i in_fd : Z) (fds pids : list Z) (s : shell),
  exists r s', launch_loop os n i rest in_fd fds pids s = Ret r s'.
Proof.
  intros Hfork Hpipe.
  induction rest as [| command rest' IH]; intros n i in_fd fds pids s.
  - do 2 eexists. reflexivity.
  - cbn [launch_loop].
    destruct (setup_pipe_returns os n i fds s Hpipe) as ([fd fds1] & s1 & E1 & _).
    rewrite (bind_Ret _ _ _ _ _ E1).
    destruct (sys_fork_spec os (ByPiped i) (piped_child os n i command in_fd fd) s1)
      as (pid & s2 & E2 & _ & _ & _ & Hcase).
    rewrite (bind_Ret _ _ _ _ _ E2).
    destruct Hcase as [(_ & Hno & _) | (Hpid & _)].
    { rewrite Hfork in Hno. discriminate. }
    assert (Hpidne : (pid =? -1) = false) by (apply Z.eqb_neq; lia).
    rewrite Hpidne.
    destruct (parent_after_fork_spec n i in_fd fd s2) as (s3 & E3 & _).
    rewrite (bind_Ret _ _ _ _ _ E3). apply IH.
Qed.

Lemma split_loop_nonempty (tokens : list string) :
  forall seg, split_loop seg tokens <> [].
Proof.
  induction tokens as [| t rest IH]; intros seg; simpl; [discriminate |].
  destruct (String.eqb t "|"); [discriminate | apply IH].
Qed.

Lemma split_commands_nonempty (tokens : list string) :
  tokens <> [] -> split_commands tokens <> [].
Proof.
  destruct tokens; [contradiction |]. intros _. apply split_loop_nonempty.
Qed.

Lemma stages_ok_length (commands : list (list string)) :
  forall n i k src cs, stages_ok n i k src commands cs -> length cs = length commands.
Proof.
  induction commands as [| c commands IH]; intros n i k src [| c' cs] H; simpl in *;
    try contradiction; auto.
  destruct H as [_ H]. f_equal. eapply IH; eassumption.
Qed.

Lemma stages_ok_nth (commands : list (list string)) :
  forall n i k src cs j command,
    stages_ok n i k src commands cs ->
    nth_error commands j = Some command ->
    exists c, nth_error cs j = Some c /\
              stage_ok n (i + Z.of_nat j) (k + j)
                (match j with O => src | S j' => PipeRead (k + j') end) command c.
Proof.
  induction commands as [| c0 commands IH]; intros n i k src cs j command H Hj.
  - destruct j; discriminate.
  - destruct cs as [| c cs]; [contradiction |]. destruct H as [Hc H].
    destruct j as [| j].
    + injection Hj as <-. exists c. split; [reflexivity |].
      rewrite Z.add_0_r, Nat.add_0_r. exact Hc.
    + simpl in Hj. destruct (IH _ _ _ _ _ _ _ H Hj) as (c' & Hnth & Hok).
      exists c'. split; [exact Hnth |].
      replace (i + Z.of_nat (S j)) with (i + 1 + Z.of_nat j) by lia.
      replace (k + S j)%nat with (S k + j)%nat by lia.
      destruct j as [| j'].
      * replace (k + 0)%nat with k by lia. exact Hok.
      * replace (k + S j')%nat with (S k + j')%nat by lia. exact Hok.
Qed.

Lemma spawned_app (s s' : shell) (cs : list child) :
  children s' = children s ++ cs -> spawned s s' = cs.
Proof.
  intros H. unfold spawned. rewrite H. rewrite skipn_app, skipn_all, Nat.sub_diag.
  reflexivity.
Qed.

Lemma called_app (s s' : shell) (tr : list syscall) :
  trace (self s') = trace (self s) ++ tr -> called s s' = tr.
Proof.
  intros H. unfold called. rewrite H. rewrite skipn_app, skipn_all, Nat.sub_diag.
  reflexivity.
Qed.

(** Everything the later statements need about a pipeline that was
    launched completely. *)
Lemma executePipedCommand_spec (tokens : list string) (s s' : shell) :
  executePipedCommand os tokens s = Ret tt s' ->
  std_open (fdt (self s)) ->
  let commands := split_commands tokens in
  pipes s' = (pipes s + pred (length commands))%nat /\
  stages_ok (size commands) 0 (pipes s) Terminal commands (spawned s s') /\
  forked (called s s') = map c_pid (spawned s s') /\
  waited (called s s') = map c_pid (spawned s s').
Proof.
  intros Hrun Hstd commands. unfold executePipedCommand in Hrun. fold commands in Hrun.
  apply bind_inv in Hrun. destruct Hrun as ([fds pids] & s1 & Eloop & Hrun).
  apply bind_inv in Hrun. destruct Hrun as ([] & s2 & Eclose & Ewait).
  destruct (launch_loop_spec os commands (size commands) 0 STDIN_FILENO [] [] s
              fds pids s1 Terminal Eloop ltac:(lia) Hstd ltac:(auto) ltac:(lia))
    as (cs & tr & Hcs & Htr & Hpids & Hfk & Hwt & Hpipes & Hstages).
  destruct (close_all_spec fds s1)
    as (s2' & Eclose' & Hc2 & _ & Hp2 & tr2 & Ht2 & Hfk2 & Hwt2).
  rewrite Eclose in Eclose'. injection Eclose' as <-.
  destruct (wait_all_spec pids s2)
    as (s3 & Ewait' & Hc3 & _ & Hp3 & _ & tr3 & Ht3 & Hfk3 & Hwt3).
  rewrite Ewait in Ewait'. injection Ewait' as <-.
  assert (Hsp : spawned s s' = cs)
    by (apply spawned_app; rewrite Hc3, Hc2, Hcs; reflexivity).
  assert (Hcl : called s s' = tr ++ tr2 ++ tr3)
    by (apply called_app; rewrite Ht3, Ht2, Htr, <- !app_assoc; reflexivity).
  rewrite Hsp, Hcl, !forked_app, !waited_app.
  rewrite Hfk, Hfk2, Hfk3, Hwt, Hwt2, Hwt3, !app_nil_r. simpl in Hpids.
  repeat split; auto. congruence.
Qed.

Lemma executePipedCommand_returns (tokens : list string) (s : shell) :
  (forall m, fork_ok os m = true) -> (forall m, pipe_ok os m = true) ->
  exists s', executePipedCommand os tokens s = Ret tt s'.
Proof.
  intros Hfork Hpipe. unfold executePipedCommand.
  destruct (launch_loop_returns (split_commands tokens) Hfork Hpipe
              (size (split_commands tokens)) 0 STDIN_FILENO [] [] s)
    as ([fds pids] & s1 & E1).
  rewrite (bind_Ret _ _ _ _ _ E1).
  destruct (close_all_spec fds s1) as (s2 & E2 & _).
  rewrite (bind_Ret _ _ _ _ _ E2).
  destruct (wait_all_spec pids s2) as (s3 & E3 & _).
  exists s3. exact E3.
Qed.

End Pipeline.

(** ** [executeCommand] *)

Section Single.

Variable os : OS.

Lemma open_and_bind_spec (path : string) (writing : bool) (target : Z)
    (report : syscall) (p : proc) :
  0 <= target ->
  (open_ok os path writing = false /\
   exists p', open_and_bind os path writing target report p
              = Halt (Exited EXIT_FAILURE) p' /\
              fdt p' = fdt p /\
              trace p' = trace p ++ [SysOpen path writing (-1); report])
  \/ (open_ok os path writing = true /\
      exists fd p', open_and_bind os path writing target report p = Ret tt p' /\
                    0 <= fd /\ look p fd = None /\
                    trace p' = trace p ++ [SysOpen path writing fd;
                                           SysDup2 fd target; SysClose fd] /\
                    (forall x, x <> target -> look p' x = look p x) /\
                    (fd <> target ->
                     look p' target
                     = Some (if writing then FileWrite path else FileRead path))).
Proof.
  intros Ht. unfold open_and_bind.
  destruct (sys_open_look os path writing p) as (fd & p1 & E1 & T1 & L1).
  rewrite (bind_Ret _ _ _ _ _ E1).
  destruct L1 as [(-> & Hno & Hfdt & L1) | (Hfd & Hfree & Hok & L1)].
  - left. split; [exact Hno |].
    simpl. eexists. split; [reflexivity |]. simpl. split; [exact Hfdt |].
    rewrite T1, <- app_assoc. reflexivity.
  - right. split; [exact Hok |].
    assert (Hfd' : (fd =? -1) = false) by (apply Z.eqb_neq; lia).
    rewrite Hfd'.
    destruct (sys_dup2_look fd target p1 Ht) as (r2 & p2 & E2 & T2 & L2).
    rewrite (bind_Ret _ _ _ _ _ E2).
    destruct (sys_close_look fd p2) as (r3 & p3 & E3 & T3 & L3).
    rewrite (bind_Ret _ _ _ _ _ E3).
    exists fd, p3. split; [reflexivity |]. split; [exact Hfd |].
    split; [exact Hfree |]. split.
    + rewrite T3, T2, T1, <- !app_assoc. reflexivity.
    + eapply bind_fresh_look; eassumption.
Qed.


(** With [fork] succeeding, [executeCommand] returns after forking exactly
    one child, which runs [executeCommand_child] on a copy of the shell's
    descriptors. *)
Lemma executeCommand_spawns (tokens : list string) (s : shell) :
  fork_ok os (forks s) = true ->
  exists s',
    executeCommand os tokens s = Ret tt s' /\
    spawned s s'
    = [mkChild (Z.pos (next_pid s)) BySingle
         (fst (run_child
                 (executeCommand_child os tokens (findTokenIndex tokens "<")
                    (findTokenIndex tokens ">")
                    (map c_str
                       (collect_args (findTokenIndex tokens "<")
                          (findTokenIndex tokens ">") 0 tokens)))
                 (mkProc (fdt (self s)) [])))
         (snd (run_child
                 (executeCommand_child os tokens (findTokenIndex tokens "<")
                    (findTokenIndex tokens ">")
                    (map c_str
                       (collect_args (findTokenIndex tokens "<")
                          (findTokenIndex tokens ">") 0 tokens)))
                 (mkProc (fdt (self s)) [])))].
Proof.
  intros Hfork. unfold executeCommand.
  set (rIn := findTokenIndex tokens "<"). set (rOut := findTokenIndex tokens ">").
  set (code := executeCommand_child os tokens rIn rOut
                 (map c_str (collect_args rIn rOut 0 tokens))).
  destruct (sys_fork_spec os BySingle code s) as (pid & s1 & E1 & _ & _ & _ & Hcase).
  rewrite (bind_Ret _ _ _ _ _ E1).
  destruct Hcase as [(_ & Hno & _) | (Hpid & _ & _ & Hc1)]; [congruence |].
  assert (Hpidne : (pid =? -1) = false) by (apply Z.eqb_neq; lia).
  rewrite Hpidne. rewrite <- Hpid.
  unfold bind, when, lift, sys_waitpid, bind, emit, ret, sys_dup, sys_dup2, sys_close.
  repeat match goal with
         | |- context [if ?b then _ else _] => destruct b; simpl
         | |- context [match fd_lookup ?t ?fd with _ => _ end] =>
             destruct (fd_lookup t fd); simpl
         end;
    eexists; (split; [reflexivity |]); apply spawned_app; simpl; exact Hc1.
Qed.

End Single.

Section SingleChild.

Variable os : OS.





End SingleChild.

(** ** Token vectors: counting, searching, collecting *)


Lemma count_nonneg (l : list string) (t : string) : 0 <= count l t.
Proof. unfold count. lia. Qed.


Lemma findTokenIndex_from_absent (l : list string) (t : string) :
  forall i, ~ In t l -> findTokenIndex_from i l t = -1.
Proof.
  induction l as [| x l IH]; intros i Hno; simpl; [reflexivity |].
  destruct (String.eqb x t) eqn:E.
  - apply String.eqb_eq in E. subst x. elim Hno. now left.
  - apply IH. intros H. apply Hno. now right.
Qed.



Lemma collect_args_app (rIn rOut : Z) (a b : list string) :
  forall i, collect_args rIn rOut i (a ++ b)
            = collect_args rIn rOut i a ++ collect_args rIn rOut (i + size a) b.
Proof.
  induction a as [| t a IH]; intros i; simpl.
  - unfold size. simpl. now rewrite Z.add_0_r.
  - rewrite IH, size_cons. replace (i + 1 + size a) with (i + (size a + 1)) by lia.
    destruct (keep_arg rIn rOut i); reflexivity.
Qed.

Lemma collect_args_all (rIn rOut : Z) (a : list string) :
  forall i, (forall j, i <= j < i + size a -> keep_arg rIn rOut j = true) ->
            collect_args rIn rOut i a = a.
Proof.
  induction a as [| t a IH]; intros i H; simpl; [reflexivity |].
  rewrite size_cons in H. pose proof (size_nonneg a).
  rewrite (H i) by lia. f_equal. apply IH. intros j Hj. apply H. lia.
Qed.


(** ** The parent's side of [executeCommand] *)

Section SingleParent.

Variable os : OS.

(** "Save stdout if it's being redirected" (and the same for stdin). *)
Lemma save_spec (guard : bool) (target : Z) (s : shell) :
  exists saved s1,
    (if guard then lift (sys_dup target) else ret (-1)) s = Ret saved s1 /\
    (exists tr, trace (self s1) = trace (self s) ++ tr /\ opens tr = false) /\
    ((saved = -1 /\ forall x, look (self s1) x = look (self s) x)
     \/ (0 <= saved /\ look (self s) saved = None /\
         forall x, look (self s1) x
                   = if x =? saved then look (self s) target else look (self s) x)).
Proof.
  destruct guard.
  - unfold lift. destruct (sys_dup_look target (self s)) as (fd & p & E & T & L).
    rewrite E. do 2 eexists. split; [reflexivity |]. simpl. split.
    + eexists. split; [exact T | reflexivity].
    + destruct L as [(-> & _ & L) | (Hfd & Hfree & L)]; [left | right]; auto.
  - exists (-1), s. split; [reflexivity |]. split.
    + exists []. rewrite app_nil_r. auto.
    + left. auto.
Qed.

(** "Restore original stdout and stdin if they were redirected". *)
Lemma restore_spec (saved target : Z) (s : shell) :
  0 <= target ->
  exists s1,
    when (negb (saved =? -1))
      (lift (sys_dup2 saved target ;; sys_close saved ;; ret tt)) s = Ret tt s1 /\
    (exists tr, trace (self s1) = trace (self s) ++ tr /\ opens tr = false) /\
    ((saved = -1 /\ forall x, look (self s1) x = look (self s) x)
     \/ (saved <> -1 /\
         forall x, look (self s1) x
                   = if x =? saved then None
                     else match look (self s) saved with
                          | Some f => if x =? target then Some f else look (self s) x
                          | None => look (self s) x
                          end)).
Proof.
  intros Ht. destruct (saved =? -1) eqn:Es; simpl.
  - apply Z.eqb_eq in Es. exists s. split; [reflexivity |]. split.
    + exists []. rewrite app_nil_r. auto.
    + left. auto.
  - apply Z.eqb_neq in Es. unfold lift, bind.
    destruct (sys_dup2_look saved target (self s) Ht) as (r2 & p2 & E2 & T2 & L2).
    rewrite E2.
    destruct (sys_close_look saved p2) as (r3 & p3 & E3 & T3 & L3).
    rewrite E3. simpl. eexists. split; [reflexivity |]. simpl. split.
    + eexists. rewrite T3, T2, <- app_assoc. split; reflexivity.
    + right. split; [exact Es |]. intros x. rewrite L3, L2. reflexivity.
Qed.

Lemma sys_waitpid_spec (pid : Z) (s : shell) :
  exists s1,
    sys_waitpid os pid s = Ret (wait_status os pid) s1 /\
    children s1 = children s /\ next_pid s1 = next_pid s /\
    fdt (self s1) = fdt (self s) /\
    trace (self s1) = trace (self s) ++ [SysWaitpid pid].
Proof.
  eexists. split; [reflexivity |]. repeat split; reflexivity.
Qed.

Lemma executeCommand_parent (tokens : list string) (s : shell) :
  std_open (fdt (self s)) ->
  same_bindings (fdt (self s)) (fdt (self (final (executeCommand os tokens s)))) /\
  opens (called s (final (executeCommand os tokens s))) = false.
Proof.
  intros [H0 H1].
  change (look (self s) STDIN_FILENO <> None) in H0.
  change (look (self s) STDOUT_FILENO <> None) in H1.
  unfold executeCommand.
  set (rIn := findTokenIndex tokens "<"). set (rOut := findTokenIndex tokens ">").
  set (code := executeCommand_child os tokens rIn rOut
                 (map c_str (collect_args rIn rOut 0 tokens))).
  destruct (sys_fork_spec os BySingle code s) as (pid & s1 & E1 & F1 & _ & T1 & _).
  rewrite (bind_Ret _ _ _ _ _ E1).
  assert (L1 : forall x, look (self s1) x = look (self s) x)
    by (intros x; unfold look; now rewrite F1).
  destruct (pid =? -1).
  { (* fork failed: the shell reports and leaves *)
    unfold bind, lift, cerr, emit, sys_exit. simpl. split.
    - intros x. apply L1.
    - erewrite called_app; [| simpl; rewrite T1, <- app_assoc; reflexivity].
      reflexivity. }
  destruct (save_spec (negb (rOut =? -1)) STDOUT_FILENO s1)
    as (a & s2 & E2 & (tr2 & T2 & O2) & L2).
  rewrite (bind_Ret _ _ _ _ _ E2).
  destruct (save_spec (negb (rIn =? -1)) STDIN_FILENO s2)
    as (b & s3 & E3 & (tr3 & T3 & O3) & L3).
  rewrite (bind_Ret _ _ _ _ _ E3).
  destruct (sys_waitpid_spec pid s3) as (s4 & E4 & _ & _ & F4 & T4).
  rewrite (bind_Ret _ _ _ _ _ E4).
  assert (L4 : forall x, look (self s4) x = look (self s3) x)
    by (intros x; unfold look; now rewrite F4).
  destruct (restore_spec a STDOUT_FILENO s4 ltac:(unfold STDOUT_FILENO; lia))
    as (s5 & E5 & (tr5 & T5 & O5) & L5).
  rewrite (bind_Ret _ _ _ _ _ E5).
  destruct (restore_spec b STDIN_FILENO s5 ltac:(unfold STDIN_FILENO; lia))
    as (s6 & E6 & (tr6 & T6 & O6) & L6).
  rewrite E6. cbn [final]. split.
  - (* every descriptor is bound as before *)
    intros x. change (look (self s6) x = look (self s) x).
    unfold STDIN_FILENO, STDOUT_FILENO in *.
    destruct L2 as [(-> & L2) | (Ha & Hafree & L2)];
      destruct L3 as [(-> & L3) | (Hb & Hbfree & L3)];
      destruct L5 as [(Ea & L5) | (Ea & L5)]; try lia;
      destruct L6 as [(Eb & L6) | (Eb & L6)]; try lia;
      rewrite L6, ?L5, ?L4, ?L3, ?L2, ?L1 in *;
      try rewrite L5 in *; try rewrite L4 in *; try rewrite L3 in *;
      try rewrite L2 in *; try rewrite L1 in *;
      repeat match goal with
             | H : context [?u =? ?v] |- _ => destruct (Z.eqb_spec u v); subst
             | |- context [?u =? ?v] => destruct (Z.eqb_spec u v); subst
             | |- context [match look (self s) ?v with _ => _ end] =>
                 destruct (look (self s) v) eqn:?
             end;
      try congruence; try lia; try contradiction.
  - erewrite called_app;
      [| rewrite T6, T5, T4, T3, T2, T1, <- !app_assoc; reflexivity].
    rewrite !opens_app, O2, O3, O5, O6. reflexivity.
Qed.

End SingleParent.

(** ** Which children the shell waits for *)

Section Accounting.

Variable os : OS.

Lemma inv_view (pids : list Z) (s s1 : shell) :
  view s1 = view s -> inv pids s -> inv pids s1.
Proof.
  unfold view, inv, accounted, foreground_pid. intros H. injection H as Hc Hn Hw.
  rewrite Hc, Hn, Hw. auto.
Qed.

Lemma quiet_ret {A : Type} (a : A) : quiet (ret a : M proc A).
Proof. intros p. reflexivity. Qed.

Lemma quiet_bind {A B : Type} (c : M proc A) (k : A -> M proc B) :
  quiet c -> (forall a, quiet (k a)) -> quiet (bind c k).
Proof.
  intros Hc Hk p. unfold bind. specialize (Hc p).
  destruct (c p) as [a p1 | h p1]; simpl in *; [| exact Hc].
  rewrite Hk. exact Hc.
Qed.

Lemma quiet_emit (e : syscall) :
  (forall pid, e <> SysWaitpid pid) -> quiet (emit e).
Proof.
  intros He p. simpl. rewrite waited_app. destruct e; simpl;
    try apply app_nil_r. now elim (He pid).
Qed.

Lemma quiet_close (fd : Z) : quiet (sys_close fd).
Proof.
  intros p. unfold sys_close. destruct (fd_lookup (fdt p) fd); simpl;
    rewrite waited_app; apply app_nil_r.
Qed.

Lemma quiet_dup (fd : Z) : quiet (sys_dup fd).
Proof.
  intros p. unfold sys_dup. destruct (fd_lookup (fdt p) fd); simpl;
    rewrite waited_app; apply app_nil_r.
Qed.

Lemma quiet_dup2 (oldfd newfd : Z) : quiet (sys_dup2 oldfd newfd).
Proof.
  intros p. unfold sys_dup2. destruct (fd_lookup (fdt p) oldfd); simpl;
    [destruct (newfd <? 0); simpl |]; rewrite waited_app; apply app_nil_r.
Qed.

Lemma quiet_when (b : bool) (c : M proc unit) : quiet c -> quiet (when b c).
Proof. intros H. destruct b; [exact H | apply quiet_ret]. Qed.

Create HintDb quiet.

#[local] Hint Resolve quiet_ret quiet_close quiet_dup quiet_dup2 quiet_when : quiet.

Ltac quiet :=
  repeat first
    [ apply quiet_bind; [| intros ? ]
    | apply quiet_emit; intros; discriminate
    | unfold cerr, perror; apply quiet_emit; intros; discriminate
    | solve [auto with quiet] ].

Lemma hoare_lift {A : Type} (pids : list Z) (c : M proc A) :
  quiet c -> hoare (inv pids) (lift c) (fun _ => inv pids) accounted.
Proof.
  intros Hq s Hinv. unfold lift. specialize (Hq (self s)).
  destruct (c (self s)) as [a p | h p]; simpl in Hq.
  - eapply inv_view; [| exact Hinv]. unfold view. simpl. now rewrite Hq.
  - eapply (inv_view pids); [| exact Hinv]. unfold view. simpl. now rewrite Hq.
Qed.

Lemma hoare_pipe (pids : list Z) (fd : Z * Z) :
  hoare (inv pids) (sys_pipe os fd) (fun _ => inv pids) accounted.
Proof.
  intros s Hinv. unfold sys_pipe. destruct (pipe_ok os (pipe_calls s));
    (eapply inv_view; [| exact Hinv]); unfold view; simpl;
    rewrite waited_app; simpl; now rewrite app_nil_r.
Qed.

Lemma hoare_fork (pids : list Z) (by_ : launcher) (code : M proc Empty_set) :
  hoare (inv pids) (sys_fork os by_ code)
    (fun pid s => inv pids s /\
                  (launched_in_background by_ = false ->
                   pid = -1 \/ foreground_pid s pid))
    accounted.
Proof.
  intros s Hinv.
  destruct (sys_fork_spec os by_ code s) as (pid & s1 & E & _ & _ & T & Hcase).
  rewrite E.
  destruct Hcase as [(-> & _ & Hc & Hn) | (Hpid & _ & Hn & Hc)].
  - split; [| now left].
    eapply inv_view; [| exact Hinv]. unfold view.
    rewrite Hc, Hn, T, waited_app. simpl. now rewrite app_nil_r.
  - assert (Hw : waited (trace (self s1)) = waited (trace (self s))).
    { rewrite T, waited_app. simpl. destruct (pid =? -1); simpl; apply app_nil_r. }
    destruct Hinv as [[Hkids Hwaited] Hpids].
    assert (Hold : forall q, foreground_pid s q -> foreground_pid s1 q).
    { intros q [Hlt Hfg]. split; [rewrite Hn; lia |].
      intros c Hin Hq. rewrite Hc in Hin. apply in_app_or in Hin.
      destruct Hin as [Hin | [<- | []]]; [now apply Hfg |].
      simpl in Hq. lia. }
    split; [split; [split |] |].
    + intros c Hin. rewrite Hc in Hin. rewrite Hn. apply in_app_or in Hin.
      destruct Hin as [Hin | [<- | []]].
      * specialize (Hkids c Hin). lia.
      * simpl. lia.
    + intros q Hq. rewrite Hw in Hq. auto.
    + intros q Hq. auto.
    + intros Hfg. right. split; [rewrite Hn; lia |].
      intros c Hin Hq. rewrite Hc in Hin. apply in_app_or in Hin.
      destruct Hin as [Hin | [<- | []]].
      * specialize (Hkids c Hin). lia.
      * unfold is_background. simpl. destruct by_; auto; discriminate.
Qed.

Lemma hoare_waitpid (pids : list Z) (pid : Z) :
  hoare (inv (pid :: pids)) (sys_waitpid os pid) (fun _ => inv pids) accounted.
Proof.
  intros s [[Hkids Hwaited] Hpids].
  destruct (sys_waitpid_spec os pid s) as (s1 & E & Hc & Hn & _ & T).
  rewrite E.
  assert (Hfp : forall q, foreground_pid s q -> foreground_pid s1 q).
  { unfold foreground_pid. rewrite Hc, Hn. auto. }
  split; [split |].
  - rewrite Hc, Hn. exact Hkids.
  - intros q Hq. rewrite T, waited_app in Hq. apply in_app_or in Hq.
    destruct Hq as [Hq | [<- | []]]; apply Hfp; auto. apply Hpids. now left.
  - intros q Hq. apply Hfp, Hpids. now right.
Qed.

Lemma hoare_inv_ret {A : Type} (pids : list Z) (a : A) :
  hoare (inv pids) (ret a : M shell A) (fun _ => inv pids) accounted.
Proof. apply hoare_ret. auto. Qed.

Lemma hoare_inv_exit {A : Type} (pids : list Z) (code : Z) (Q : A -> shell -> Prop) :
  hoare (inv pids) (sys_exit code : M shell A) Q accounted.
Proof. apply hoare_exit. intros s [H _]. exact H. Qed.

Lemma hoare_inv_when (pids : list Z) (b : bool) (c : M shell unit) :
  hoare (inv pids) c (fun _ => inv pids) accounted ->
  hoare (inv pids) (when b c) (fun _ => inv pids) accounted.
Proof. intros H. destruct b; [exact H | apply hoare_inv_ret]. Qed.

(** *** The executors keep the account *)

Lemma executeCommand_inv (tokens : list string) :
  hoare (inv []) (executeCommand os tokens) (fun _ => inv []) accounted.
Proof.
  unfold executeCommand.
  eapply hoare_bind; [apply hoare_fork |]. intros pid.
  destruct (pid =? -1) eqn:Epid.
  - eapply hoare_weaken with (P' := inv []) (Q' := fun _ => inv []);
      [| intros s [H _]; exact H | auto].
    eapply hoare_bind; [apply hoare_lift; quiet |]. intros ?.
    apply hoare_inv_exit.
  - apply Z.eqb_neq in Epid.
    eapply hoare_weaken with (P' := inv [pid]) (Q' := fun _ => inv []); [| | auto].
    2:{ intros s [[Ha _] Hfg]. split; [exact Ha |].
        intros q [<- | []]. destruct (Hfg eq_refl); [contradiction | assumption]. }
    eapply hoare_bind with (Q := fun _ => inv [pid]).
    { destruct (negb (findTokenIndex tokens ">" =? -1));
        [apply hoare_lift; quiet | apply hoare_inv_ret]. }
    intros saved_stdout.
    eapply hoare_bind with (Q := fun _ => inv [pid]).
    { destruct (negb (findTokenIndex tokens "<" =? -1));
        [apply hoare_lift; quiet | apply hoare_inv_ret]. }
    intros saved_stdin.
    eapply hoare_bind; [apply hoare_waitpid |]. intros status.
    eapply hoare_bind with (Q := fun _ => inv []).
    { apply hoare_inv_when. apply hoare_lift. quiet. }
    intros ?. apply hoare_inv_when. apply hoare_lift. quiet.
Qed.

Lemma executeCommandInBackground_inv (tokens : list string) :
  hoare (inv []) (executeCommandInBackground os tokens) (fun _ => inv []) accounted.
Proof.
  unfold executeCommandInBackground.
  eapply hoare_bind; [apply hoare_fork |]. intros pid.
  apply hoare_ret. intros s [H _]. exact H.
Qed.

Lemma setup_pipe_inv (pids : list Z) (n i : Z) (fds : list Z) :
  hoare (inv pids) (setup_pipe os n i fds) (fun _ => inv pids) accounted.
Proof.
  unfold setup_pipe. destruct (i <? n - 1); [| apply hoare_inv_ret].
  eapply hoare_bind; [apply hoare_pipe |]. intros [r fd].
  destruct (r =? -1); [| apply hoare_inv_ret].
  eapply hoare_bind; [apply hoare_pipe |]. intros [r' fd'].
  destruct (r' =? -1); [| apply hoare_inv_ret].
  eapply hoare_bind; [apply hoare_lift; quiet |]. intros ?.
  apply hoare_inv_exit.
Qed.

Lemma parent_after_fork_inv (pids : list Z) (n i in_fd : Z) (fd : Z * Z) :
  hoare (inv pids) (parent_after_fork n i in_fd fd) (fun _ => inv pids) accounted.
Proof.
  unfold parent_after_fork.
  eapply hoare_bind with (Q := fun _ => inv pids).
  { apply hoare_inv_when. apply hoare_lift. quiet. }
  intros ?. destruct (i <? n - 1); [| apply hoare_inv_ret].
  eapply hoare_bind; [apply hoare_lift; quiet |]. intros ?. apply hoare_inv_ret.
Qed.

Lemma launch_loop_inv (rest : list (list string)) :
  forall (n i in_fd : Z) (fds pids : list Z),
    hoare (inv pids) (launch_loop os n i rest in_fd fds pids)
      (fun r => inv (snd r)) accounted.
Proof.
  induction rest as [| command rest' IH]; intros n i in_fd fds pids.
  - apply hoare_ret. auto.
  - cbn [launch_loop].
    eapply hoare_bind; [apply setup_pipe_inv |]. intros [fd fds1].
    eapply hoare_bind; [apply hoare_fork |]. intros pid.
    destruct (pid =? -1) eqn:Epid.
    + eapply hoare_weaken with (P' := inv pids) (Q' := fun r => inv (snd r));
        [| intros s [H _]; exact H | auto].
      eapply hoare_bind; [apply hoare_lift; quiet |]. intros ?.
      apply hoare_inv_exit.
    + apply Z.eqb_neq in Epid.
      eapply hoare_weaken with (P' := inv (pids ++ [pid])) (Q' := fun r => inv (snd r));
        [| | auto].
      2:{ intros s [[Ha Hp] Hfg]. split; [exact Ha |].
          intros q Hq. apply in_app_or in Hq. destruct Hq as [Hq | [<- | []]]; auto.
          destruct (Hfg eq_refl); [contradiction | assumption]. }
      eapply hoare_bind; [apply parent_after_fork_inv |]. intros in_fd'.
      apply IH.
Qed.

Lemma close_all_inv (pids fds : list Z) :
  hoare (inv pids) (close_all fds) (fun _ => inv pids) accounted.
Proof.
  induction fds as [| fd fds IH]; [apply hoare_inv_ret |].
  cbn [close_all]. eapply hoare_bind; [apply hoare_lift; quiet |]. intros ?.
  exact IH.
Qed.

Lemma wait_all_inv (pids : list Z) :
  hoare (inv pids) (wait_all os pids) (fun _ => inv []) accounted.
Proof.
  induction pids as [| pid pids IH]; [apply hoare_inv_ret |].
  cbn [wait_all]. eapply hoare_bind; [apply hoare_waitpid |]. intros ?.
  exact IH.
Qed.

Lemma executePipedCommand_inv (tokens : list string) :
  hoare (inv []) (executePipedCommand os tokens) (fun _ => inv []) accounted.
Proof.
  unfold executePipedCommand.
  eapply hoare_bind; [apply launch_loop_inv |]. intros [fds pids]. simpl.
  eapply hoare_bind; [apply close_all_inv |]. intros ?.
  apply wait_all_inv.
Qed.

Lemma main_body_inv (line : string) :
  hoare (inv []) (main_body os line) (fun _ => inv []) accounted.
Proof.
  unfold main_body.
  destruct (tokenize (checkWhiteSpaces line)) as [| t0 rest] eqn:Etok;
    [apply hoare_inv_ret |].
  set (tokens := t0 :: rest).
  destruct (hasMultipleRedirectionsOrPipes tokens); [apply hoare_lift; quiet |].
  destruct (hasSyntaxErrors tokens); [apply hoare_lift; quiet |].
  eapply hoare_bind with (Q := fun _ => inv []).
  { destruct (isBackgroundCommand (checkWhiteSpaces line)); [| apply hoare_inv_ret].
    eapply hoare_bind; [apply executeCommandInBackground_inv |]. intros ?.
    apply hoare_inv_ret. }
  intros input.
  destruct (negb (findTokenIndex tokens "|" =? -1)); [apply executePipedCommand_inv |].
  destruct (negb (findTokenIndex tokens ">" =? -1)
            || negb (findTokenIndex tokens "<" =? -1)); [apply executeCommand_inv |].
  destruct (String.eqb (at_ tokens 0) "cd").
  { destruct (size tokens =? 2); [| apply hoare_lift; quiet].
    eapply hoare_bind with (Q := fun _ => inv []).
    - unfold sys_chdir. apply hoare_lift. quiet.
    - intros r. apply hoare_inv_when. apply hoare_lift. quiet. }
  destruct (String.eqb (at_ tokens 0) "ls" && (size tokens =? 2)
            && String.eqb (at_ tokens 1) "-al"); [apply executeCommand_inv |].
  destruct (String.eqb (at_ tokens 0) "ls"); [apply executeCommand_inv |].
  destruct (String.eqb (at_ tokens 0) "rm"); [apply hoare_inv_ret |].
  destruct (String.eqb (at_ tokens 0) "clear"); [apply hoare_lift; quiet |].
  destruct (String.eqb (at_ tokens 0) "emacs"); [apply executeCommand_inv |].
  destruct (split_at_equal input) as [[name value] |]; [| apply executeCommand_inv].
  apply hoare_lift. unfold handleVariableAssignment.
  destruct (split_at_equal input) as [[name' value'] |]; [| quiet].
  destruct (String.eqb name' "PATH" && String.eqb value' ""); quiet.
Qed.

Lemma main_loop_inv (lines : list string) :
  hoare (inv []) (main_loop os lines) (fun _ => inv []) accounted.
Proof.
  induction lines as [| input rest IH]; cbn [main_loop].
  - eapply hoare_bind; [apply hoare_lift; quiet |]. intros ?. apply hoare_inv_ret.
  - eapply hoare_bind; [apply hoare_lift; quiet |]. intros ?.
    destruct (String.eqb input "exit"); [apply hoare_inv_ret |].
    eapply hoare_bind; [apply main_body_inv |]. intros ?. exact IH.
Qed.

End Accounting.

(** ** What every stage of a pipeline runs *)

Section StageRun.

Variable os : OS.

Ltac no_exec_in Hin :=
  repeat (apply in_app_or in Hin; destruct Hin as [Hin | Hin]);
  repeat (destruct Hin as [Hin | Hin]; [discriminate |]);
  try contradiction.

Lemma stage_redirect_input_no_exec (i : Z) (command : list string) (in_fd : Z)
    (p : proc) :
  exists r p',
    stage_redirect_input os i command in_fd p = Ret r p' /\
    snd r = (if i =? 0 then strip_redirect "<" command else command) /\
    forall argv, ~ In (SysExecvp argv) (trace p) -> ~ In (SysExecvp argv) (trace p').
Proof.
  unfold stage_redirect_input, strip_redirect, bind, sys_open, when, perror, emit,
    sys_dup2, sys_close, ret.
  repeat match goal with
         | |- context [if ?b then _ else _] => destruct b; cbn [fdt trace]
         | |- context [match fd_lookup ?t ?fd with _ => _ end] =>
             destruct (fd_lookup t fd); cbn [fdt trace]
         end;
    do 2 eexists; (split; [reflexivity |]); (split; [reflexivity |]);
    cbn [trace]; intros argv Hno Hin; no_exec_in Hin.
Qed.

Lemma stage_bind_input_no_exec (in_fd : Z) (p : proc) :
  exists p',
    stage_bind_input in_fd p = Ret tt p' /\
    forall argv, ~ In (SysExecvp argv) (trace p) -> ~ In (SysExecvp argv) (trace p').
Proof.
  unfold stage_bind_input, bind, when, sys_dup2, sys_close, ret.
  repeat match goal with
         | |- context [if ?b then _ else _] => destruct b; cbn [fdt trace]
         | |- context [match fd_lookup ?t ?fd with _ => _ end] =>
             destruct (fd_lookup t fd); cbn [fdt trace]
         end;
    eexists; (split; [reflexivity |]);
    cbn [trace]; intros argv Hno Hin; no_exec_in Hin.
Qed.

Lemma stage_bind_output_no_exec (n i : Z) (fd : Z * Z) (p : proc) :
  exists p',
    stage_bind_output n i fd p = Ret tt p' /\
    forall argv, ~ In (SysExecvp argv) (trace p) -> ~ In (SysExecvp argv) (trace p').
Proof.
  unfold stage_bind_output, bind, when, sys_dup2, sys_close, ret.
  repeat match goal with
         | |- context [if ?b then _ else _] => destruct b; cbn [fdt trace]
         | |- context [match fd_lookup ?t ?fd with _ => _ end] =>
             destruct (fd_lookup t fd); cbn [fdt trace]
         end;
    eexists; (split; [reflexivity |]);
    cbn [trace]; intros argv Hno Hin; no_exec_in Hin.
Qed.

(** The output block of the last stage stops the child exactly when the
    stage has a complete [>] redirection whose file cannot be opened. *)
Lemma stage_redirect_output_last (n i : Z) (command : list string) (p : proc) :
  i = n - 1 ->
  (complete_redirect ">" command = true /\
   open_ok os (redirect_file ">" command) true = false /\
   exists p',
     stage_redirect_output os n i command p = Halt (Exited EXIT_FAILURE) p' /\
     forall argv, ~ In (SysExecvp argv) (trace p) -> ~ In (SysExecvp argv) (trace p'))
  \/ ((complete_redirect ">" command = true ->
       open_ok os (redirect_file ">" command) true = true) /\
      exists p',
        stage_redirect_output os n i command p
        = Ret (strip_redirect ">" command) p').
Proof.
  intros ->. unfold stage_redirect_output, strip_redirect, complete_redirect,
    redirect_file.
  rewrite Z.eqb_refl.
  destruct (negb (findTokenIndex command ">" =? -1)
            && (findTokenIndex command ">" + 1 <? size command)).
  2:{ right. split; [discriminate |]. eexists. reflexivity. }
  unfold bind, sys_open.
  destruct (open_ok os (at_ command (findTokenIndex command ">" + 1)) true) eqn:Eok.
  - right. split; [reflexivity |].
    assert (Hfd : (lowest_free (fdt p) =? -1) = false).
    { apply Z.eqb_neq. pose proof (lowest_free_nonneg (fdt p)). lia. }
    rewrite Hfd. unfold sys_dup2, sys_close, ret.
    repeat match goal with
           | |- context [if ?b then _ else _] => destruct b; cbn [fdt trace]
           | |- context [match fd_lookup ?t ?fd with _ => _ end] =>
               destruct (fd_lookup t fd); cbn [fdt trace]
           end; eexists; reflexivity.
  - left. split; [reflexivity |]. split; [reflexivity |].
    cbn. eexists. split; [reflexivity |].
    cbn [trace]. intros argv Hno Hin. no_exec_in Hin.
Qed.

(** The last stage of a pipeline: the child leaves without running
    anything exactly when the stage has a complete [>] redirection whose
    file cannot be opened; otherwise it calls [execvp] on its tokens
    without that redirection. *)
Lemma piped_child_last (n i : Z) (command : list string) (in_fd : Z) (fd : Z * Z)
    (t : fdtable) :
  i = n - 1 ->
  let cmd1 := if i =? 0 then strip_redirect "<" command else command in
  let h := fst (run_child (piped_child os n i command in_fd fd) (mkProc t [])) in
  let p := snd (run_child (piped_child os n i command in_fd fd) (mkProc t [])) in
  (complete_redirect ">" cmd1 = true /\
   open_ok os (redirect_file ">" cmd1) true = false /\
   h = Exited EXIT_FAILURE /\
   forall argv, ~ In (SysExecvp argv) (trace p))
  \/ ((complete_redirect ">" cmd1 = true ->
       open_ok os (redirect_file ">" cmd1) true = true) /\
      In (SysExecvp (stage_argv n i command)) (trace p)).
Proof.
  intros Hi cmd1. unfold run_child, piped_child.
  set (p0 := mkProc t []).
  destruct (stage_redirect_input_no_exec i command in_fd p0)
    as ([in_fd1 c1] & p1 & EA & Hc1 & NA).
  cbn [snd] in Hc1. fold cmd1 in Hc1. subst c1.
  rewrite (bind_Ret _ _ _ _ _ EA).
  destruct (stage_bind_input_no_exec in_fd1 p1) as (p2 & EB & NB).
  rewrite (bind_Ret _ _ _ _ _ EB).
  destruct (stage_bind_output_no_exec n i fd p2) as (p3 & EC & NC).
  rewrite (bind_Ret _ _ _ _ _ EC).
  assert (N3 : forall argv, ~ In (SysExecvp argv) (trace p3)).
  { intros argv. apply NC, NB, NA. intros []. }
  destruct (stage_redirect_output_last n i cmd1 p3 Hi)
    as [(Hc & Hno & p4 & ED & ND) | (Hok & p4 & ED)].
  - left. rewrite (bind_Halt _ _ _ _ _ ED). cbv zeta. cbn [fst snd].
    split; [exact Hc |]. split; [exact Hno |]. split; [reflexivity |].
    intros argv. apply ND, N3.
  - right. split; [exact Hok |].
    rewrite (bind_Ret _ _ _ _ _ ED).
    destruct (stage_exec_spec os (strip_redirect ">" cmd1) p4)
      as (h & p5 & tl & EE & _ & HE & _).
    rewrite EE. cbv zeta. cbn [fst snd]. rewrite HE.
    unfold stage_argv. fold cmd1.
    rewrite (proj2 (Z.eqb_eq i (n - 1)) Hi).
    apply in_or_app. right. left. reflexivity.
Qed.

(** The launching loop forks one child per command, each running
    [piped_child] for its command. *)
Lemma launch_loop_stages_run (rest : list (list string)) :
  forall (n i in_fd : Z) (fds pids : list Z) (s : shell)
         (fds' pids' : list Z) (s' : shell),
    launch_loop os n i rest in_fd fds pids s = Ret (fds', pids') s' ->
    exists cs, children s' = children s ++ cs /\ stages_run os n i rest cs.
Proof.
  induction rest as [| command rest' IH];
    intros n i in_fd fds pids s fds' pids' s' Hrun.
  - cbn in Hrun. injection Hrun as <- <- <-.
    exists []. rewrite app_nil_r. split; [reflexivity | exact I].
  - cbn [launch_loop] in Hrun.
    apply bind_inv in Hrun. destruct Hrun as ([fd fds1] & s1 & Esetup & Hrun).
    apply bind_inv in Hrun. destruct Hrun as (pid & s2 & Efork & Hrun).
    destruct (setup_pipe_spec os n i fds s fd fds1 s1 Esetup) as (Hc1 & _).
    destruct (sys_fork_spec os (ByPiped i) (piped_child os n i command in_fd fd) s1)
      as (pid' & s2' & Efork' & _ & _ & _ & Hcase).
    rewrite Efork in Efork'. injection Efork' as <- <-.
    destruct Hcase as [(-> & _) | (Hpid & _ & _ & Hc2)].
    { cbn in Hrun. unfold bind, lift in Hrun. cbn in Hrun. discriminate. }
    assert (Hpidne : (pid =? -1) = false) by (apply Z.eqb_neq; lia).
    rewrite Hpidne in Hrun.
    apply bind_inv in Hrun. destruct Hrun as (in_fd2 & s3 & Eparent & Hrun).
    destruct (parent_after_fork_spec n i in_fd fd s2)
      as (s3' & Eparent' & Hc3 & _).
    rewrite Eparent in Eparent'. injection Eparent' as -> <-.
    destruct (IH _ _ _ _ _ _ _ _ _ Hrun) as (cs & Hcs & Hrest).
    eexists (_ :: cs). split.
    + rewrite Hcs, Hc3, Hc2, Hc1, <- app_assoc. reflexivity.
    + cbn [stages_run]. split; [| exact Hrest].
      split; [reflexivity |]. exists in_fd, fd, (fdt (self s1)). cbn [c_halt c_proc].
      now destruct (run_child _ _).
Qed.

Lemma stages_run_nth (commands : list (list string)) :
  forall (n i : Z) (cs : list child) (k : nat) (command : list string),
    stages_run os n i commands cs ->
    nth_error commands k = Some command ->
    exists c, nth_error cs k = Some c /\ stage_child os n (i + Z.of_nat k) command c.
Proof.
  induction commands as [| c0 commands IH]; intros n i cs k command Hrun Hk.
  - destruct k; discriminate.
  - destruct cs as [| c cs]; [contradiction |]. destruct Hrun as [H0 Hrest].
    destruct k as [| k].
    + injection Hk as <-. exists c. split; [reflexivity |].
      now rewrite Z.add_0_r.
    + destruct (IH n (i + 1) cs k command Hrest Hk) as (c' & Hc' & Hs).
      exists c'. split; [exact Hc' |].
      replace (i + Z.of_nat (S k)) with (i + 1 + Z.of_nat k) by lia. exact Hs.
Qed.

Lemma executePipedCommand_stages_run (tokens : list string) (s s' : shell) :
  executePipedCommand os tokens s = Ret tt s' ->
  stages_run os (size (split_commands tokens)) 0 (split_commands tokens)
    (spawned s s').
Proof.
  intros Hrun. unfold executePipedCommand in Hrun.
  apply bind_inv in Hrun. destruct Hrun as ([fds pids] & s1 & Eloop & Hrun).
  apply bind_inv in Hrun. destruct Hrun as ([] & s2 & Eclose & Ewait).
  destruct (launch_loop_stages_run _ _ _ _ _ _ _ _ _ _ Eloop) as (cs & Hcs & Hstages).
  destruct (close_all_spec fds s1) as (s2' & Eclose' & Hc2 & _).
  rewrite Eclose in Eclose'. injection Eclose' as <-.
  destruct (wait_all_spec os pids s2) as (s3 & Ewait' & Hc3 & _).
  rewrite Ewait in Ewait'. injection Ewait' as <-.
  rewrite (spawned_app s s' cs) by (rewrite Hc3, Hc2, Hcs; reflexivity).
  exact Hstages.
Qed.

End StageRun.
(** ** The shell's descriptor table, call by call *)

Lemma fd_lookup_set (t : fdtable) (fd x : Z) (v : option file) :
  0 <= fd ->
  fd_lookup (fd_set t fd v) x = if x =? fd then v else fd_lookup t x.
Proof.
  intros Hfd. destruct (Z.eqb_spec x fd) as [-> | Hne].
  - now apply fd_lookup_set_eq.
  - apply fd_lookup_set_neq. congruence.
Qed.

Section Replay.

Variable os : OS.

(** [apply_call] agrees with the calls of the model: each one appends its
    record and changes the table as the record says. *)
Lemma sys_dup_replay (oldfd : Z) (p : proc) :
  exists r p',
    sys_dup oldfd p = Ret r p' /\
    trace p' = trace p ++ [SysDup oldfd r] /\
    apply_call (fdt p) (SysDup oldfd r) = Some (fdt p').
Proof.
  unfold sys_dup, apply_call. destruct (fd_lookup (fdt p) oldfd) as [f |] eqn:E.
  - do 2 eexists. split; [reflexivity |]. split; [reflexivity |]. cbn [fdt].
    rewrite (proj2 (Z.ltb_ge _ _) (lowest_free_nonneg (fdt p))). reflexivity.
  - do 2 eexists. split; [reflexivity |]. split; reflexivity.
Qed.

Lemma sys_dup2_replay (oldfd newfd : Z) (p : proc) :
  exists r p',
    sys_dup2 oldfd newfd p = Ret r p' /\
    trace p' = trace p ++ [SysDup2 oldfd newfd] /\
    apply_call (fdt p) (SysDup2 oldfd newfd) = Some (fdt p').
Proof.
  unfold sys_dup2, apply_call. destruct (fd_lookup (fdt p) oldfd) as [f |].
  - destruct (newfd <? 0); do 2 eexists; split; try reflexivity; split; reflexivity.
  - do 2 eexists. split; [reflexivity |]. split; reflexivity.
Qed.

Lemma sys_close_replay (fd : Z) (p : proc) :
  exists r p',
    sys_close fd p = Ret r p' /\
    trace p' = trace p ++ [SysClose fd] /\
    apply_call (fdt p) (SysClose fd) = Some (fdt p').
Proof.
  unfold sys_close, apply_call. destruct (fd_lookup (fdt p) fd) as [f |];
    do 2 eexists; split; try reflexivity; split; reflexivity.
Qed.

Lemma sys_open_replay (path : string) (writing : bool) (p : proc) :
  exists r p',
    sys_open os path writing p = Ret r p' /\
    trace p' = trace p ++ [SysOpen path writing r] /\
    apply_call (fdt p) (SysOpen path writing r) = Some (fdt p').
Proof.
  unfold sys_open, apply_call. destruct (open_ok os path writing).
  - do 2 eexists. split; [reflexivity |]. split; [reflexivity |]. cbn [fdt].
    rewrite (proj2 (Z.ltb_ge _ _) (lowest_free_nonneg (fdt p))). reflexivity.
  - do 2 eexists. split; [reflexivity |]. split; reflexivity.
Qed.

Lemma replay_app (calls calls' : list syscall) :
  forall t t1,
    replay t calls = Some t1 -> replay t (calls ++ calls') = replay t1 calls'.
Proof.
  induction calls as [| e calls IH]; intros t t1 H.
  - cbn in H. injection H as <-. reflexivity.
  - cbn [app replay] in *. destruct (apply_call t e) as [t' |]; [| discriminate].
    now apply IH.
Qed.

(** A run of calls from the table [t0] that ends in the table [t] and
    never leaves standard input or standard output bound otherwise than in
    [t0]. *)
Lemma history_nil (t0 : fdtable) :
  replay t0 [] = Some t0 /\
  forall k, exists t, replay t0 (firstn k []) = Some t /\ same_std t0 t.
Proof.
  split; [reflexivity |]. intros k. exists t0. rewrite firstn_nil.
  split; [reflexivity |]. split; reflexivity.
Qed.

Lemma history_snoc (t0 t1 t2 : fdtable) (calls : list syscall) (e : syscall) :
  (replay t0 calls = Some t1 /\
   forall k, exists t, replay t0 (firstn k calls) = Some t /\ same_std t0 t) ->
  apply_call t1 e = Some t2 ->
  same_std t0 t2 ->
  replay t0 (calls ++ [e]) = Some t2 /\
  forall k, exists t, replay t0 (firstn k (calls ++ [e])) = Some t /\ same_std t0 t.
Proof.
  intros [Hend Hpre] He Hstd.
  assert (Hall : replay t0 (calls ++ [e]) = Some t2).
  { rewrite (replay_app calls [e] t0 t1 Hend). cbn. now rewrite He. }
  split; [exact Hall |]. intros k.
  destruct (Nat.le_gt_cases k (length calls)) as [Hle | Hgt].
  - rewrite firstn_app. replace (k - length calls)%nat with 0%nat by lia.
    cbn [firstn]. rewrite app_nil_r. apply Hpre.
  - rewrite firstn_all2 by (rewrite length_app; cbn; lia).
    exists t2. split; [exact Hall | exact Hstd].
Qed.

End Replay.
Section ParentHistory.

Variable os : OS.

Lemma lift_dup_exact (s : shell) (oldfd : Z) (f : file) :
  fd_lookup (fdt (self s)) oldfd = Some f ->
  lift (sys_dup oldfd) s
  = Ret (lowest_free (fdt (self s)))
      (with_self s
         (mkProc (fd_set (fdt (self s)) (lowest_free (fdt (self s))) (Some f))
            (trace (self s) ++ [SysDup oldfd (lowest_free (fdt (self s)))]))).
Proof. intros H. unfold lift, sys_dup. rewrite H. reflexivity. Qed.

Lemma restore_exact (s : shell) (saved target : Z) (f : file) :
  fd_lookup (fdt (self s)) saved = Some f -> 0 <= target -> saved <> target ->
  when (negb (saved =? -1))
    (lift (sys_dup2 saved target ;; sys_close saved ;; ret tt)) s
  = Ret tt
      (with_self s
         (mkProc (fd_set (fd_set (fdt (self s)) target (Some f)) saved None)
            (trace (self s) ++ [SysDup2 saved target; SysClose saved]))).
Proof.
  intros H Ht Hne. pose proof (fd_lookup_nonneg _ _ _ H) as Hs.
  rewrite (proj2 (Z.eqb_neq saved (-1))) by lia. cbn [negb when].
  unfold lift, bind, sys_dup2, sys_close, ret. rewrite H.
  rewrite (proj2 (Z.ltb_ge target 0)) by lia. cbn [fdt trace].
  rewrite fd_lookup_set_neq by congruence. rewrite H.
  rewrite <- app_assoc. reflexivity.
Qed.

(** The first free descriptor of a table in which standard input and
    standard output are open is above both. *)
Lemma lowest_free_above_std (t : fdtable) :
  fd_lookup t STDIN_FILENO <> None -> fd_lookup t STDOUT_FILENO <> None ->
  1 < lowest_free t.
Proof.
  intros H0 H1. pose proof (lowest_free_nonneg t) as Hge.
  pose proof (lowest_free_is_free t) as Hfree.
  unfold STDIN_FILENO, STDOUT_FILENO in *.
  destruct (Z.eq_dec (lowest_free t) 0) as [E | E]; [rewrite E in Hfree; contradiction |].
  destruct (Z.eq_dec (lowest_free t) 1) as [E' | E']; [rewrite E' in Hfree; contradiction |].
  lia.
Qed.

Ltac lookup_std :=
  unfold same_std, STDIN_FILENO, STDOUT_FILENO in *;
  repeat rewrite fd_lookup_set by lia;
  repeat match goal with
         | |- context [?x =? ?y] => destruct (Z.eqb_spec x y); try lia
         end;
  try (split; congruence); try congruence.

Lemma apply_dup (t : fdtable) (oldfd r : Z) (f : file) :
  0 <= r -> fd_lookup t oldfd = Some f ->
  apply_call t (SysDup oldfd r) = Some (fd_set t r (Some f)).
Proof.
  intros Hr H. unfold apply_call. rewrite H.
  now rewrite (proj2 (Z.ltb_ge r 0)) by lia.
Qed.

Lemma apply_dup2 (t : fdtable) (oldfd newfd : Z) (f : file) :
  0 <= newfd -> fd_lookup t oldfd = Some f ->
  apply_call t (SysDup2 oldfd newfd) = Some (fd_set t newfd (Some f)).
Proof.
  intros Hr H. unfold apply_call. rewrite H.
  now rewrite (proj2 (Z.ltb_ge newfd 0)) by lia.
Qed.

Lemma apply_close (t : fdtable) (fd : Z) (f : file) :
  fd_lookup t fd = Some f ->
  apply_call t (SysClose fd) = Some (fd_set t fd None).
Proof. intros H. unfold apply_call. now rewrite H. Qed.

Lemma bind_ret_l {S A B : Type} (a : A) (k : A -> M S B) (s : S) :
  bind (ret a) k s = k a s.
Proof. reflexivity. Qed.

Lemma sys_waitpid_exact (pid : Z) (s : shell) :
  sys_waitpid os pid s
  = Ret (wait_status os pid)
      (with_self s (mkProc (fdt (self s)) (trace (self s) ++ [SysWaitpid pid]))).
Proof. reflexivity. Qed.

Lemma when_skip {S : Type} (c : M S unit) (s : S) :
  when (negb (-1 =? -1)) c s = Ret tt s.
Proof. reflexivity. Qed.

(** The parent's side of [executeCommand] with [fork] succeeding and the
    standard descriptors open: the calls it makes, and the table after
    each of them. *)
Lemma executeCommand_parent_history (tokens : list string) (s : shell) :
  std_open (fdt (self s)) ->
  fork_ok os (forks s) = true ->
  exists s' saved_stdout saved_stdin,
    executeCommand os tokens s = Ret tt s' /\
    1 < saved_stdout /\ 1 < saved_stdin /\
    trace (self s')
    = trace (self s)
      ++ [SysFork (Z.pos (next_pid s))]
      ++ (if findTokenIndex tokens ">" =? -1 then []
          else [SysDup STDOUT_FILENO saved_stdout])
      ++ (if findTokenIndex tokens "<" =? -1 then []
          else [SysDup STDIN_FILENO saved_stdin])
      ++ [SysWaitpid (Z.pos (next_pid s))]
      ++ (if findTokenIndex tokens ">" =? -1 then []
          else [SysDup2 saved_stdout STDOUT_FILENO; SysClose saved_stdout])
      ++ (if findTokenIndex tokens "<" =? -1 then []
          else [SysDup2 saved_stdin STDIN_FILENO; SysClose saved_stdin]) /\
    replay (fdt (self s)) (called s s') = Some (fdt (self s')) /\
    forall k, exists t,
      replay (fdt (self s)) (firstn k (called s s')) = Some t /\
      same_std (fdt (self s)) t.
Proof.
  intros [Hin Hout] Hfork.
  destruct (fd_lookup (fdt (self s)) STDIN_FILENO) as [f0 |] eqn:H0; [| contradiction].
  destruct (fd_lookup (fdt (self s)) STDOUT_FILENO) as [f1 |] eqn:H1; [| contradiction].
  clear Hin Hout.
  set (t := fdt (self s)) in *.
  set (a := lowest_free t).
  assert (Ha : 1 < a) by (apply lowest_free_above_std; fold t; congruence).
  unfold executeCommand.
  set (rIn := findTokenIndex tokens "<"). set (rOut := findTokenIndex tokens ">").
  set (code := executeCommand_child os tokens rIn rOut _).
  set (pid := Z.pos (next_pid s)).
  set (s1 := mkShell (mkProc t (trace (self s) ++ [SysFork pid]))
               (S (forks s)) (pipe_calls s) (pipes s) (Pos.succ (next_pid s))
               (children s
                ++ [mkChild pid BySingle
                      (fst (run_child code (mkProc t [])))
                      (snd (run_child code (mkProc t [])))])).
  assert (E1 : sys_fork os BySingle code s = Ret pid s1).
  { unfold sys_fork. rewrite Hfork. fold t. fold pid. unfold s1.
    destruct (run_child code _). reflexivity. }
  rewrite (bind_Ret _ _ _ _ _ E1).
  assert (Hpid : (pid =? -1) = false) by reflexivity.
  rewrite Hpid.
  assert (T1 : fdt (self s1) = t) by reflexivity.
  assert (H1s : apply_call t (SysFork pid) = Some t) by reflexivity.
  assert (H0' : fd_lookup t 0 = Some f0) by exact H0.
  assert (H1' : fd_lookup t 1 = Some f1) by exact H1.
  destruct (rOut =? -1) eqn:EOut; destruct (rIn =? -1) eqn:EIn; cbn [negb].
  - (* no redirect operator *)
    rewrite !bind_ret_l.
    rewrite (bind_Ret _ _ _ _ _ (sys_waitpid_exact pid s1)).
    rewrite (bind_Ret _ _ _ _ _ (when_skip _ _)). rewrite when_skip.
    eexists _, 2, 2. split; [reflexivity |]. split; [lia |]. split; [lia |].
    assert (Tr : trace (self (with_self s1
                   (mkProc (fdt (self s1)) (trace (self s1) ++ [SysWaitpid pid]))))
                 = trace (self s) ++ [SysFork pid; SysWaitpid pid]).
    { unfold s1. cbn [with_self self trace fdt]. now rewrite <- app_assoc. }
    split; [exact Tr |]. rewrite (called_app _ _ _ Tr).
    unfold s1. cbn [with_self self fdt].
    apply (history_snoc t t t [SysFork pid] (SysWaitpid pid));
      [| reflexivity | lookup_std].
    apply (history_snoc t t t [] (SysFork pid)); [| reflexivity | lookup_std].
    apply history_nil.
  - (* only [<] *)
    rewrite bind_ret_l.
    assert (L0 : fd_lookup (fdt (self s1)) STDIN_FILENO = Some f0) by exact H0.
    rewrite (bind_Ret _ _ _ _ _ (lift_dup_exact s1 STDIN_FILENO f0 L0)).
    change (lowest_free (fdt (self s1))) with a.
    rewrite (bind_Ret _ _ _ _ _ (sys_waitpid_exact pid _)).
    rewrite (bind_Ret _ _ _ _ _ (when_skip _ _)).
    set (tA := fd_set t a (Some f0)).
    erewrite (restore_exact _ a STDIN_FILENO f0);
      [| unfold s1; cbn [with_self self fdt]; lookup_std
       | unfold STDIN_FILENO; lia | unfold STDIN_FILENO; lia].
    eexists _, 2, a. split; [reflexivity |]. split; [lia |]. split; [exact Ha |].
    match goal with
    | |- trace (self ?st) = _ /\ _ =>
        assert (Tr : trace (self st)
                     = trace (self s)
                       ++ [SysFork pid; SysDup STDIN_FILENO a; SysWaitpid pid;
                           SysDup2 a STDIN_FILENO; SysClose a])
    end.
    { unfold s1. cbn [with_self self trace fdt]. now rewrite <- !app_assoc. }
    split; [exact Tr |]. rewrite (called_app _ _ _ Tr).
    unfold s1. cbn [with_self self fdt]. fold tA.
    apply (history_snoc t (fd_set tA 0 (Some f0)) _
             [SysFork pid; SysDup STDIN_FILENO a; SysWaitpid pid;
              SysDup2 a STDIN_FILENO] (SysClose a));
      [| apply (apply_close _ a f0); unfold tA; lookup_std | unfold tA; lookup_std].
    apply (history_snoc t tA _ [SysFork pid; SysDup STDIN_FILENO a; SysWaitpid pid]
             (SysDup2 a STDIN_FILENO));
      [| apply (apply_dup2 _ a 0 f0); [lia | unfold tA; lookup_std]
       | unfold tA; lookup_std].
    apply (history_snoc t tA tA [SysFork pid; SysDup STDIN_FILENO a] (SysWaitpid pid));
      [| reflexivity | unfold tA; lookup_std].
    apply (history_snoc t t tA [SysFork pid] (SysDup STDIN_FILENO a));
      [| apply (apply_dup t 0 a f0); [lia | exact H0'] | unfold tA; lookup_std].
    apply (history_snoc t t t [] (SysFork pid)); [| reflexivity | lookup_std].
    apply history_nil.
  - (* only [>] *)
    assert (L1 : fd_lookup (fdt (self s1)) STDOUT_FILENO = Some f1) by exact H1.
    rewrite (bind_Ret _ _ _ _ _ (lift_dup_exact s1 STDOUT_FILENO f1 L1)).
    change (lowest_free (fdt (self s1))) with a.
    rewrite bind_ret_l.
    rewrite (bind_Ret _ _ _ _ _ (sys_waitpid_exact pid _)).
    set (tA := fd_set t a (Some f1)).
    match goal with
    | |- context [bind (when (negb (a =? -1)) _) _ ?st] =>
        pose proof (restore_exact st a STDOUT_FILENO f1) as E5
    end.
    rewrite (bind_Ret _ _ _ _ _
               (E5 ltac:(unfold s1; cbn [with_self self fdt]; lookup_std)
                   ltac:(unfold STDOUT_FILENO; lia)
                   ltac:(unfold STDOUT_FILENO; lia))).
    clear E5. rewrite when_skip.
    eexists _, a, 2. split; [reflexivity |]. split; [exact Ha |]. split; [lia |].
    match goal with
    | |- trace (self ?st) = _ /\ _ =>
        assert (Tr : trace (self st)
                     = trace (self s)
                       ++ [SysFork pid; SysDup STDOUT_FILENO a; SysWaitpid pid;
                           SysDup2 a STDOUT_FILENO; SysClose a])
    end.
    { unfold s1. cbn [with_self self trace fdt]. now rewrite <- !app_assoc. }
    split; [exact Tr |]. rewrite (called_app _ _ _ Tr).
    unfold s1. cbn [with_self self fdt]. fold tA.
    apply (history_snoc t (fd_set tA 1 (Some f1)) _
             [SysFork pid; SysDup STDOUT_FILENO a; SysWaitpid pid;
              SysDup2 a STDOUT_FILENO] (SysClose a));
      [| apply (apply_close _ a f1); unfold tA; lookup_std | unfold tA; lookup_std].
    apply (history_snoc t tA _ [SysFork pid; SysDup STDOUT_FILENO a; SysWaitpid pid]
             (SysDup2 a STDOUT_FILENO));
      [| apply (apply_dup2 _ a 1 f1); [lia | unfold tA; lookup_std]
       | unfold tA; lookup_std].
    apply (history_snoc t tA tA [SysFork pid; SysDup STDOUT_FILENO a] (SysWaitpid pid));
      [| reflexivity | unfold tA; lookup_std].
    apply (history_snoc t t tA [SysFork pid] (SysDup STDOUT_FILENO a));
      [| apply (apply_dup t 1 a f1); [lia | exact H1'] | unfold tA; lookup_std].
    apply (history_snoc t t t [] (SysFork pid)); [| reflexivity | lookup_std].
    apply history_nil.
  - (* both operators *)
    assert (L1 : fd_lookup (fdt (self s1)) STDOUT_FILENO = Some f1) by exact H1.
    rewrite (bind_Ret _ _ _ _ _ (lift_dup_exact s1 STDOUT_FILENO f1 L1)).
    change (lowest_free (fdt (self s1))) with a.
    unfold s1. cbn [with_self self fdt trace].
    set (tA := fd_set t a (Some f1)).
    set (b := lowest_free tA).
    assert (HA0 : fd_lookup tA 0 = Some f0) by (unfold tA; lookup_std).
    assert (HA1 : fd_lookup tA 1 = Some f1) by (unfold tA; lookup_std).
    assert (HAa : fd_lookup tA a = Some f1) by (unfold tA; lookup_std).
    assert (Hb : 1 < b).
    { apply lowest_free_above_std; unfold STDIN_FILENO, STDOUT_FILENO; congruence. }
    assert (Hab : b <> a).
    { intros E. pose proof (lowest_free_is_free tA) as Hfree. fold b in Hfree.
      rewrite E in Hfree. congruence. }
    match goal with
    | |- context [bind (lift (sys_dup STDIN_FILENO)) _ ?st] =>
        pose proof (lift_dup_exact st STDIN_FILENO f0 HA0) as E3
    end.
    rewrite (bind_Ret _ _ _ _ _ E3). clear E3.
    cbn [with_self self fdt trace]. fold b.
    set (tB := fd_set tA b (Some f0)).
    rewrite (bind_Ret _ _ _ _ _ (sys_waitpid_exact pid _)).
    cbn [with_self self fdt trace].
    assert (HBa : fd_lookup tB a = Some f1) by (unfold tB, tA; lookup_std).
    match goal with
    | |- context [bind (when (negb (a =? -1)) _) _ ?st] =>
        pose proof (restore_exact st a STDOUT_FILENO f1 HBa
                      ltac:(unfold STDOUT_FILENO; lia)
                      ltac:(unfold STDOUT_FILENO; lia)) as E5
    end.
    rewrite (bind_Ret _ _ _ _ _ E5). clear E5.
    cbn [with_self self fdt trace].
    assert (HDb : fd_lookup (fd_set (fd_set tB STDOUT_FILENO (Some f1)) a None) b
                  = Some f0) by (unfold tB, tA; lookup_std).
    match goal with
    | |- context [when (negb (b =? -1)) _ ?st] =>
        pose proof (restore_exact st b STDIN_FILENO f0 HDb
                      ltac:(unfold STDIN_FILENO; lia)
                      ltac:(unfold STDIN_FILENO; lia)) as E6
    end.
    rewrite E6. clear E6.
    cbn [with_self self fdt trace].
    eexists _, a, b. split; [reflexivity |]. split; [exact Ha |]. split; [exact Hb |].
    match goal with
    | |- trace (self ?st) = _ /\ _ =>
        assert (Tr : trace (self st)
                     = trace (self s)
                       ++ [SysFork pid; SysDup STDOUT_FILENO a; SysDup STDIN_FILENO b;
                           SysWaitpid pid;
                           SysDup2 a STDOUT_FILENO; SysClose a;
                           SysDup2 b STDIN_FILENO; SysClose b])
    end.
    { cbn [self trace]. now rewrite <- !app_assoc. }
    split; [exact Tr |]. rewrite (called_app _ _ _ Tr).
    cbn [with_self self fdt]. unfold STDIN_FILENO, STDOUT_FILENO.
    set (tC := fd_set tB 1 (Some f1)).
    set (tD := fd_set tC a None).
    set (tE := fd_set tD 0 (Some f0)).
    apply (history_snoc t tE _
             [SysFork pid; SysDup STDOUT_FILENO a; SysDup STDIN_FILENO b;
              SysWaitpid pid; SysDup2 a STDOUT_FILENO; SysClose a;
              SysDup2 b STDIN_FILENO] (SysClose b));
      [| apply (apply_close _ b f0); unfold tE, tD, tC, tB, tA; lookup_std
       | unfold tE, tD, tC, tB, tA; lookup_std].
    apply (history_snoc t tD _
             [SysFork pid; SysDup STDOUT_FILENO a; SysDup STDIN_FILENO b;
              SysWaitpid pid; SysDup2 a STDOUT_FILENO; SysClose a]
             (SysDup2 b STDIN_FILENO));
      [| apply (apply_dup2 _ b 0 f0); [lia | unfold tD, tC, tB, tA; lookup_std]
       | unfold tE, tD, tC, tB, tA; lookup_std].
    apply (history_snoc t tC _
             [SysFork pid; SysDup STDOUT_FILENO a; SysDup STDIN_FILENO b;
              SysWaitpid pid; SysDup2 a STDOUT_FILENO] (SysClose a));
      [| apply (apply_close _ a f1); unfold tC, tB, tA; lookup_std
       | unfold tD, tC, tB, tA; lookup_std].
    apply (history_snoc t tB _
             [SysFork pid; SysDup STDOUT_FILENO a; SysDup STDIN_FILENO b;
              SysWaitpid pid] (SysDup2 a STDOUT_FILENO));
      [| apply (apply_dup2 _ a 1 f1); [lia | unfold tB, tA; lookup_std]
       | unfold tC, tB, tA; lookup_std].
    apply (history_snoc t tB tB
             [SysFork pid; SysDup STDOUT_FILENO a; SysDup STDIN_FILENO b]
             (SysWaitpid pid));
      [| reflexivity | unfold tB, tA; lookup_std].
    apply (history_snoc t tA tB [SysFork pid; SysDup STDOUT_FILENO a]
             (SysDup STDIN_FILENO b));
      [| apply (apply_dup tA 0 b f0); [lia | exact HA0] | unfold tB, tA; lookup_std].
    apply (history_snoc t t tA [SysFork pid] (SysDup STDOUT_FILENO a));
      [| apply (apply_dup t 1 a f1); [lia | exact H1'] | unfold tA; lookup_std].
    apply (history_snoc t t t [] (SysFork pid)); [| reflexivity | lookup_std].
    apply history_nil.
Qed.

End ParentHistory.
(** ** Statements about pipelines *)

(** C5: a pipeline of N stages (N >= 1) launched by [executePipedCommand]
    creates exactly N-1 pipes and forks exactly N processes, one per stage;
    the pipe created k-th is bound to the standard output of stage k and to
    the standard input of stage k+1.  This holds whenever the launch runs
    to its end, and it does so on every host where [pipe] and [fork]
    succeed. *)
Theorem pipeline_allocates_pipes_and_processes
    (os : OS) (tokens : list string) (s : shell) :
  tokens <> [] -> std_open (fdt (self s)) ->
  (forall s', executePipedCommand os tokens s = Ret tt s' ->
              pipeline_launched s s' (length (split_commands tokens))) /\
  ((forall m, fork_ok os m = true) -> (forall m, pipe_ok os m = true) ->
   exists s', executePipedCommand os tokens s = Ret tt s').
Proof.
  intros Hne Hstd. split; [| apply executePipedCommand_returns].
  intros s' Hrun.
  destruct (executePipedCommand_spec os tokens s s' Hrun Hstd)
    as (Hpipes & Hstages & Hfk & _).
  pose proof (split_commands_nonempty tokens Hne) as Hcmds.
  pose proof (stages_ok_length _ _ _ _ _ _ Hstages) as Hlen.
  set (commands := split_commands tokens) in *.
  assert (Hpos : (1 <= length commands)%nat)
    by (destruct commands; [contradiction | simpl; lia]).
  split; [exact Hpos |].
  split; [rewrite Hpipes; lia |].
  split; [exact Hlen |].
  split; [rewrite Hfk, length_map; exact Hlen |].
  intros k Hk.
  destruct (nth_error commands k) as [ck |] eqn:Ek;
    [| apply nth_error_None in Ek; lia].
  destruct (nth_error commands (S k)) as [ck' |] eqn:Ek';
    [| apply nth_error_None in Ek'; lia].
  destruct (stages_ok_nth _ _ _ _ _ _ _ _ Hstages Ek) as (p & Hp & Hpl & Hpout & _).
  destruct (stages_ok_nth _ _ _ _ _ _ _ _ Hstages Ek') as (c & Hc & Hcl & _ & Hcin & _).
  exists p, c. split; [exact Hp |]. split; [exact Hc |].
  split; [exact Hpl |]. split; [exact Hcl |]. split.
  - apply Hpout. unfold size. lia.
  - apply Hcin. lia.
Qed.

Lemma pipeline_allocates_pipes_and_processes_witness :
  let tokens := ["cat"; "in.txt"; "|"; "grep"; "x"; "|"; "wc"; "-l"]%string in
  tokens <> [] /\ std_open (fdt (self initial_shell)) /\
  exists s',
    executePipedCommand friendly tokens initial_shell = Ret tt s' /\
    pipeline_launched initial_shell s' 3.
Proof.
  intros tokens.
  assert (Hne : tokens <> []) by discriminate.
  assert (Hstd : std_open (fdt (self initial_shell)))
    by (split; vm_compute; discriminate).
  split; [exact Hne |]. split; [exact Hstd |].
  destruct (pipeline_allocates_pipes_and_processes friendly tokens initial_shell
              Hne Hstd) as [Hfacts Hreturns].
  destruct (Hreturns (fun _ => eq_refl) (fun _ => eq_refl)) as (s' & Hrun).
  exists s'. split; [exact Hrun |]. exact (Hfacts s' Hrun).
Defined.

(** C2, as the code has it: [executePipedCommand] waits for every process
    it forked, in the order of the forks, and discards each status; what it
    leaves to the command loop does not depend on any status.  Every stage
    is forked whatever the earlier stages do. *)
Theorem pipeline_waits_and_discards_status
    (os : OS) (tokens : list string) (s : shell) :
  std_open (fdt (self s)) ->
  (forall status, executePipedCommand (set_wait_status os status) tokens s
                  = executePipedCommand os tokens s) /\
  (forall s', executePipedCommand os tokens s = Ret tt s' ->
     length (spawned s s') = length (split_commands tokens) /\
     forked (called s s') = map c_pid (spawned s s') /\
     waited (called s s') = map c_pid (spawned s s')).
Proof.
  intros Hstd. split.
  - intros status. unfold executePipedCommand.
    set (commands := split_commands tokens).
    change (launch_loop (set_wait_status os status))
      with (launch_loop os).
    unfold bind. destruct (launch_loop os (size commands) 0 commands STDIN_FILENO [] [] s)
      as [[fds pids] s1 | h s1]; [| reflexivity].
    destruct (close_all fds s1) as [[] s2 | h s2]; [| reflexivity].
    clear. revert s2. induction pids as [| pid pids IH]; intros s2; [reflexivity |].
    cbn [wait_all]. unfold bind, sys_waitpid, lift, emit, ret. simpl. apply IH.
  - intros s' Hrun.
    destruct (executePipedCommand_spec os tokens s s' Hrun Hstd)
      as (_ & Hstages & Hfk & Hwt).
    split; [eapply stages_ok_length; exact Hstages |]. split; assumption.
Qed.

Lemma pipeline_waits_and_discards_status_witness :
  std_open (fdt (self initial_shell)) /\
  (forall status,
     executePipedCommand (set_wait_status friendly status) ["ls"; "|"; "wc"]%string
       initial_shell
     = executePipedCommand friendly ["ls"; "|"; "wc"]%string initial_shell) /\
  (forall s',
     executePipedCommand friendly ["ls"; "|"; "wc"]%string initial_shell = Ret tt s' ->
     length (spawned initial_shell s') = length (split_commands ["ls"; "|"; "wc"]%string) /\
     forked (called initial_shell s') = map c_pid (spawned initial_shell s') /\
     waited (called initial_shell s') = map c_pid (spawned initial_shell s')).
Proof.
  assert (H : std_open (fdt (self initial_shell)))
    by (split; vm_compute; discriminate).
  split; [exact H |].
  exact (pipeline_waits_and_discards_status friendly ["ls"; "|"; "wc"]%string
           initial_shell H).
Defined.

(** C2, as stated, fails: on the line [ls | false] the status of the last
    stage differs between two hosts, and [executePipedCommand] hands the
    same result to the command loop on both. *)
Lemma pipeline_status_not_reported :
  let tokens := ["ls"; "|"; "false"]%string in
  let failing := set_wait_status friendly (fun pid => if pid =? 101 then 256 else 0) in
  map c_pid (spawned initial_shell
               (final (executePipedCommand friendly tokens initial_shell)))
  = [100; 101] /\
  wait_status friendly 101 = 0 /\
  wait_status failing 101 = 256 /\
  executePipedCommand failing tokens initial_shell
  = executePipedCommand friendly tokens initial_shell.
Proof.
  vm_compute. repeat split; reflexivity.
Qed.

Lemma findTokenIndex_from_nil_or_found (tokens : list string) (token : string) :
  forall i, findTokenIndex_from i tokens token <> -1 -> tokens <> [].
Proof. intros i H ->. now apply H. Qed.

(** A validated line that holds a pipe and does not end in [&] goes to
    [executePipedCommand] with all its tokens. *)
Lemma main_body_piped (os : OS) (line : string) (s : shell) :
  let tokens := tokenize (checkWhiteSpaces line) in
  validated tokens = true ->
  findTokenIndex tokens "|" <> -1 ->
  isBackgroundCommand (checkWhiteSpaces line) = false ->
  main_body os line s = executePipedCommand os tokens s.
Proof.
  intros tokens Hval Hpipe Hbg. unfold main_body. fold tokens.
  assert (Hne : tokens <> [])
    by (eapply findTokenIndex_from_nil_or_found; exact Hpipe).
  unfold validated in Hval.
  destruct tokens as [| t0 rest] eqn:Etok; [contradiction |].
  destruct (hasMultipleRedirectionsOrPipes (t0 :: rest)); [discriminate |].
  destruct (hasSyntaxErrors (t0 :: rest)); [discriminate |].
  rewrite Hbg. unfold bind at 1. unfold ret at 1.
  apply Z.eqb_neq in Hpipe. rewrite Hpipe. reflexivity.
Qed.

(** C3, as the code has it: a validated line with a redirect token on an
    interior stage or on the wrong end is not rejected.  Every stage is
    forked.  An interior stage opens no file and hands all its tokens,
    redirect tokens included, to [execvp].  The first stage of a longer
    pipeline, when the file of its [<] redirection can be opened, runs its
    tokens without that redirection and nothing else removed.  The last
    stage leaves without running anything exactly when it has a complete
    [>] redirection whose file cannot be opened; otherwise it runs its
    tokens without that redirection and nothing else removed.  So a stage
    after the first that has no complete [>] redirection runs all its
    tokens: a [<] there stays among the arguments. *)
Theorem misplaced_redirect_tokens_are_launched
    (os : OS) (line : string) (s : shell) :
  let tokens := tokenize (checkWhiteSpaces line) in
  validated tokens = true ->
  findTokenIndex tokens "|" <> -1 ->
  isBackgroundCommand (checkWhiteSpaces line) = false ->
  std_open (fdt (self s)) ->
  (forall m, fork_ok os m = true) -> (forall m, pipe_ok os m = true) ->
  exists s',
    main_body os line s = Ret tt s' /\
    let commands := split_commands tokens in
    let N := size commands in
    length (spawned s s') = length commands /\
    forall i command,
      nth_error commands i = Some command ->
      exists c,
        nth_error (spawned s s') i = Some c /\
        c_launcher c = ByPiped (Z.of_nat i) /\
        (0 < Z.of_nat i < N - 1 ->
         In (SysExecvp (segment_args command)) (trace (c_proc c)) /\
         opens (trace (c_proc c)) = false) /\
        (Z.of_nat i = 0 -> 0 < N - 1 ->
         (complete_redirect "<" command = true ->
          open_ok os (redirect_file "<" command) false = true) ->
         In (SysExecvp (segment_args (strip_redirect "<" command)))
            (trace (c_proc c))) /\
        (0 < Z.of_nat i -> Z.of_nat i = N - 1 ->
         (complete_redirect ">" command = true /\
          open_ok os (redirect_file ">" command) true = false /\
          c_halt c = Exited EXIT_FAILURE /\
          forall argv, ~ In (SysExecvp argv) (trace (c_proc c)))
         \/ ((complete_redirect ">" command = true ->
              open_ok os (redirect_file ">" command) true = true) /\
             In (SysExecvp (segment_args (strip_redirect ">" command)))
                (trace (c_proc c)))) /\
        (0 < Z.of_nat i -> complete_redirect ">" command = false ->
         In (SysExecvp (segment_args command)) (trace (c_proc c))).
Proof.
  intros tokens Hval Hpipe Hbg Hstd Hfork Hpok.
  rewrite (main_body_piped os line s Hval Hpipe Hbg). fold tokens.
  destruct (executePipedCommand_returns os tokens s Hfork Hpok) as (s' & Hrun).
  exists s'. split; [exact Hrun |].
  destruct (executePipedCommand_spec os tokens s s' Hrun Hstd)
    as (_ & Hstages & _ & _).
  pose proof (executePipedCommand_stages_run os tokens s s' Hrun) as Hruns.
  cbv zeta. split; [eapply stages_ok_length; exact Hstages |].
  intros i command Hi.
  destruct (stages_ok_nth _ _ _ _ _ _ _ _ Hstages Hi)
    as (c & Hc & Hl & _ & _ & Hargv & Hopens).
  destruct (stages_run_nth os _ _ _ _ _ _ Hruns Hi) as (c' & Hc' & _ & Hchild).
  rewrite Hc in Hc'. injection Hc' as <-.
  rewrite Z.add_0_l in Hl, Hargv, Hopens, Hchild.
  exists c. split; [exact Hc |]. split; [exact Hl |].
  unfold stage_argv in Hargv.
  assert (Hlast : 0 < Z.of_nat i -> Z.of_nat i = size (split_commands tokens) - 1 ->
            (complete_redirect ">" command = true /\
             open_ok os (redirect_file ">" command) true = false /\
             c_halt c = Exited EXIT_FAILURE /\
             forall argv, ~ In (SysExecvp argv) (trace (c_proc c)))
            \/ ((complete_redirect ">" command = true ->
                 open_ok os (redirect_file ">" command) true = true) /\
                In (SysExecvp (segment_args (strip_redirect ">" command)))
                   (trace (c_proc c)))).
  { intros Hpos Hend.
    destruct Hchild as (in_fd & fd & t & Hrunc).
    pose proof (piped_child_last os (size (split_commands tokens)) (Z.of_nat i)
                  command in_fd fd t Hend) as Hcase.
    cbv zeta in Hcase. rewrite <- Hrunc in Hcase. cbn [fst snd] in Hcase.
    unfold stage_argv in Hcase.
    assert (E0 : (Z.of_nat i =? 0) = false) by (apply Z.eqb_neq; lia).
    rewrite E0 in Hcase. rewrite (proj2 (Z.eqb_eq _ _) Hend) in Hcase.
    exact Hcase. }
  split; [| split; [| split]].
  - intros Hmid. split; [| now apply Hopens].
    destruct Hargv as [Hin | [Hend _]]; [| lia].
    assert (E0 : (Z.of_nat i =? 0) = false) by (apply Z.eqb_neq; lia).
    assert (E1 : (Z.of_nat i =? size (split_commands tokens) - 1) = false)
      by (apply Z.eqb_neq; lia).
    rewrite E0, E1 in Hin. exact Hin.
  - intros Hzero Hlong _.
    destruct Hargv as [Hin | [Hend _]]; [| lia].
    assert (E1 : (Z.of_nat i =? size (split_commands tokens) - 1) = false)
      by (apply Z.eqb_neq; lia).
    rewrite Hzero in Hin. rewrite Hzero in E1. rewrite E1 in Hin. exact Hin.
  - exact Hlast.
  - intros Hpos Hnone.
    destruct (Z.eq_dec (Z.of_nat i) (size (split_commands tokens) - 1)) as [Hend | Hmid].
    + destruct (Hlast Hpos Hend) as [(Hyes & _) | (_ & Hin)]; [congruence |].
      unfold strip_redirect in Hin. unfold complete_redirect in Hnone.
      cbv zeta in Hnone. rewrite Hnone in Hin. exact Hin.
    + destruct Hargv as [Hin | [Hend _]]; [| contradiction].
      assert (E0 : (Z.of_nat i =? 0) = false) by (apply Z.eqb_neq; lia).
      assert (E1 : (Z.of_nat i =? size (split_commands tokens) - 1) = false)
        by (apply Z.eqb_neq; lia).
      rewrite E0, E1 in Hin. exact Hin.
Qed.

Lemma misplaced_redirect_tokens_are_launched_witness :
  exists s',
    main_body friendly "a | b < f" initial_shell = Ret tt s' /\
    let commands := split_commands (tokenize (checkWhiteSpaces "a | b < f")) in
    let N := size commands in
    length (spawned initial_shell s') = length commands /\
    forall i command,
      nth_error commands i = Some command ->
      exists c,
        nth_error (spawned initial_shell s') i = Some c /\
        c_launcher c = ByPiped (Z.of_nat i) /\
        (0 < Z.of_nat i < N - 1 ->
         In (SysExecvp (segment_args command)) (trace (c_proc c)) /\
         opens (trace (c_proc c)) = false) /\
        (Z.of_nat i = 0 -> 0 < N - 1 ->
         (complete_redirect "<" command = true ->
          open_ok friendly (redirect_file "<" command) false = true) ->
         In (SysExecvp (segment_args (strip_redirect "<" command)))
            (trace (c_proc c))) /\
        (0 < Z.of_nat i -> Z.of_nat i = N - 1 ->
         (complete_redirect ">" command = true /\
          open_ok friendly (redirect_file ">" command) true = false /\
          c_halt c = Exited EXIT_FAILURE /\
          forall argv, ~ In (SysExecvp argv) (trace (c_proc c)))
         \/ ((complete_redirect ">" command = true ->
              open_ok friendly (redirect_file ">" command) true = true) /\
             In (SysExecvp (segment_args (strip_redirect ">" command)))
                (trace (c_proc c)))) /\
        (0 < Z.of_nat i -> complete_redirect ">" command = false ->
         In (SysExecvp (segment_args command)) (trace (c_proc c))).
Proof.
  apply (misplaced_redirect_tokens_are_launched friendly "a | b < f"
           initial_shell).
  - reflexivity.
  - vm_compute. discriminate.
  - reflexivity.
  - split; vm_compute; discriminate.
  - intros m. reflexivity.
  - intros m. reflexivity.
Defined.

(** C3, as stated, fails: [a | b < f | c] has an input redirection on an
    interior stage and [a > x | b] an output redirection on the first
    stage; both lines pass the validators, every stage is started, and the
    redirect tokens are arguments of the command. *)
Lemma interior_redirect_not_rejected :
  validated (tokenize (checkWhiteSpaces "a | b < f | c")) = true /\
  map c_halt (spawned initial_shell
                (final (main_body friendly "a | b < f | c" initial_shell)))
  = [Execed ["a"]; Execed ["b"; "<"; "f"]; Execed ["c"]]%string /\
  validated (tokenize (checkWhiteSpaces "a > x | b")) = true /\
  map c_halt (spawned initial_shell
                (final (main_body friendly "a > x | b" initial_shell)))
  = [Execed ["a"; ">"; "x"]; Execed ["b"]]%string.
Proof.
  vm_compute. repeat split; reflexivity.
Qed.

(** ** Statements about [executeCommand] *)









(** C8, as the code has it: around [waitpid] the parent of
    [executeCommand] duplicates the standard descriptor of each redirect
    operator on the line and binds it again from the copy.  With standard
    input and output open, the copies are other descriptors, and at no
    moment of the call is the parent's standard input or standard output
    bound to anything but what it was bound to before: replaying the
    parent's calls one by one on its descriptor table leaves both bindings
    as they were after every call.  After the call every descriptor of the
    parent is bound as before, and the parent opens no file: the files
    named on the line are opened, and bound to standard streams, in the
    child only. *)
Theorem parent_bindings_survive_executeCommand
    (os : OS) (tokens : list string) (s : shell) :
  std_open (fdt (self s)) ->
  let s' := final (executeCommand os tokens s) in
  same_bindings (fdt (self s)) (fdt (self s')) /\
  opens (called s s') = false /\
  replay (fdt (self s)) (called s s') = Some (fdt (self s')) /\
  (forall k, exists t,
      replay (fdt (self s)) (firstn k (called s s')) = Some t /\
      same_std (fdt (self s)) t) /\
  (fork_ok os (forks s) = true ->
   exists saved_stdout saved_stdin,
     1 < saved_stdout /\ 1 < saved_stdin /\
     called s s'
     = [SysFork (Z.pos (next_pid s))]
       ++ (if findTokenIndex tokens ">" =? -1 then []
           else [SysDup STDOUT_FILENO saved_stdout])
       ++ (if findTokenIndex tokens "<" =? -1 then []
           else [SysDup STDIN_FILENO saved_stdin])
       ++ [SysWaitpid (Z.pos (next_pid s))]
       ++ (if findTokenIndex tokens ">" =? -1 then []
           else [SysDup2 saved_stdout STDOUT_FILENO; SysClose saved_stdout])
       ++ (if findTokenIndex tokens "<" =? -1 then []
           else [SysDup2 saved_stdin STDIN_FILENO; SysClose saved_stdin])).
Proof.
  intros Hstd s'.
  destruct (executeCommand_parent os tokens s Hstd) as [Hsame Hopens].
  split; [exact Hsame |]. split; [exact Hopens |].
  destruct (fork_ok os (forks s)) eqn:Hfork.
  - destruct (executeCommand_parent_history os tokens s Hstd Hfork)
      as (s1 & a & b & Hrun & Ha & Hb & Htr & Hreplay & Hprefix).
    unfold s'. rewrite Hrun. cbn [final].
    split; [exact Hreplay |]. split; [exact Hprefix |].
    intros _. exists a, b. split; [exact Ha |]. split; [exact Hb |].
    apply called_app. exact Htr.
  - assert (Hrun : executeCommand os tokens s
                   = Halt (Exited EXIT_FAILURE)
                       (mkShell
                          (mkProc (fdt (self s))
                             (trace (self s)
                              ++ [SysFork (-1); Cerr "Failed to fork process"]))
                          (S (forks s)) (pipe_calls s) (pipes s) (next_pid s)
                          (children s))).
    { unfold executeCommand, bind at 1, sys_fork. rewrite Hfork. cbn.
      now rewrite <- app_assoc. }
    unfold s'. rewrite Hrun. cbn [final].
    rewrite (called_app s _ [SysFork (-1); Cerr "Failed to fork process"])
      by reflexivity.
    cbn [self fdt].
    assert (Hown : same_std (fdt (self s)) (fdt (self s))) by (split; reflexivity).
    split; [| split; [| discriminate]].
    + apply (history_snoc (fdt (self s)) (fdt (self s)) (fdt (self s))
               [SysFork (-1)] (Cerr "Failed to fork process"));
        [| reflexivity | exact Hown].
      apply (history_snoc (fdt (self s)) (fdt (self s)) (fdt (self s))
               [] (SysFork (-1))); [| reflexivity | exact Hown].
      apply history_nil.
    + apply (history_snoc (fdt (self s)) (fdt (self s)) (fdt (self s))
               [SysFork (-1)] (Cerr "Failed to fork process"));
        [| reflexivity | exact Hown].
      apply (history_snoc (fdt (self s)) (fdt (self s)) (fdt (self s))
               [] (SysFork (-1))); [| reflexivity | exact Hown].
      apply history_nil.
Qed.

Lemma parent_bindings_survive_executeCommand_witness :
  let tokens := ["sort"; "<"; "in.txt"; ">"; "out.txt"]%string in
  std_open (fdt (self initial_shell)) /\
  let s' := final (executeCommand friendly tokens initial_shell) in
  same_bindings (fdt (self initial_shell)) (fdt (self s')) /\
  opens (called initial_shell s') = false /\
  replay (fdt (self initial_shell)) (called initial_shell s') = Some (fdt (self s')) /\
  (forall k, exists t,
      replay (fdt (self initial_shell)) (firstn k (called initial_shell s')) = Some t /\
      same_std (fdt (self initial_shell)) t) /\
  (fork_ok friendly (forks initial_shell) = true ->
   exists saved_stdout saved_stdin,
     1 < saved_stdout /\ 1 < saved_stdin /\
     called initial_shell s'
     = [SysFork (Z.pos (next_pid initial_shell))]
       ++ (if findTokenIndex tokens ">" =? -1 then []
           else [SysDup STDOUT_FILENO saved_stdout])
       ++ (if findTokenIndex tokens "<" =? -1 then []
           else [SysDup STDIN_FILENO saved_stdin])
       ++ [SysWaitpid (Z.pos (next_pid initial_shell))]
       ++ (if findTokenIndex tokens ">" =? -1 then []
           else [SysDup2 saved_stdout STDOUT_FILENO; SysClose saved_stdout])
       ++ (if findTokenIndex tokens "<" =? -1 then []
           else [SysDup2 saved_stdin STDIN_FILENO; SysClose saved_stdin])).
Proof.
  intros tokens.
  assert (H : std_open (fdt (self initial_shell)))
    by (split; vm_compute; discriminate).
  split; [exact H |].
  exact (parent_bindings_survive_executeCommand friendly tokens initial_shell H).
Defined.

(** C8, as stated, fails: for [echo hi > out.txt] the parent itself calls
    [dup] on its standard output and [dup2] onto it. *)
Lemma parent_duplicates_and_rebinds_its_stdout :
  let s' := final (executeCommand friendly ["echo"; "hi"; ">"; "out.txt"]%string
                     initial_shell) in
  called initial_shell s'
  = [SysFork 100; SysDup STDOUT_FILENO 3; SysWaitpid 100;
     SysDup2 3 STDOUT_FILENO; SysClose 3] /\
  existsb touches_std (called initial_shell s') = true /\
  map (fun c => trace (c_proc c)) (spawned initial_shell s')
  = [[SysOpen "out.txt" true 3; SysDup2 3 STDOUT_FILENO; SysClose 3;
      SysExecvp ["echo"; "hi"]%string]].
Proof.
  vm_compute. repeat split; reflexivity.
Qed.

(** ** Statements about the command loop *)

(** C7, as the code has it: the identifier of a child forked by
    [executeCommandInBackground] is not kept, and in no session does the
    shell wait for it: every [waitpid] of the command loop names a child
    forked in the foreground. *)
Theorem background_children_are_never_waited_for
    (os : OS) (lines : list string) (s : shell) :
  accounted s ->
  forall c, In c (children (final (main_loop os lines s))) ->
            is_background c = true ->
            ~ In (c_pid c) (waited (trace (self (final (main_loop os lines s))))).
Proof.
  intros Hacc c Hc Hbg Hw.
  assert (Hfinal : accounted (final (main_loop os lines s))).
  { pose proof (main_loop_inv os lines s) as H.
    assert (Hinv : inv [] s) by (split; [exact Hacc | intros ? []]).
    specialize (H Hinv). destruct (main_loop os lines s); simpl; [apply H | exact H]. }
  destruct Hfinal as [_ Hwaited].
  destruct (Hwaited _ Hw) as [_ Hfg].
  rewrite (Hfg c Hc eq_refl) in Hbg. discriminate.
Qed.

Lemma initial_shell_accounted : accounted initial_shell.
Proof. split; simpl; intros ? []. Qed.

Lemma background_children_are_never_waited_for_witness :
  accounted initial_shell /\
  forall c,
    In c (children (final (main_loop friendly ["sleep 1 &"; "ls"]%string initial_shell))) ->
    is_background c = true ->
    ~ In (c_pid c)
        (waited (trace (self (final (main_loop friendly ["sleep 1 &"; "ls"]%string
                                       initial_shell))))).
Proof.
  split; [exact initial_shell_accounted |].
  exact (background_children_are_never_waited_for friendly ["sleep 1 &"; "ls"]%string
           initial_shell initial_shell_accounted).
Defined.

(** C7, as stated, fails: after [sleep 1 &] the loop takes two more lines
    and reaches end of file; the background child 100 is among the
    children and was never waited for. *)
Lemma background_child_left_unreaped :
  let s' := final (main_loop friendly ["sleep 1 &"; "ls"; "ls"]%string initial_shell) in
  map (fun c => (c_pid c, c_launcher c)) (children s')
  = [(100, ByBackground); (101, BySingle); (102, BySingle); (103, BySingle)] /\
  waited (trace (self s')) = [101; 102; 103] /\
  ~ In 100 (waited (trace (self s'))).
Proof.
  vm_compute. split; [reflexivity |]. split; [reflexivity |].
  intros [H | [H | [H | []]]]; discriminate.
Qed.

(** C1: on the line [sleep 5 &], whose last token is the background
    marker, the loop body forks the background child and then runs the same
    tokens once more in the foreground and waits for that second child. *)
Theorem background_line_runs_again_in_foreground :
  let line := "sleep 5 &"%string in
  let s' := final (main_body friendly line initial_shell) in
  last (tokenize (checkWhiteSpaces line)) ""%string = "&"%string /\
  isBackgroundCommand (checkWhiteSpaces line) = true /\
  called initial_shell s' = [SysFork 100; SysFork 101; SysWaitpid 101] /\
  map (fun c => (c_pid c, c_launcher c, c_halt c)) (spawned initial_shell s')
  = [(100, ByBackground, Execed ["sleep"; "5"; "&"]%string);
     (101, BySingle, Execed ["sleep"; "5"; "&"]%string)].
Proof.
  vm_compute. repeat split; reflexivity.
Qed.

(** C6: the marker is still among the tokens when the validators run and
    when the argument vectors are built: [ls | &] is accepted although
    [ls |] is rejected, and on [ls &] both children receive [&] as an
    argument; only the raw line loses its last character, after
    validation. *)
Theorem background_marker_stays_in_tokens :
  validated ["ls"; "|"; "&"]%string = true /\
  validated ["ls"; "|"]%string = false /\
  tokenize (checkWhiteSpaces "ls &") = ["ls"; "&"]%string /\
  map c_halt (spawned initial_shell (final (main_body friendly "ls &" initial_shell)))
  = [Execed ["ls"; "&"]%string; Execed ["ls"; "&"]%string] /\
  map c_halt (spawned initial_shell (final (main_body friendly "ls | &" initial_shell)))
  = [Execed ["ls"; "|"; "&"]%string; Execed ["ls"%string]; Execed ["&"%string]].
Proof.
  vm_compute. repeat split; reflexivity.
Qed.

(** C4: in a pipeline whose first stage names an input file that cannot
    be opened, the child of that stage prints a message and goes on to
    [execvp] instead of leaving with a failure status; the single-command
    executor does leave with [EXIT_FAILURE] in the same situation. *)
Theorem piped_input_open_failure_still_executes :
  let os := host_with_files (fun _ => false) in
  let s' := final (main_body os "true < missing | cat" initial_shell) in
  map (fun c => (c_launcher c, c_halt c)) (spawned initial_shell s')
  = [(ByPiped 0, Execed ["true"%string]); (ByPiped 1, Execed ["cat"%string])] /\
  map (fun c => trace (c_proc c)) (firstn 1 (spawned initial_shell s'))
  = [[SysOpen "missing" false (-1);
      Perror "syntax error, unexpected PIPE, expecting STRING";
      SysDup2 (-1) 0; SysClose (-1); SysDup2 (-1) 0; SysClose (-1);
      SysDup2 4 1; SysClose 3; SysClose 4; SysExecvp ["true"%string]]] /\
  map (fun c => (c_halt c, trace (c_proc c)))
      (spawned initial_shell (final (main_body os "true < missing" initial_shell)))
  = [(Exited EXIT_FAILURE,
      [SysOpen "missing" false (-1); Cerr "Failed to open input redirection file"])].
Proof.
  vm_compute. repeat split; reflexivity.
Qed.

(** ** The validators, said declaratively *)

Lemma count_cons (t x : string) (l : list string) :
  count (x :: l) t = (if String.eqb t x then 1 else 0) + count l t.
Proof. unfold count. simpl. destruct (String.eqb t x); simpl length; lia. Qed.

Lemma size_app {A : Type} (a b : list A) : size (a ++ b) = size a + size b.
Proof. unfold size. rewrite length_app. lia. Qed.

Lemma at_app_right (pre rest : list string) (k : Z) :
  0 <= k -> at_ (pre ++ rest) (size pre + k) = at_ rest k.
Proof.
  intros Hk. unfold at_, size.
  replace (Z.to_nat (Z.of_nat (length pre) + k)) with (length pre + Z.to_nat k)%nat by lia.
  rewrite app_nth2_plus. reflexivity.
Qed.

Lemma at_app_last (pre rest : list string) :
  pre <> [] -> at_ (pre ++ rest) (size pre - 1) = last pre ""%string.
Proof.
  intros Hne. destruct (exists_last Hne) as (pre' & x & ->).
  rewrite last_last. unfold at_, size. rewrite length_app. simpl.
  replace (Z.to_nat (Z.of_nat (length pre' + 1) - 1)) with (length pre' + 0)%nat by lia.
  rewrite <- app_assoc. rewrite app_nth2_plus. reflexivity.
Qed.

Lemma size_pre_zero (pre : list string) : (size pre =? 0) = nil_b pre.
Proof. destruct pre; reflexivity. Qed.

(** The loop of [hasSyntaxErrors] accepts exactly when the counts stay
    below two and every token is well placed. *)
Lemma hasSyntaxErrors_loop_placed (rest : list string) :
  forall (pre : list string) (a b c : Z),
    a <= 1 -> b <= 1 ->
    is_none (hasSyntaxErrors_loop (pre ++ rest) (size pre) a b c
               (last pre ""%string) rest)
    = (a + count rest "<" <=? 1) && (b + count rest ">" <=? 1)
      && placed_ok (nil_b pre) (last pre ""%string) rest.
Proof.
  induction rest as [| t rest' IH]; intros pre a b c Ha Hb.
  - simpl. change (count [] "<") with 0. change (count [] ">") with 0.
    rewrite !Z.add_0_r. rewrite (proj2 (Z.leb_le a 1) Ha), (proj2 (Z.leb_le b 1) Hb).
    reflexivity.
  - assert (Hstep : forall a' b' c',
               a' <= 1 -> b' <= 1 ->
               is_none (hasSyntaxErrors_loop (pre ++ t :: rest') (size pre + 1) a' b' c'
                          t rest')
               = (a' + count rest' "<" <=? 1) && (b' + count rest' ">" <=? 1)
                 && placed_ok false t rest').
    { intros a' b' c' Ha' Hb'.
      specialize (IH (pre ++ [t]) a' b' c' Ha' Hb').
      rewrite <- app_assoc, size_app, last_last in IH. simpl in IH.
      change (size [t]) with 1 in IH. rewrite IH.
      destruct pre; reflexivity. }
    assert (Hprev : forall (x : bool), (size pre =? 0) || String.eqb (at_ (pre ++ t :: rest') (size pre - 1)) "|" || x
                    = nil_b pre || String.eqb (last pre ""%string) "|" || x).
    { intros x. rewrite size_pre_zero. destruct pre as [| p pre']; [reflexivity |].
      rewrite at_app_last by discriminate. reflexivity. }
    assert (Hlast : (size pre =? size (pre ++ t :: rest') - 1) = nil_b rest').
    { rewrite size_app, size_cons.
      destruct rest' as [| x r]; unfold nil_b.
      - apply Z.eqb_eq. change (size (@nil string)) with 0. lia.
      - apply Z.eqb_neq. rewrite size_cons. pose proof (size_nonneg r). lia. }
    cbn [hasSyntaxErrors_loop placed_ok]. rewrite !count_cons.
    unfold is_redirect.
    destruct (String.eqb_spec t "<") as [-> | Hlt].
    + simpl String.eqb. cbv iota. rewrite Hprev.
      destruct (Z.eq_dec a 1) as [-> | Hane].
      * replace (1 + 1 >? 1) with true by reflexivity.
        rewrite !orb_true_r. cbn [is_none orb andb negb].
        pose proof (count_nonneg rest' "<").
        rewrite (proj2 (Z.leb_gt _ _)) by lia. reflexivity.
      * replace (a + 1 >? 1) with false by (symmetry; rewrite Z.gtb_ltb; apply Z.ltb_ge; lia).
        rewrite orb_false_r.
        destruct (nil_b pre || String.eqb (last pre ""%string) "|") eqn:E.
        { cbn [is_none orb andb negb]. apply orb_true_iff in E.
          destruct E as [-> | ->]; cbn [is_none orb andb negb]; rewrite ?andb_false_r; reflexivity. }
        apply orb_false_iff in E. destruct E as [-> ->].
        rewrite Hstep by lia. cbn [is_none orb andb negb].
        replace (a + (1 + count rest' "<")) with (a + 1 + count rest' "<") by lia.
        replace (b + (0 + count rest' ">")) with (b + count rest' ">") by lia.
        reflexivity.
    + destruct (String.eqb_spec "<" t) as [E | _]; [congruence |].
      destruct (String.eqb_spec t ">") as [-> | Hgt].
      * simpl String.eqb. cbv iota. rewrite Hprev.
        destruct (Z.eq_dec b 1) as [-> | Hbne].
        { replace (1 + 1 >? 1) with true by reflexivity.
          rewrite !orb_true_r. cbn [is_none orb andb negb].
          pose proof (count_nonneg rest' ">").
          rewrite (proj2 (Z.leb_gt (1 + (1 + count rest' ">")) 1)) by lia.
          rewrite andb_false_r. reflexivity. }
        replace (b + 1 >? 1) with false by (symmetry; rewrite Z.gtb_ltb; apply Z.ltb_ge; lia).
        rewrite orb_false_r.
        destruct (nil_b pre || String.eqb (last pre ""%string) "|") eqn:E.
        { cbn [is_none orb andb negb]. apply orb_true_iff in E.
          destruct E as [-> | ->]; cbn [is_none orb andb negb]; rewrite ?andb_false_r; reflexivity. }
        apply orb_false_iff in E. destruct E as [-> ->].
        rewrite Hstep by lia. cbn [is_none orb andb negb].
        replace (a + (0 + count rest' "<")) with (a + count rest' "<") by lia.
        replace (b + (1 + count rest' ">")) with (b + 1 + count rest' ">") by lia.
        reflexivity.
      * destruct (String.eqb_spec ">" t) as [E | _]; [congruence |].
        simpl orb. cbv iota.
        rewrite !Z.add_0_l.
        destruct (String.eqb_spec t "|") as [-> | Hpipe].
        { rewrite size_pre_zero, Hlast.
          change (match rest' with [] => true | _ :: _ => false end) with (nil_b rest').
          destruct (String.eqb (last pre ""%string) "|" || nil_b pre || nil_b rest') eqn:E.
          - cbn [is_none orb andb negb]. apply orb_true_iff in E. destruct E as [E | ->].
            + apply orb_true_iff in E.
              destruct E as [-> | ->]; cbn [is_none orb andb negb]; rewrite ?andb_false_r; reflexivity.
            + cbn [is_none orb andb negb]. rewrite ?andb_false_r. reflexivity.
          - apply orb_false_iff in E. destruct E as [E ->].
            apply orb_false_iff in E. destruct E as [-> ->].
            rewrite Hstep by lia. reflexivity. }
        rewrite Hstep by lia. reflexivity.
Qed.

Lemma hasSyntaxErrors_placed (tokens : list string) :
  is_none (hasSyntaxErrors tokens)
  = (count tokens "<" <=? 1) && (count tokens ">" <=? 1)
    && placed_ok true ""%string tokens.
Proof.
  unfold hasSyntaxErrors.
  apply (hasSyntaxErrors_loop_placed tokens [] 0 0 0); lia.
Qed.

Lemma at_app_here (pre rest : list string) :
  at_ (pre ++ rest) (size pre) = at_ rest 0.
Proof. rewrite <- (Z.add_0_r (size pre)). apply at_app_right. lia. Qed.

Lemma improper_mix_at_here (pre : list string) (t : string) (rest' : list string) :
  improper_mix_at (pre ++ t :: rest') (size pre)
  = String.eqb t "|"
    && ((negb (nil_b pre) && is_redirect (last pre ""%string))
        || match rest' with [] => false | next :: _ => is_redirect next end).
Proof.
  unfold improper_mix_at. rewrite at_app_here. change (at_ (t :: rest') 0) with t.
  f_equal. f_equal.
  - destruct pre as [| p pre']; [reflexivity |].
    rewrite at_app_last by discriminate.
    replace (size (p :: pre') >? 0) with true
      by (symmetry; rewrite size_cons; pose proof (size_nonneg pre');
          rewrite Z.gtb_ltb; apply Z.ltb_lt; lia).
    unfold is_redirect. simpl negb. simpl andb. apply orb_comm.
  - rewrite size_app, size_cons. destruct rest' as [| next r].
    + change (size (@nil string)) with 0.
      rewrite (proj2 (Z.ltb_ge _ _)) by lia. reflexivity.
    + rewrite size_cons. pose proof (size_nonneg r).
      rewrite (proj2 (Z.ltb_lt _ _)) by lia.
      rewrite at_app_right by lia. change (at_ (t :: next :: r) 1) with next.
      unfold is_redirect. simpl andb. apply orb_comm.
Qed.

Lemma improper_mix_mixed (rest : list string) :
  forall pre,
    existsb (improper_mix_at (pre ++ rest))
      (map Z.of_nat (seq (length pre) (length rest)))
    = mixed (nil_b pre) (last pre ""%string) rest.
Proof.
  induction rest as [| t rest' IH]; intros pre; [reflexivity |].
  cbn [length seq map existsb mixed].
  change (Z.of_nat (length pre)) with (size pre).
  rewrite improper_mix_at_here. f_equal.
  specialize (IH (pre ++ [t])).
  rewrite <- app_assoc, length_app, last_last in IH. simpl in IH.
  replace (length pre + 1)%nat with (S (length pre)) in IH by lia.
  rewrite IH. destruct pre; reflexivity.
Qed.

Lemma mixed_needs_both (rest : list string) :
  forall first prev,
    mixed first prev rest = true ->
    0 < count rest "|" /\
    ((first = false /\ is_redirect prev = true)
     \/ 0 < count rest "<" + count rest ">").
Proof.
  induction rest as [| t rest' IH]; intros first prev H; [discriminate |].
  cbn [mixed] in H. rewrite !count_cons.
  pose proof (count_nonneg rest' "|"). pose proof (count_nonneg rest' "<").
  pose proof (count_nonneg rest' ">").
  apply orb_true_iff in H. destruct H as [H | H].
  - apply andb_true_iff in H. destruct H as [Ht H]. apply String.eqb_eq in Ht. subst t.
    simpl String.eqb. split; [lia |].
    apply orb_true_iff in H. destruct H as [H | H].
    + apply andb_true_iff in H. destruct H as [Hf Hp]. left.
      split; [now destruct first | exact Hp].
    + right. destruct rest' as [| next r]; [discriminate |].
      rewrite !count_cons. pose proof (count_nonneg r "<"). pose proof (count_nonneg r ">").
      unfold is_redirect in H. apply orb_true_iff in H.
      destruct H as [H | H]; apply String.eqb_eq in H; subst next; simpl String.eqb; lia.
  - destruct (IH false t H) as [Hp Hr].
    split; [destruct (String.eqb "|" t); lia |].
    right. destruct Hr as [[_ Hr] | Hr].
    + unfold is_redirect in Hr. apply orb_true_iff in Hr.
      destruct Hr as [Hr | Hr]; apply String.eqb_eq in Hr; subst t; simpl String.eqb; lia.
    + destruct (String.eqb "<" t), (String.eqb ">" t); lia.
Qed.

Lemma hasMultiple_mixed (tokens : list string) :
  is_none (hasMultipleRedirectionsOrPipes tokens)
  = (count tokens "<" <=? 1) && (count tokens ">" <=? 1)
    && negb (mixed true ""%string tokens).
Proof.
  unfold hasMultipleRedirectionsOrPipes.
  rewrite (Z.gtb_ltb (count tokens "<") 1), (Z.gtb_ltb (count tokens ">") 1).
  rewrite !Z.leb_antisym.
  destruct (1 <? count tokens "<"); [reflexivity |].
  destruct (1 <? count tokens ">"); [reflexivity |].
  cbn [negb andb].
  pose proof (improper_mix_mixed tokens []) as Hmix. simpl in Hmix. rewrite Hmix.
  destruct (mixed true ""%string tokens) eqn:Em.
  - destruct (mixed_needs_both _ _ _ Em) as [Hp [[Hf _] | Hr]]; [discriminate |].
    rewrite !Z.gtb_ltb. rewrite (proj2 (Z.ltb_lt _ _) Hp).
    assert (E : (0 <? count tokens "<") || (0 <? count tokens ">") = true).
    { pose proof (count_nonneg tokens "<"). pose proof (count_nonneg tokens ">").
      destruct (Z.ltb_spec 0 (count tokens "<")); [reflexivity |].
      destruct (Z.ltb_spec 0 (count tokens ">")); [reflexivity | lia]. }
    rewrite E. reflexivity.
  - destruct ((count tokens "|" >? 0) && ((count tokens "<" >? 0) || (count tokens ">" >? 0)));
      reflexivity.
Qed.

Lemma last_cons_not (t : string) (rest : list string) :
  t <> "|"%string ->
  String.eqb (last (t :: rest) ""%string) "|" = String.eqb (last rest ""%string) "|".
Proof.
  intros Ht. destruct rest as [| x r]; [| reflexivity].
  simpl. now apply String.eqb_neq.
Qed.

Lemma pairs_ok_cons (a b : string) (l : list string) :
  pairs_ok (a :: b :: l) = negb (bad_pair a b) && pairs_ok (b :: l).
Proof. reflexivity. Qed.

Lemma placed_after_pipe (next : string) (r : list string) :
  is_redirect next = true -> placed_ok false "|" (next :: r) = false.
Proof. intros H. cbn [placed_ok]. rewrite H. reflexivity. Qed.

Lemma placed_pairs (rest : list string) :
  forall p,
    placed_ok false p rest && negb (mixed false p rest)
    = pairs_ok (p :: rest) && negb (String.eqb (last rest ""%string) "|").
Proof.
  induction rest as [| t rest' IH]; intros p; [reflexivity |].
  specialize (IH t). rewrite pairs_ok_cons.
  destruct (String.eqb_spec t "|") as [-> | Hpipe].
  - destruct rest' as [| next r].
    + cbn. rewrite !andb_false_r. reflexivity.
    + change (last ("|"%string :: next :: r) ""%string) with (last (next :: r) ""%string)
        in IH |- *.
      rewrite <- andb_assoc, <- IH.
      assert (Hc : forall A M,
                 placed_ok false p ("|"%string :: next :: r) = negb (String.eqb p "|") && A ->
                 mixed false p ("|"%string :: next :: r)
                 = (is_redirect p || is_redirect next) || M ->
                 (is_redirect next = true -> A = false) ->
                 placed_ok false p ("|"%string :: next :: r)
                 && negb (mixed false p ("|"%string :: next :: r))
                 = negb (bad_pair p "|") && (A && negb M)).
      { intros A M -> -> HA. unfold bad_pair, is_op. simpl String.eqb.
        rewrite !andb_true_r.
        destruct (is_redirect next); [rewrite HA by reflexivity |];
          destruct (String.eqb p "|"), (is_redirect p), A, M; reflexivity. }
      apply Hc.
      * cbn [placed_ok]. simpl String.eqb. unfold is_redirect at 1. simpl String.eqb.
        cbn [orb negb andb nil_b]. rewrite !andb_true_r. reflexivity.
      * cbn [mixed]. simpl String.eqb. cbn [negb andb]. reflexivity.
      * apply placed_after_pipe.
  - rewrite (last_cons_not t rest' Hpipe). rewrite <- andb_assoc, <- IH.
    assert (Hc : forall A M,
               placed_ok false p (t :: rest')
               = (if is_redirect t then negb (String.eqb p "|") else true) && A ->
               mixed false p (t :: rest') = M ->
               placed_ok false p (t :: rest') && negb (mixed false p (t :: rest'))
               = negb (bad_pair p t) && (A && negb M)).
    { intros A M -> ->. unfold bad_pair, is_op.
      apply String.eqb_neq in Hpipe. rewrite Hpipe. rewrite andb_false_r, orb_false_r.
      cbn [orb]. destruct (is_redirect t), (String.eqb p "|"), A, M; reflexivity. }
    apply Hc.
    + cbn [placed_ok]. apply String.eqb_neq in Hpipe. rewrite Hpipe.
      destruct (is_redirect t); reflexivity.
    + cbn [mixed]. apply String.eqb_neq in Hpipe. rewrite Hpipe. reflexivity.
Qed.

(** Both validators together, as one test on the token list. *)
Lemma validated_well_formed (tokens : list string) :
  validated tokens = well_formed tokens.
Proof.
  assert (Hv : validated tokens
               = is_none (hasMultipleRedirectionsOrPipes tokens)
                 && is_none (hasSyntaxErrors tokens)).
  { unfold validated. destruct (hasMultipleRedirectionsOrPipes tokens),
      (hasSyntaxErrors tokens); reflexivity. }
  rewrite Hv, hasMultiple_mixed, hasSyntaxErrors_placed. unfold well_formed.
  destruct (count tokens "<" <=? 1); [| reflexivity].
  destruct (count tokens ">" <=? 1); [| reflexivity].
  cbn [andb].
  destruct tokens as [| t rest]; [reflexivity |].
  cbn [placed_ok mixed hd]. cbn [negb andb orb].
  change (if is_redirect t then false
          else if String.eqb t "|" then negb (String.eqb ""%string "|") && false
                                        && negb (nil_b rest)
               else true)
    with (if is_redirect t then false
          else if String.eqb t "|" then false else true).
  unfold is_op at 1.
  destruct (String.eqb_spec t "|") as [-> | Hpipe].
  - cbn. rewrite ?andb_false_r. reflexivity.
  - rewrite (last_cons_not t rest Hpipe).
    cbn [orb andb negb].
    destruct (is_redirect t); cbn [orb andb negb]; [rewrite ?andb_false_r; reflexivity |].
    rewrite andb_comm, placed_pairs. apply andb_comm.
Qed.

(** The two validators together let a token sequence through exactly when
    it has at most one [<] and at most one [>], no operator in front, no
    pipe at the end, and no refused neighbours: no operator directly after
    a pipe and no pipe directly after a redirect operator. *)
Theorem validated_iff_well_formed (tokens : list string) :
  validated tokens = true <->
  count tokens "<" <= 1 /\ count tokens ">" <= 1 /\
  is_op (hd ""%string tokens) = false /\
  last tokens ""%string <> "|"%string /\
  pairs_ok tokens = true.
Proof.
  rewrite validated_well_formed. unfold well_formed.
  rewrite !andb_true_iff, !Z.leb_le, !negb_true_iff, String.eqb_neq. tauto.
Qed.

(** ** Searching and splitting token vectors *)

Lemma findTokenIndex_from_spec (tokens : list string) (token : string) :
  forall i,
    (findTokenIndex_from i tokens token = -1 /\ ~ In token tokens /\ True)
    \/ (i <= findTokenIndex_from i tokens token < i + size tokens /\
        nth_error tokens (Z.to_nat (findTokenIndex_from i tokens token - i)) = Some token /\
        forall j, (j < Z.to_nat (findTokenIndex_from i tokens token - i))%nat ->
                  nth_error tokens j <> Some token).
Proof.
  induction tokens as [| t rest IH]; intros i.
  - left. simpl. auto.
  - cbn [findTokenIndex_from]. rewrite size_cons. pose proof (size_nonneg rest).
    destruct (String.eqb_spec t token) as [-> | Hne].
    + right. rewrite Z.sub_diag. simpl. split; [lia |]. split; [reflexivity |].
      intros j Hj. lia.
    + destruct (IH (i + 1)) as [(E & Hno & _) | (Hr & Hnth & Hmin)].
      * left. rewrite E. split; [reflexivity |]. split; [| exact I].
        intros [Hin | Hin]; [congruence | contradiction].
      * right. set (r := findTokenIndex_from (i + 1) rest token) in *.
        split; [lia |].
        replace (Z.to_nat (r - i)) with (S (Z.to_nat (r - (i + 1)))) by lia.
        split; [exact Hnth |].
        intros [| j] Hj; simpl; [congruence |]. apply Hmin. lia.
Qed.

(** [findTokenIndex] returns -1 exactly when the token does not occur, and
    otherwise the index of its first occurrence. *)
Theorem findTokenIndex_first_occurrence (tokens : list string) (token : string) :
  (findTokenIndex tokens token = -1 /\ ~ In token tokens)
  \/ (0 <= findTokenIndex tokens token < size tokens /\
      In token tokens /\
      at_ tokens (findTokenIndex tokens token) = token /\
      forall j, 0 <= j < findTokenIndex tokens token -> at_ tokens j <> token).
Proof.
  unfold findTokenIndex.
  destruct (findTokenIndex_from_spec tokens token 0) as [(E & Hno & _) | (Hr & Hnth & Hmin)].
  - left. auto.
  - right. set (r := findTokenIndex_from 0 tokens token) in *.
    rewrite Z.sub_0_r in Hnth, Hmin. rewrite Z.add_0_l in Hr.
    split; [exact Hr |]. split; [eapply nth_error_In; exact Hnth |]. split.
    + unfold at_. now apply nth_error_nth.
    + intros j Hj E. unfold at_ in E.
      apply (Hmin (Z.to_nat j)); [lia |].
      rewrite <- E. apply nth_error_nth'. unfold size in Hr. lia.
Qed.

Lemma join_pipes_cons (c : list string) (rest : list (list string)) :
  rest <> [] -> join_pipes (c :: rest) = c ++ "|"%string :: join_pipes rest.
Proof. destruct rest; [contradiction | reflexivity]. Qed.

Lemma last_not_pipe_tail (t : string) (rest : list string) :
  rest <> [] ->
  String.eqb (last (t :: rest) ""%string) "|" = String.eqb (last rest ""%string) "|".
Proof. destruct rest; [contradiction | reflexivity]. Qed.

(** Writing the stages back with pipes between them gives the tokens
    again, unless the last token is a pipe. *)
Lemma split_loop_join (rest : list string) :
  forall seg,
    String.eqb (last rest ""%string) "|" = false ->
    join_pipes (split_loop seg rest) = seg ++ rest.
Proof.
  induction rest as [| t rest' IH]; intros seg Hlast.
  - simpl. now rewrite app_nil_r.
  - cbn [split_loop]. destruct (String.eqb_spec t "|") as [-> | Hne].
    + destruct rest' as [| n r]; [discriminate |].
      rewrite join_pipes_cons by apply split_loop_nonempty.
      rewrite IH; [reflexivity |].
      rewrite last_not_pipe_tail in Hlast by discriminate. exact Hlast.
    + rewrite IH.
      * rewrite <- app_assoc. reflexivity.
      * destruct rest'; [reflexivity |].
        rewrite last_not_pipe_tail in Hlast by discriminate. exact Hlast.
Qed.

Lemma pairs_ok_tail (t : string) (rest : list string) :
  pairs_ok (t :: rest) = true -> pairs_ok rest = true.
Proof.
  destruct rest as [| n r]; [reflexivity |]. rewrite pairs_ok_cons.
  intros H. apply andb_true_iff in H. apply H.
Qed.

Lemma split_loop_stages (rest : list string) :
  forall seg,
    pairs_ok rest = true ->
    String.eqb (last rest ""%string) "|" = false ->
    (seg = [] -> rest <> [] /\ is_op (hd ""%string rest) = false) ->
    (seg <> [] -> good_stage seg) ->
    Forall good_stage (split_loop seg rest) /\
    size (split_loop seg rest) = count rest "|" + 1.
Proof.
  induction rest as [| t rest' IH]; intros seg Hpairs Hlast Hempty Hseg.
  - simpl. split; [| reflexivity]. constructor; [| constructor].
    apply Hseg. intros ->. destruct (Hempty eq_refl) as [H _]. now apply H.
  - cbn [split_loop]. rewrite count_cons.
    destruct (String.eqb_spec t "|") as [-> | Hne].
    + simpl String.eqb. cbv iota.
      assert (Hsegne : seg <> []).
      { intros ->. destruct (Hempty eq_refl) as [_ H]. discriminate. }
      destruct rest' as [| n r]; [discriminate |].
      rewrite last_not_pipe_tail in Hlast by discriminate.
      destruct (IH [] (pairs_ok_tail _ _ Hpairs) Hlast) as [Hall Hlen].
      * intros _. split; [discriminate |].
        rewrite pairs_ok_cons in Hpairs. apply andb_true_iff in Hpairs.
        destruct Hpairs as [Hbad _]. unfold bad_pair in Hbad. simpl String.eqb in Hbad.
        simpl. destruct (is_op n); [discriminate | reflexivity].
      * intros H. now elim H.
      * split; [constructor; [apply Hseg; exact Hsegne | exact Hall] |].
        rewrite size_cons, Hlen. lia.
    + destruct (String.eqb_spec "|" t) as [E | _]; [congruence |].
      rewrite Z.add_0_l. apply IH.
      * eapply pairs_ok_tail. exact Hpairs.
      * destruct rest'; [reflexivity |].
        rewrite last_not_pipe_tail in Hlast by discriminate. exact Hlast.
      * intros E. destruct seg; discriminate.
      * intros _. destruct seg as [| s0 seg'].
        -- destruct (Hempty eq_refl) as [_ Hop]. simpl in Hop |- *.
           split; [discriminate |]. split; [exact Hop |].
           intros [H | []]. congruence.
        -- destruct (Hseg ltac:(discriminate)) as (_ & Hop & Hno).
           split; [discriminate |]. split; [exact Hop |].
           rewrite in_app_iff. intros [H | [H | []]]; [contradiction | congruence].
Qed.

(** A validated line splits into one stage per pipe plus one; every stage
    is non-empty, starts with a token that is not an operator and holds no
    pipe, and the stages joined by pipes are the tokens again. *)
Theorem validated_line_splits_into_good_stages (tokens : list string) :
  validated tokens = true -> tokens <> [] ->
  size (split_commands tokens) = count tokens "|" + 1 /\
  join_pipes (split_commands tokens) = tokens /\
  Forall good_stage (split_commands tokens).
Proof.
  intros Hval Hne. rewrite validated_well_formed in Hval.
  unfold well_formed in Hval.
  apply andb_true_iff in Hval. destruct Hval as [Hval Hpairs].
  apply andb_true_iff in Hval. destruct Hval as [Hval Hlast].
  apply andb_true_iff in Hval. destruct Hval as [_ Hhd].
  apply negb_true_iff in Hlast, Hhd.
  destruct tokens as [| t rest]; [contradiction |].
  unfold split_commands.
  destruct (split_loop_stages (t :: rest) [] Hpairs Hlast) as [Hall Hlen].
  - intros _. split; [discriminate | exact Hhd].
  - intros H. now elim H.
  - split; [exact Hlen |]. split; [| exact Hall].
    apply (split_loop_join (t :: rest) [] Hlast).
Qed.

Lemma validated_line_splits_into_good_stages_witness :
  let tokens := ["cat"; "<"; "in.txt"; "|"; "wc"; "-l"]%string in
  validated tokens = true /\ tokens <> [] /\
  size (split_commands tokens) = count tokens "|" + 1 /\
  join_pipes (split_commands tokens) = tokens /\
  Forall good_stage (split_commands tokens).
Proof.
  intros tokens.
  assert (Hv : validated tokens = true) by reflexivity.
  assert (Hne : tokens <> []) by discriminate.
  split; [exact Hv |]. split; [exact Hne |].
  exact (validated_line_splits_into_good_stages tokens Hv Hne).
Defined.
(** ** More about [tokenize] and [checkWhiteSpaces] *)

Lemma all_chars_app (test : ascii -> bool) (s t : string) :
  all_chars test (s ++ t) = all_chars test s && all_chars test t.
Proof.
  induction s as [| c s IH]; simpl; [reflexivity |].
  rewrite IH. apply andb_assoc.
Qed.

Lemma append_not_empty (s : string) (c : ascii) :
  String.eqb (s ++ str1 c) "" = false.
Proof. destruct s; reflexivity. Qed.

Lemma tokenize_from_words (str : string) :
  forall word,
    (word = EmptyString \/ is_word word = true) ->
    Forall (fun t => is_word t = true) (tokenize_from word str).
Proof.
  induction str as [| c rest IH]; intros word Hword.
  - simpl. destruct Hword as [-> | Hw]; [constructor |].
    destruct word; [constructor | constructor; [exact Hw | constructor]].
  - simpl. destruct (isspace c) eqn:Ec.
    + apply Forall_app. split; [| apply IH; now left].
      destruct Hword as [-> | Hw]; [constructor |].
      destruct word; [constructor | constructor; [exact Hw | constructor]].
    + apply IH. right. unfold is_word. rewrite append_not_empty, all_chars_app.
      simpl. rewrite Ec. simpl.
      destruct Hword as [-> | Hw]; [reflexivity |].
      unfold is_word in Hw. apply andb_true_iff in Hw. destruct Hw as [_ ->].
      reflexivity.
Qed.

(** Every token [tokenize] returns is a non-empty string without white
    space. *)
Theorem tokenize_yields_words (str : string) :
  Forall (fun t => is_word t = true) (tokenize str).
Proof. apply tokenize_from_words. now left. Qed.

Lemma tokenize_from_word (w : string) :
  forall cur rest,
    all_chars (fun c => negb (isspace c)) w = true ->
    tokenize_from cur (w ++ rest) = tokenize_from (cur ++ w) rest.
Proof.
  induction w as [| c w IH]; intros cur rest Hw.
  - simpl. now rewrite append_empty_r.
  - simpl in Hw. apply andb_true_iff in Hw. destruct Hw as [Hc Hw].
    apply negb_true_iff in Hc. simpl. rewrite Hc. rewrite IH by exact Hw.
    rewrite append_assoc. reflexivity.
Qed.

(** Words written on one line with single blanks between them are read
    back by [tokenize] as the same words. *)
Theorem tokenize_join_words (words : list string) :
  Forall (fun w => is_word w = true) words ->
  tokenize (join_words words) = words.
Proof.
  induction words as [| w rest IH]; intros Hall; [reflexivity |].
  inversion Hall as [| ? ? Hw Hrest]; subst.
  unfold is_word in Hw. apply andb_true_iff in Hw. destruct Hw as [Hne Hchars].
  assert (Hflush : flush w = [w]) by (destruct w; [discriminate | reflexivity]).
  destruct rest as [| w' rest'].
  - simpl. unfold tokenize.
    rewrite <- (append_empty_r w) at 1. rewrite tokenize_from_word by exact Hchars.
    simpl. exact Hflush.
  - change (join_words (w :: w' :: rest'))
      with (w ++ String " " (join_words (w' :: rest')))%string.
    unfold tokenize. rewrite tokenize_from_word by exact Hchars. simpl.
    rewrite Hflush. simpl. f_equal. apply IH. exact Hrest.
Qed.

Lemma tokenize_join_words_witness :
  Forall (fun w => is_word w = true) ["ls"; "-al"; "/tmp"]%string /\
  tokenize (join_words ["ls"; "-al"; "/tmp"]%string) = ["ls"; "-al"; "/tmp"]%string.
Proof.
  assert (H : Forall (fun w => is_word w = true) ["ls"; "-al"; "/tmp"]%string)
    by (repeat constructor).
  split; [exact H |]. exact (tokenize_join_words _ H).
Defined.

Lemma lex_from_shapes (str : string) :
  forall word,
    (word = EmptyString \/ plain_word word = true) ->
    Forall (fun t => lone_special t || plain_word t = true) (lex_from word str).
Proof.
  induction str as [| c rest IH]; intros word Hword.
  - simpl. destruct Hword as [-> | Hw]; [constructor |].
    destruct word; [constructor |].
    constructor; [rewrite Hw; apply orb_true_r | constructor].
  - assert (Hflush : Forall (fun t => lone_special t || plain_word t = true) (flush word)).
    { destruct Hword as [-> | Hw]; [constructor |].
      destruct word; [constructor |].
      constructor; [rewrite Hw; apply orb_true_r | constructor]. }
    simpl. destruct (isspace c) eqn:Ec.
    + apply Forall_app. split; [exact Hflush | apply IH; now left].
    + destruct (is_special c) eqn:Es.
      * apply Forall_app. split; [exact Hflush |].
        constructor; [simpl; rewrite Es; reflexivity | apply IH; now left].
      * apply IH. right. unfold plain_word.
        rewrite append_not_empty, all_chars_app. simpl. rewrite Ec, Es. simpl.
        destruct Hword as [-> | Hw]; [reflexivity |].
        unfold plain_word in Hw. apply andb_true_iff in Hw. destruct Hw as [_ ->].
        reflexivity.
Qed.

(** After [checkWhiteSpaces], every token is either one special character
    alone or a non-empty word free of special characters and white space:
    an operator never sticks to a word. *)
Theorem normalized_tokens_are_isolated (line : string) :
  Forall (fun t => lone_special t || plain_word t = true)
    (tokenize (checkWhiteSpaces line)).
Proof.
  rewrite tokenize_checkWhiteSpaces. apply lex_from_shapes. now left.
Qed.





Lemma checkWhiteSpaces_from_special (b : option ascii) (c : ascii) (t : string) :
  is_special c = true ->
  checkWhiteSpaces_from b (String c t)
  = ((match b with
      | Some p => if isspace p then "" else " "
      | None => ""
      end)
     ++ String c
          ((match t with
            | String next _ => if isspace next then "" else " "
            | EmptyString => ""
            end)
           ++ checkWhiteSpaces_from (Some c) t))%string.
Proof. intros H. cbn [checkWhiteSpaces_from]. rewrite H. reflexivity. Qed.

Lemma checkWhiteSpaces_from_regular (b : option ascii) (c : ascii) (t : string) :
  is_special c = false ->
  checkWhiteSpaces_from b (String c t) = String c (checkWhiteSpaces_from (Some c) t).
Proof. intros H. cbn [checkWhiteSpaces_from]. rewrite H. reflexivity. Qed.

Lemma space_not_special (c : ascii) : isspace c = true -> is_special c = false.
Proof.
  intros H. destruct (is_special c) eqn:E; [| reflexivity].
  apply special_not_space in E. congruence.
Qed.

Lemma checkWhiteSpaces_from_twice (s : string) :
  forall p q,
    (blank_or_none p = true -> blank_or_none q = true) ->
    checkWhiteSpaces_from q (checkWhiteSpaces_from p s) = checkWhiteSpaces_from p s.
Proof.
  induction s as [| c rest IH]; intros p q Hpq; [reflexivity |].
  destruct (is_special c) eqn:Es.
  2:{ rewrite (checkWhiteSpaces_from_regular p c rest Es).
      rewrite (checkWhiteSpaces_from_regular q c _ Es). f_equal. apply IH. auto. }
  pose proof (special_not_space c Es) as Hns.
  rewrite (checkWhiteSpaces_from_special p c rest Es).
  set (tail := ((match rest with
                 | String next _ => if isspace next then "" else " "
                 | EmptyString => ""
                 end) ++ checkWhiteSpaces_from (Some c) rest)%string).
  (* the part after the special character, read again *)
  assert (Htail : ((match tail with
                    | String next _ => if isspace next then "" else " "
                    | EmptyString => ""
                    end) ++ checkWhiteSpaces_from (Some c) tail)%string = tail).
  { unfold tail. destruct rest as [| next r]; [reflexivity |].
    destruct (isspace next) eqn:En.
    - rewrite (checkWhiteSpaces_from_regular (Some c) next r (space_not_special _ En)).
      cbn [append]. rewrite En. cbn [append].
      rewrite <- (checkWhiteSpaces_from_regular (Some c) next r (space_not_special _ En)).
      apply IH. auto.
    - cbn [append]. change (isspace " ") with true. cbv iota. cbn [append].
      rewrite (checkWhiteSpaces_from_regular (Some c) " " _ eq_refl). f_equal.
      apply IH. unfold blank_or_none. rewrite Hns. discriminate. }
  assert (Hafter : forall before,
             blank_or_none before = true ->
             checkWhiteSpaces_from before (String c tail) = String c tail).
  { intros before Hb. rewrite (checkWhiteSpaces_from_special before c tail Es), Htail.
    destruct before as [bc |]; simpl in Hb; [rewrite Hb |]; reflexivity. }
  destruct p as [pc |]; [destruct (isspace pc) eqn:Ep |].
  - cbn [append]. apply Hafter. apply Hpq. exact Ep.
  - cbn [append]. rewrite (checkWhiteSpaces_from_regular q " " _ eq_refl). f_equal.
    apply Hafter. reflexivity.
  - cbn [append]. apply Hafter. apply Hpq. reflexivity.
Qed.

(** Normalising a line that is already normalised changes nothing. *)
Theorem checkWhiteSpaces_idempotent (input : string) :
  checkWhiteSpaces (checkWhiteSpaces input) = checkWhiteSpaces input.
Proof.
  rewrite !checkWhiteSpaces_from_start. apply checkWhiteSpaces_from_twice. auto.
Qed.

(** ** Background detection *)

Lemma back_cons (c : ascii) (s : string) :
  s <> EmptyString -> back (String c s) = back s.
Proof. destruct s; [contradiction | reflexivity]. Qed.

Lemma back_append (a b : string) : b <> EmptyString -> back (a ++ b) = back b.
Proof.
  intros Hb. induction a as [| c a IH]; [reflexivity |].
  simpl append. rewrite back_cons; [exact IH |].
  destruct a; [exact Hb | discriminate].
Qed.

Lemma back_from (s : string) :
  forall prev, back (checkWhiteSpaces_from prev s) = back s.
Proof.
  induction s as [| c rest IH]; intros prev; [reflexivity |].
  assert (Hne : forall p, rest <> EmptyString ->
                          checkWhiteSpaces_from p rest <> EmptyString).
  { intros p H. destruct rest as [| n r]; [contradiction |].
    cbn [checkWhiteSpaces_from]. destruct (is_special n); [| discriminate].
    destruct p as [pc |]; [destruct (isspace pc) |]; discriminate. }
  destruct (is_special c) eqn:Es.
  - rewrite (checkWhiteSpaces_from_special prev c rest Es).
    rewrite back_append by discriminate.
    destruct rest as [| n r]; [reflexivity |].
    rewrite back_cons.
    + rewrite back_append by (apply Hne; discriminate).
      rewrite IH. reflexivity.
    + destruct (isspace n); [cbn [append]; apply Hne |]; discriminate.
  - rewrite (checkWhiteSpaces_from_regular prev c rest Es).
    destruct rest as [| n r]; [reflexivity |].
    rewrite back_cons by (apply Hne; discriminate).
    rewrite IH. reflexivity.
Qed.

Lemma last_app_nonempty {A : Type} (a b : list A) (d : A) :
  b <> [] -> last (a ++ b) d = last b d.
Proof.
  intros Hb. induction a as [| x a IH]; [reflexivity |].
  simpl app. destruct (a ++ b) eqn:E.
  - destruct a; [contradiction | discriminate].
  - exact IH.
Qed.

Lemma lex_from_last_marker (s : string) :
  forall cur, back s = Some "&"%char ->
              last (lex_from cur s) ""%string = "&"%string.
Proof.
  induction s as [| c rest IH]; intros cur Hback; [discriminate |].
  destruct rest as [| n r].
  - cbn in Hback. injection Hback as ->. simpl. apply last_last.
  - rewrite back_cons in Hback by discriminate.
    assert (Hne : forall w, lex_from w (String n r) <> []).
    { intros w E. specialize (IH w Hback). rewrite E in IH. discriminate. }
    cbn [lex_from]. cbn [lex_from] in IH, Hne.
    destruct (isspace c).
    + rewrite last_app_nonempty by apply Hne. apply IH. exact Hback.
    + destruct (is_special c).
      * rewrite last_app_nonempty by discriminate.
        change (last (str1 c :: ?l) ?d) with (last (str1 c :: l) d).
        specialize (IH EmptyString Hback). specialize (Hne EmptyString).
        destruct (if isspace n
                  then flush "" ++ lex_from "" r
                  else if is_special n
                       then flush "" ++ str1 n :: lex_from "" r
                       else lex_from ("" ++ str1 n) r) eqn:E;
          [contradiction | exact IH].
      * apply IH. exact Hback.
Qed.

Lemma isBackgroundCommand_checkWhiteSpaces (line : string) :
  isBackgroundCommand (checkWhiteSpaces line) = isBackgroundCommand line.
Proof.
  unfold isBackgroundCommand. rewrite checkWhiteSpaces_from_start, back_from.
  reflexivity.
Qed.

(** A line is taken for a background line exactly when its last character
    is [&] (normalising does not change that), and then its last token is
    the marker. *)
Theorem background_detection (line : string) :
  isBackgroundCommand (checkWhiteSpaces line) = isBackgroundCommand line /\
  (isBackgroundCommand line = true ->
   last (tokenize (checkWhiteSpaces line)) ""%string = "&"%string).
Proof.
  split.
  - apply isBackgroundCommand_checkWhiteSpaces.
  - intros H. rewrite tokenize_checkWhiteSpaces. apply lex_from_last_marker.
    unfold isBackgroundCommand in H. destruct (back line) as [c |]; [| discriminate].
    apply Ascii.eqb_eq in H. now subst c.
Qed.

Lemma background_detection_witness :
  isBackgroundCommand (checkWhiteSpaces "sleep 5&") = isBackgroundCommand "sleep 5&" /\
  isBackgroundCommand "sleep 5&" = true /\
  last (tokenize (checkWhiteSpaces "sleep 5&")) ""%string = "&"%string.
Proof.
  destruct (background_detection "sleep 5&") as [H1 H2].
  split; [exact H1 |]. split; [reflexivity |]. exact (H2 eq_refl).
Defined.

(** White space after the marker hides it: the line is run in the
    foreground although its last token is [&]. *)
Theorem trailing_blank_hides_marker (line : string) (w : ascii) :
  isspace w = true ->
  isBackgroundCommand (checkWhiteSpaces (line ++ "&" ++ str1 w)) = false /\
  last (tokenize (checkWhiteSpaces (line ++ "&" ++ str1 w))) ""%string = "&"%string.
Proof.
  intros Hw. split.
  - rewrite isBackgroundCommand_checkWhiteSpaces.
    unfold isBackgroundCommand.
    replace (line ++ "&" ++ str1 w)%string with ((line ++ "&") ++ str1 w)%string
      by apply append_assoc.
    rewrite back_snoc.
    destruct (Ascii.eqb_spec w "&") as [-> | _]; [discriminate | reflexivity].
  - rewrite tokenize_checkWhiteSpaces.
    assert (H : forall cur, lex_from cur (line ++ "&" ++ str1 w)
                            = lex_from cur (line ++ "&")).
    { intros cur. apply lex_from_app. intros w0. simpl. rewrite Hw.
      reflexivity. }
    rewrite H. apply lex_from_last_marker. apply back_snoc.
Qed.

Lemma trailing_blank_hides_marker_witness :
  isspace " " = true /\
  isBackgroundCommand (checkWhiteSpaces ("sleep 5 " ++ "&" ++ str1 " ")) = false /\
  last (tokenize (checkWhiteSpaces ("sleep 5 " ++ "&" ++ str1 " "))) ""%string
  = "&"%string.
Proof.
  split; [reflexivity |].
  apply (trailing_blank_hides_marker "sleep 5 " " "). reflexivity.
Defined.

(** ** The command loop on lines without operators *)

Lemma count_absent (l : list string) (t : string) : ~ In t l -> count l t = 0.
Proof.
  unfold count. induction l as [| x l IH]; intros Hno; [reflexivity |].
  simpl. destruct (String.eqb_spec t x) as [-> | _].
  - elim Hno. now left.
  - apply IH. intros H. apply Hno. now right.
Qed.

Lemma operator_free_absent (tokens : list string) (op : string) :
  operator_free tokens = true -> is_op op = true -> ~ In op tokens.
Proof.
  unfold operator_free. intros Hfree Hop Hin.
  rewrite forallb_forall in Hfree. specialize (Hfree op Hin).
  rewrite Hop in Hfree. discriminate.
Qed.

Lemma operator_free_index (tokens : list string) (op : string) :
  operator_free tokens = true -> is_op op = true -> findTokenIndex tokens op = -1.
Proof.
  intros Hfree Hop. apply findTokenIndex_from_absent.
  now apply operator_free_absent.
Qed.

Lemma operator_free_pairs (tokens : list string) :
  operator_free tokens = true -> pairs_ok tokens = true.
Proof.
  induction tokens as [| a [| b rest] IH]; intros Hfree; try reflexivity.
  rewrite pairs_ok_cons. simpl in Hfree.
  apply andb_true_iff in Hfree. destruct Hfree as [Ha Hrest].
  rewrite IH by exact Hrest. rewrite andb_true_r.
  unfold bad_pair. unfold is_op in Ha. apply negb_true_iff in Ha.
  apply orb_false_iff in Ha. destruct Ha as [-> ->]. reflexivity.
Qed.

(** A line without [|], [<], [>] among its tokens passes both
    validators. *)
Lemma operator_free_validated (tokens : list string) :
  operator_free tokens = true -> validated tokens = true.
Proof.
  intros Hfree. rewrite validated_well_formed. unfold well_formed.
  rewrite (count_absent tokens "<") by (now apply operator_free_absent).
  rewrite (count_absent tokens ">") by (now apply operator_free_absent).
  rewrite (operator_free_pairs tokens Hfree). simpl.
  assert (Hhd : is_op (hd ""%string tokens) = false).
  { destruct tokens as [| t rest]; [reflexivity |]. simpl in Hfree |- *.
    apply andb_true_iff in Hfree. destruct Hfree as [H _].
    now apply negb_true_iff in H. }
  rewrite Hhd. simpl.
  assert (Hlast : String.eqb (last tokens ""%string) "|" = false).
  { clear Hhd. induction tokens as [| t rest IH]; [reflexivity |].
    simpl in Hfree. apply andb_true_iff in Hfree. destruct Hfree as [Ht Hrest].
    destruct rest as [| b r].
    - simpl. unfold is_op in Ht. apply negb_true_iff in Ht.
      apply orb_false_iff in Ht. apply Ht.
    - change (last (t :: b :: r) ""%string) with (last (b :: r) ""%string).
      apply IH. exact Hrest. }
  rewrite Hlast. reflexivity.
Qed.

Ltac enter_plain Htok Hfree Hbg :=
  unfold main_body; rewrite Htok;
  let Hv := fresh "Hv" in
  pose proof (operator_free_validated _ Hfree) as Hv;
  unfold validated in Hv;
  destruct (hasMultipleRedirectionsOrPipes _); [discriminate |];
  destruct (hasSyntaxErrors _); [discriminate |];
  clear Hv;
  rewrite Hbg; unfold bind at 1; unfold ret at 1;
  rewrite (operator_free_index _ "|" Hfree eq_refl);
  rewrite (operator_free_index _ ">" Hfree eq_refl);
  rewrite (operator_free_index _ "<" Hfree eq_refl);
  cbn [Z.eqb negb orb Pos.eqb].

(** A line the validators refuse creates no process: the loop body prints
    one diagnostic and returns. *)
Theorem rejected_line_spawns_nothing (os : OS) (line : string) (s : shell) :
  validated (tokenize (checkWhiteSpaces line)) = false ->
  exists diagnostic,
    main_body os line s
    = Ret tt (with_self s (mkProc (fdt (self s))
                             (trace (self s) ++ [Cerr diagnostic]))).
Proof.
  intros Hval. unfold main_body.
  destruct (tokenize (checkWhiteSpaces line)) as [| t0 rest] eqn:Etok;
    [discriminate |].
  unfold validated in Hval.
  destruct (hasMultipleRedirectionsOrPipes (t0 :: rest)) as [d |];
    [exists d; reflexivity |].
  destruct (hasSyntaxErrors (t0 :: rest)) as [d |]; [exists d; reflexivity |].
  discriminate.
Qed.

Lemma rejected_line_spawns_nothing_witness :
  validated (tokenize (checkWhiteSpaces "ls |")) = false /\
  exists diagnostic,
    main_body friendly "ls |" initial_shell
    = Ret tt (with_self initial_shell
                (mkProc (fdt (self initial_shell))
                   (trace (self initial_shell) ++ [Cerr diagnostic]))).
Proof.
  split; [reflexivity |].
  apply (rejected_line_spawns_nothing friendly "ls |" initial_shell). reflexivity.
Defined.

Lemma lex_from_blank (s : string) :
  all_chars isspace s = true -> lex_from EmptyString s = [].
Proof.
  induction s as [| c rest IH]; intros H; [reflexivity |].
  simpl in H. apply andb_true_iff in H. destruct H as [Hc Hrest].
  simpl. rewrite Hc. simpl. now apply IH.
Qed.

(** A line of white space only (the empty line included) does nothing at
    all. *)
Theorem blank_line_does_nothing (os : OS) (line : string) (s : shell) :
  all_chars isspace line = true -> main_body os line s = Ret tt s.
Proof.
  intros H. unfold main_body.
  rewrite tokenize_checkWhiteSpaces, (lex_from_blank line H). reflexivity.
Qed.

Lemma blank_line_does_nothing_witness :
  all_chars isspace "   " = true /\
  main_body friendly "   " initial_shell = Ret tt initial_shell.
Proof.
  split; [reflexivity |].
  apply (blank_line_does_nothing friendly "   " initial_shell). reflexivity.
Defined.

(** Nothing after a line [exit] is read. *)
Theorem lines_after_exit_are_dropped (os : OS) (before after : list string) (s : shell) :
  main_loop os (before ++ "exit"%string :: after) s
  = main_loop os (before ++ ["exit"%string]) s.
Proof.
  revert s. induction before as [| input rest IH]; intros s.
  - reflexivity.
  - cbn [app main_loop]. unfold bind at 1 3.
    destruct (lift (emit Prompt) s) as [[] s1 | h s1]; [| reflexivity].
    destruct (String.eqb input "exit"); [reflexivity |].
    unfold bind. destruct (main_body os input s1) as [[] s2 | h s2]; [| reflexivity].
    apply IH.
Qed.

(** The branch for [rm] is empty: a line that starts with [rm], without
    operators and not in the background, does nothing. *)
Theorem rm_line_does_nothing (os : OS) (line : string) (args : list string) (s : shell) :
  tokenize (checkWhiteSpaces line) = "rm"%string :: args ->
  operator_free args = true ->
  isBackgroundCommand (checkWhiteSpaces line) = false ->
  main_body os line s = Ret tt s.
Proof.
  intros Htok Hargs Hbg.
  assert (Hfree : operator_free ("rm"%string :: args) = true) by exact Hargs.
  enter_plain Htok Hfree Hbg. reflexivity.
Qed.

Lemma rm_line_does_nothing_witness :
  tokenize (checkWhiteSpaces "rm -rf build") = "rm"%string :: ["-rf"; "build"]%string /\
  operator_free ["-rf"; "build"]%string = true /\
  isBackgroundCommand (checkWhiteSpaces "rm -rf build") = false /\
  main_body friendly "rm -rf build" initial_shell = Ret tt initial_shell.
Proof.
  split; [reflexivity |]. split; [reflexivity |]. split; [reflexivity |].
  apply (rm_line_does_nothing friendly "rm -rf build" ["-rf"; "build"]%string
           initial_shell); reflexivity.
Defined.

(** [cd] with exactly one argument calls [chdir] on it and reports a
    failure with [perror]; with any other number of arguments it prints the
    usage line and does not call [chdir].  It never forks. *)
Theorem cd_line_changes_directory (os : OS) (line : string) (args : list string)
    (s : shell) :
  tokenize (checkWhiteSpaces line) = "cd"%string :: args ->
  operator_free args = true ->
  isBackgroundCommand (checkWhiteSpaces line) = false ->
  main_body os line s
  = Ret tt (with_self s
              (mkProc (fdt (self s))
                 (trace (self s)
                  ++ match args with
                     | [directory] =>
                         SysChdir directory
                         :: (if chdir_ok os directory then []
                             else [Perror "cd failed"])
                     | _ => [Cerr "Usage: cd <directory>"]
                     end))).
Proof.
  intros Htok Hargs Hbg.
  assert (Hfree : operator_free ("cd"%string :: args) = true) by exact Hargs.
  enter_plain Htok Hfree Hbg.
  change (String.eqb (at_ ("cd"%string :: args) 0) "cd") with true. cbv iota.
  destruct args as [| directory [| extra more]].
  - reflexivity.
  - change (size ["cd"%string; directory] =? 2) with true. cbv iota.
    change (at_ ["cd"%string; directory] 1) with directory.
    unfold sys_chdir, bind, lift, emit, ret, when, perror.
    cbn [self with_self fdt trace].
    destruct (chdir_ok os directory); cbn.
    + reflexivity.
    + unfold with_self. cbn. rewrite <- app_assoc. reflexivity.
  - assert (E : (size ("cd"%string :: directory :: extra :: more) =? 2) = false).
    { apply Z.eqb_neq. rewrite !size_cons. pose proof (size_nonneg more). lia. }
    rewrite E. reflexivity.
Qed.

Lemma cd_line_changes_directory_witness :
  tokenize (checkWhiteSpaces "cd /tmp") = "cd"%string :: ["/tmp"%string] /\
  operator_free ["/tmp"%string] = true /\
  isBackgroundCommand (checkWhiteSpaces "cd /tmp") = false /\
  main_body friendly "cd /tmp" initial_shell
  = Ret tt (with_self initial_shell
              (mkProc (fdt (self initial_shell))
                 (trace (self initial_shell)
                  ++ SysChdir "/tmp"
                     :: (if chdir_ok friendly "/tmp" then []
                         else [Perror "cd failed"])))).
Proof.
  split; [reflexivity |]. split; [reflexivity |]. split; [reflexivity |].
  apply (cd_line_changes_directory friendly "cd /tmp" ["/tmp"%string] initial_shell);
    reflexivity.
Defined.

(** ** More about [executeCommand] *)

Section SingleMore.

Variable os : OS.

Lemma keep_arg_no_redirect (j : Z) : 0 <= j -> keep_arg (-1) (-1) j = true.
Proof.
  intros Hj. unfold keep_arg.
  rewrite (proj2 (Z.eqb_neq j (-1))) by lia. reflexivity.
Qed.

Lemma collect_args_no_redirect (tokens : list string) :
  collect_args (-1) (-1) 0 tokens = tokens.
Proof.
  apply collect_args_all. intros j Hj. apply keep_arg_no_redirect. lia.
Qed.

(** A command without redirect operators: one child, which inherits every
    descriptor and calls [execvp] on the tokens, each passed as a C string
    (so cut at its first NUL); the parent forks and waits, nothing else.
    When [execvp] fails the child says so only for [ENOENT], naming the
    first argument as a C string, and leaves with [EXIT_FAILURE] in every
    case. *)
Theorem executeCommand_without_redirection (tokens : list string) (s : shell) :
  tokens <> [] -> ~ In "<"%string tokens -> ~ In ">"%string tokens ->
  fork_ok os (forks s) = true ->
  let args := map c_str tokens in
  exists s' c,
    executeCommand os tokens s = Ret tt s' /\
    spawned s s' = [c] /\
    called s s' = [SysFork (c_pid c); SysWaitpid (c_pid c)] /\
    fdt (self s') = fdt (self s) /\
    fdt (c_proc c) = fdt (self s) /\
    (c_halt c, trace (c_proc c))
    = (if exec_errno os args =? 0 then (Execed args, [SysExecvp args])
       else if exec_errno os args =? ENOENT
            then (Exited EXIT_FAILURE,
                  [SysExecvp args;
                   Cerr ("mish: '" ++ hd ""%string args
                         ++ "': No such file or directory")])
            else (Exited EXIT_FAILURE, [SysExecvp args])).
Proof.
  intros Hne Hin Hout Hfork args.
  unfold executeCommand.
  rewrite (findTokenIndex_from_absent tokens "<" 0 Hin : findTokenIndex tokens "<" = -1).
  rewrite (findTokenIndex_from_absent tokens ">" 0 Hout : findTokenIndex tokens ">" = -1).
  rewrite collect_args_no_redirect. fold args.
  unfold bind at 1. unfold sys_fork. rewrite Hfork.
  unfold run_child, executeCommand_child, redirect_input, redirect_output.
  cbn [Z.eqb negb andb when]. unfold bind at 1 2. unfold ret at 1 2.
  unfold exec_or_fail, sys_execvp, bind at 1.
  assert (Hargs : exists prog rest, args = prog :: rest).
  { unfold args. destruct tokens as [| t ts]; [contradiction |].
    cbn [map]. eauto. }
  destruct Hargs as (prog & rest & Hargs). clearbody args. subst args.
  cbn [fdt trace app].
  destruct (exec_errno os (prog :: rest) =? 0) eqn:E0.
  - cbn. do 2 eexists. split; [reflexivity |].
    split; [apply spawned_app; reflexivity |].
    split; [apply called_app; cbn; rewrite <- app_assoc; reflexivity |].
    repeat split; reflexivity.
  - destruct (exec_errno os (prog :: rest) =? ENOENT) eqn:E1; cbn;
      rewrite ?E1; cbn;
      do 2 eexists; (split; [reflexivity |]);
      (split; [apply spawned_app; reflexivity |]);
      (split; [apply called_app; cbn; rewrite <- app_assoc; reflexivity |]);
      repeat split; reflexivity.
Qed.

End SingleMore.

Lemma executeCommand_without_redirection_witness :
  let tokens := ["echo"; String "a" (String Ascii.zero "b")]%string in
  tokens <> [] /\ ~ In "<"%string tokens /\ ~ In ">"%string tokens /\
  fork_ok friendly (forks initial_shell) = true /\
  map c_str tokens = ["echo"; "a"]%string /\
  let args := map c_str tokens in
  exists s' c,
    executeCommand friendly tokens initial_shell = Ret tt s' /\
    spawned initial_shell s' = [c] /\
    called initial_shell s' = [SysFork (c_pid c); SysWaitpid (c_pid c)] /\
    fdt (self s') = fdt (self initial_shell) /\
    fdt (c_proc c) = fdt (self initial_shell) /\
    (c_halt c, trace (c_proc c))
    = (if exec_errno friendly args =? 0 then (Execed args, [SysExecvp args])
       else if exec_errno friendly args =? ENOENT
            then (Exited EXIT_FAILURE,
                  [SysExecvp args;
                   Cerr ("mish: '" ++ hd ""%string args
                         ++ "': No such file or directory")])
            else (Exited EXIT_FAILURE, [SysExecvp args])).
Proof.
  intros tokens.
  assert (H1 : tokens <> []) by discriminate.
  assert (H2 : ~ In "<"%string tokens)
    by (intros [H | [H | []]]; discriminate).
  assert (H3 : ~ In ">"%string tokens)
    by (intros [H | [H | []]]; discriminate).
  split; [exact H1 |]. split; [exact H2 |]. split; [exact H3 |].
  split; [reflexivity |]. split; [reflexivity |].
  exact (executeCommand_without_redirection friendly tokens initial_shell H1 H2 H3 eq_refl).
Defined.


(** ** Redirection in the child of [executeCommand] *)

Section SingleRedirect.

Variable os : OS.

(** A redirection block whose file can be opened, under its guard. *)
Lemma guarded_open_and_bind_success (guard : bool) (path : string) (writing : bool)
    (target : Z) (report : syscall) (p : proc) :
  0 <= target -> look p target <> None ->
  (guard = true -> open_ok os path writing = true) ->
  exists p1 tr,
    when guard (open_and_bind os path writing target report) p = Ret tt p1 /\
    look p1 target
    = (if guard then Some (if writing then FileWrite path else FileRead path)
       else look p target) /\
    (forall x, x <> target -> look p1 x = look p x) /\
    trace p1 = trace p ++ tr /\
    (forall argv, ~ In (SysExecvp argv) tr).
Proof.
  intros Ht Hopen Hok. destruct guard; simpl.
  2:{ exists p, []. rewrite app_nil_r. repeat split; auto. }
  destruct (open_and_bind_spec os path writing target report p Ht)
    as [(Hno & _) | (_ & fd & p1 & E & _ & Hfree & T & L & B)].
  { rewrite Hok in Hno by reflexivity. discriminate. }
  exists p1. eexists. split; [exact E |]. split.
  - apply B. intros ->. contradiction.
  - split; [exact L |]. split; [exact T |].
    intros argv [H | [H | [H | []]]]; discriminate.
Qed.

Lemma exec_or_fail_once (args : list string) (p : proc) :
  exists h p' tl,
    exec_or_fail os args p = Halt h p' /\
    fdt p' = fdt p /\
    trace p' = trace p ++ SysExecvp args :: tl /\
    (forall argv, ~ In (SysExecvp argv) tl) /\
    (args <> [] -> h = Execed args \/ h = Exited EXIT_FAILURE) /\
    (args = [] -> h = Killed SIGSEGV) /\
    (args <> [] -> exec_errno os args = 0 -> h = Execed args).
Proof.
  unfold exec_or_fail, sys_execvp, bind. destruct args as [| prog args].
  - simpl. do 3 eexists. split; [reflexivity |]. simpl.
    split; [reflexivity |]. split; [reflexivity |].
    split; [intros argv []|].
    split; [intros H; now elim H |]. split; [reflexivity |].
    intros H. now elim H.
  - destruct (exec_errno os (prog :: args) =? 0) eqn:E.
    + exists (Execed (prog :: args)). do 2 eexists. split; [reflexivity |]. simpl.
      split; [reflexivity |]. split; [reflexivity |]. split; [intros argv [] |].
      split; [now left |]. split; [discriminate |]. auto.
    + apply Z.eqb_neq in E. destruct (exec_errno os (prog :: args) =? ENOENT); simpl.
      * do 3 eexists. split; [reflexivity |]. simpl. split; [reflexivity |].
        split; [rewrite <- app_assoc; reflexivity |].
        split; [intros argv [H | []]; discriminate |].
        split; [now right |]. split; [discriminate |].
        intros _ H. contradiction.
      * do 3 eexists. split; [reflexivity |]. simpl. split; [reflexivity |].
        split; [reflexivity |]. split; [intros argv [] |].
        split; [now right |]. split; [discriminate |].
        intros _ H. contradiction.
Qed.

Lemma executeCommand_child_redirects (tokens : list string) (rIn rOut : Z)
    (args : list string) (t : fdtable) :
  let cin := negb (rIn =? -1) && (rIn + 1 <? size tokens) in
  let cout := negb (rOut =? -1) && (rOut + 1 <? size tokens) in
  let pin := at_ tokens (rIn + 1) in
  let pout := at_ tokens (rOut + 1) in
  let h := fst (run_child (executeCommand_child os tokens rIn rOut args) (mkProc t [])) in
  let p := snd (run_child (executeCommand_child os tokens rIn rOut args) (mkProc t [])) in
  std_open t ->
  (cin = true -> open_ok os pin false = true) ->
  (cout = true -> open_ok os pout true = true) ->
  look p STDIN_FILENO = (if cin then Some (FileRead pin) else fd_lookup t STDIN_FILENO) /\
  look p STDOUT_FILENO = (if cout then Some (FileWrite pout) else fd_lookup t STDOUT_FILENO) /\
  (forall x, x <> STDIN_FILENO -> x <> STDOUT_FILENO -> look p x = fd_lookup t x) /\
  (forall argv, In (SysExecvp argv) (trace p) <-> argv = args) /\
  (args <> [] -> h = Execed args \/ h = Exited EXIT_FAILURE) /\
  (args = [] -> h = Killed SIGSEGV) /\
  (args <> [] -> exec_errno os args = 0 -> h = Execed args).
Proof.
  intros cin cout pin pout. unfold run_child, executeCommand_child.
  set (p0 := mkProc t []). intros [Hin Hout] Hokin Hokout.
  change (redirect_input os tokens rIn)
    with (when cin (open_and_bind os pin false STDIN_FILENO
                      (Cerr "Failed to open input redirection file"))).
  change (redirect_output os tokens rOut)
    with (when cout (open_and_bind os pout true STDOUT_FILENO
                       (Perror "Failed to open output redirection file"))).
  destruct (guarded_open_and_bind_success cin pin false STDIN_FILENO
              (Cerr "Failed to open input redirection file") p0
              ltac:(unfold STDIN_FILENO; lia) Hin Hokin)
    as (p1 & tr1 & E1 & B1 & L1 & T1 & X1).
  rewrite (bind_Ret _ _ _ _ _ E1).
  assert (Hout1 : look p1 STDOUT_FILENO <> None).
  { rewrite L1 by (unfold STDIN_FILENO, STDOUT_FILENO; lia). exact Hout. }
  destruct (guarded_open_and_bind_success cout pout true STDOUT_FILENO
              (Perror "Failed to open output redirection file") p1
              ltac:(unfold STDOUT_FILENO; lia) Hout1 Hokout)
    as (p2 & tr2 & E2 & B2 & L2 & T2 & X2).
  rewrite (bind_Ret _ _ _ _ _ E2).
  destruct (exec_or_fail_once args p2)
    as (h & p3 & tl & E3 & F3 & T3 & O3 & Hh & Hk & X3).
  rewrite E3. cbv zeta. cbn [fst snd].
  assert (L3 : forall x, look p3 x = look p2 x) by (intros x; unfold look; now rewrite F3).
  split.
  { rewrite L3, L2 by (unfold STDIN_FILENO, STDOUT_FILENO; lia). exact B1. }
  split.
  { rewrite L3, B2. destruct cout; [reflexivity |].
    apply L1. unfold STDIN_FILENO, STDOUT_FILENO; lia. }
  split.
  { intros x H0 H1. rewrite L3, L2, L1 by assumption. reflexivity. }
  split.
  { intros argv. rewrite T3, T2, T1. cbn [trace p0 app]. split.
    - intros H. apply in_app_or in H. destruct H as [H | H].
      + apply in_app_or in H. destruct H as [H | H]; [elim (X1 _ H) | elim (X2 _ H)].
      + destruct H as [H | H]; [now injection H |]. elim (O3 _ H).
    - intros ->. apply in_or_app. right. now left. }
  split; [exact Hh |]. split; [exact Hk | exact X3].
Qed.


(** The child when the input file cannot be opened. *)
Lemma executeCommand_child_input_failure (tokens : list string) (rIn rOut : Z)
    (args : list string) (t : fdtable) :
  negb (rIn =? -1) && (rIn + 1 <? size tokens) = true ->
  open_ok os (at_ tokens (rIn + 1)) false = false ->
  run_child (executeCommand_child os tokens rIn rOut args) (mkProc t [])
  = (Exited EXIT_FAILURE,
     mkProc t [SysOpen (at_ tokens (rIn + 1)) false (-1);
               Cerr "Failed to open input redirection file"]).
Proof.
  intros Hcin Hno. unfold run_child, executeCommand_child, redirect_input.
  rewrite Hcin. cbn [when].
  unfold bind at 1. unfold bind at 1. unfold sys_open. rewrite Hno.
  reflexivity.
Qed.

(** The child when the output file cannot be opened, the input file (if
    one is asked for) having been opened. *)
Lemma executeCommand_child_output_failure (tokens : list string) (rIn rOut : Z)
    (args : list string) (t : fdtable) :
  let cin := negb (rIn =? -1) && (rIn + 1 <? size tokens) in
  let pin := at_ tokens (rIn + 1) in
  let pout := at_ tokens (rOut + 1) in
  let h := fst (run_child (executeCommand_child os tokens rIn rOut args) (mkProc t [])) in
  let p := snd (run_child (executeCommand_child os tokens rIn rOut args) (mkProc t [])) in
  fd_lookup t STDIN_FILENO <> None ->
  negb (rOut =? -1) && (rOut + 1 <? size tokens) = true ->
  (cin = true -> open_ok os pin false = true) ->
  open_ok os pout true = false ->
  h = Exited EXIT_FAILURE /\
  (forall argv, ~ In (SysExecvp argv) (trace p)) /\
  look p STDIN_FILENO = (if cin then Some (FileRead pin) else fd_lookup t STDIN_FILENO) /\
  (forall x, x <> STDIN_FILENO -> look p x = fd_lookup t x) /\
  exists tr,
    trace p = tr ++ [SysOpen pout true (-1);
                     Perror "Failed to open output redirection file"].
Proof.
  intros cin pin pout. unfold run_child, executeCommand_child.
  set (p0 := mkProc t []). intros Hin Hcout Hokin Hno.
  change (redirect_input os tokens rIn)
    with (when cin (open_and_bind os pin false STDIN_FILENO
                      (Cerr "Failed to open input redirection file"))).
  change (redirect_output os tokens rOut)
    with (when (negb (rOut =? -1) && (rOut + 1 <? size tokens))
            (open_and_bind os pout true STDOUT_FILENO
               (Perror "Failed to open output redirection file"))).
  rewrite Hcout. cbn [when].
  destruct (guarded_open_and_bind_success cin pin false STDIN_FILENO
              (Cerr "Failed to open input redirection file") p0
              ltac:(unfold STDIN_FILENO; lia) Hin Hokin)
    as (p1 & tr1 & E1 & B1 & L1 & T1 & X1).
  rewrite (bind_Ret _ _ _ _ _ E1).
  destruct (open_and_bind_spec os pout true STDOUT_FILENO
              (Perror "Failed to open output redirection file") p1
              ltac:(unfold STDOUT_FILENO; lia))
    as [(_ & p2 & E2 & F2 & T2) | (Hok & _)]; [| congruence].
  rewrite (bind_Halt _ _ _ _ _ E2). cbv zeta. cbn [fst snd].
  assert (L2 : forall x, look p2 x = look p1 x) by (intros x; unfold look; now rewrite F2).
  split; [reflexivity |]. split.
  { intros argv H. rewrite T2, T1 in H. cbn [trace p0 app] in H.
    apply in_app_or in H. destruct H as [H | [H | [H | []]]];
      [elim (X1 _ H) | discriminate | discriminate]. }
  split; [rewrite L2; exact B1 |]. split.
  { intros x Hx. rewrite L2, L1 by exact Hx. reflexivity. }
  exists tr1. rewrite T2, T1. reflexivity.
Qed.

(** With [fork] succeeding, [executeCommand] returns after one [fork] and
    one [waitpid], for the child it made. *)
Lemma executeCommand_step (tokens : list string) (s : shell) :
  fork_ok os (forks s) = true ->
  exists s' c tr,
    executeCommand os tokens s = Ret tt s' /\
    children s' = children s ++ [c] /\
    c_launcher c = BySingle /\ c_pid c = Z.pos (next_pid s) /\
    trace (self s') = trace (self s) ++ tr /\
    forked tr = [c_pid c] /\ waited tr = [c_pid c] /\
    next_pid s' = Pos.succ (next_pid s) /\ forks s' = S (forks s).
Proof.
  intros Hfork. unfold executeCommand.
  set (rIn := findTokenIndex tokens "<"). set (rOut := findTokenIndex tokens ">").
  set (code := executeCommand_child os tokens rIn rOut
                 (map c_str (collect_args rIn rOut 0 tokens))).
  destruct (sys_fork_spec os BySingle code s) as (pid & s1 & E1 & _ & _ & T1 & Hcase).
  rewrite (bind_Ret _ _ _ _ _ E1).
  destruct Hcase as [(_ & Hno & _) | (Hpid & _ & Hnext & Hc1)]; [congruence |].
  assert (Hf1 : forks s1 = S (forks s)).
  { unfold sys_fork in E1. rewrite Hfork in E1.
    destruct (run_child code _) in E1. injection E1 as _ <-. reflexivity. }
  assert (Hpidne : (pid =? -1) = false) by (apply Z.eqb_neq; lia).
  rewrite Hpidne.
  unfold bind, when, lift, sys_waitpid, bind, emit, ret, sys_dup, sys_dup2, sys_close.
  repeat match goal with
         | |- context [if ?b then _ else _] => destruct b; simpl
         | |- context [match fd_lookup ?t ?fd with _ => _ end] =>
             destruct (fd_lookup t fd); simpl
         end;
    do 3 eexists; (split; [reflexivity |]); cbn [children with_self self trace];
    (split; [exact Hc1 |]); (split; [reflexivity |]); (split; [exact Hpid |]);
    (split; [rewrite T1, <- ?app_assoc; reflexivity |]);
    cbn; rewrite ?Hpidne; cbn; auto.
Qed.

Lemma executeCommand_one_child (tokens : list string) (s : shell) :
  fork_ok os (forks s) = true ->
  exists s',
    executeCommand os tokens s = Ret tt s' /\
    forked (called s s') = [Z.pos (next_pid s)] /\
    waited (called s s') = [Z.pos (next_pid s)] /\
    next_pid s' = Pos.succ (next_pid s).
Proof.
  intros Hfork.
  destruct (executeCommand_step tokens s Hfork)
    as (s' & c & tr & E & _ & _ & Hpid & Ht & Hfk & Hwt & Hn & _).
  exists s'. rewrite (called_app _ _ _ Ht), Hfk, Hwt, Hpid. auto.
Qed.

(** What the child of [executeCommand] is given when every file it asks
    for can be opened: standard input reads the file after the first [<],
    standard output writes the file after the first [>], every other
    descriptor is as in the shell, and [execvp] is called once, on the
    collected arguments as C strings.  With at least one argument the
    child then runs the program or leaves with [EXIT_FAILURE]; with none
    (a line made of a redirection only) [execvp] is handed a null file
    name and the child is killed by [SIGSEGV]. *)
Theorem executeCommand_binds_redirections (tokens : list string) (s : shell) :
  let rIn := findTokenIndex tokens "<" in
  let rOut := findTokenIndex tokens ">" in
  let cin := negb (rIn =? -1) && (rIn + 1 <? size tokens) in
  let cout := negb (rOut =? -1) && (rOut + 1 <? size tokens) in
  let pin := at_ tokens (rIn + 1) in
  let pout := at_ tokens (rOut + 1) in
  let args := map c_str (collect_args rIn rOut 0 tokens) in
  fork_ok os (forks s) = true ->
  std_open (fdt (self s)) ->
  (cin = true -> open_ok os pin false = true) ->
  (cout = true -> open_ok os pout true = true) ->
  exists s' c,
    executeCommand os tokens s = Ret tt s' /\
    spawned s s' = [c] /\
    waited (called s s') = [c_pid c] /\
    look (c_proc c) STDIN_FILENO
    = (if cin then Some (FileRead pin) else look (self s) STDIN_FILENO) /\
    look (c_proc c) STDOUT_FILENO
    = (if cout then Some (FileWrite pout) else look (self s) STDOUT_FILENO) /\
    (forall x, x <> STDIN_FILENO -> x <> STDOUT_FILENO ->
               look (c_proc c) x = look (self s) x) /\
    (forall argv, In (SysExecvp argv) (trace (c_proc c)) <-> argv = args) /\
    (args <> [] -> c_halt c = Execed args \/ c_halt c = Exited EXIT_FAILURE) /\
    (args = [] -> c_halt c = Killed SIGSEGV) /\
    (args <> [] -> exec_errno os args = 0 -> c_halt c = Execed args).
Proof.
  intros rIn rOut cin cout pin pout args Hfork Hstd Hokin Hokout.
  destruct (executeCommand_spawns os tokens s Hfork) as (s' & E & Hsp).
  destruct (executeCommand_one_child tokens s Hfork) as (s'' & E' & _ & Hw & _).
  rewrite E in E'. injection E' as <-.
  eexists s', _. split; [exact E |]. split; [exact Hsp |].
  cbn [c_proc c_halt c_pid]. split; [exact Hw |].
  exact (executeCommand_child_redirects tokens rIn rOut args (fdt (self s))
           Hstd Hokin Hokout).
Qed.

(** When the file after [<] cannot be opened the child writes one message
    and leaves with [EXIT_FAILURE]: it opens no other file, also when the
    line asks for an output file, and runs nothing.  The shell waits for it
    and goes on. *)
Theorem executeCommand_input_open_failure (tokens : list string) (s : shell) :
  let rIn := findTokenIndex tokens "<" in
  fork_ok os (forks s) = true ->
  rIn <> -1 -> rIn + 1 < size tokens ->
  open_ok os (at_ tokens (rIn + 1)) false = false ->
  exists s' c,
    executeCommand os tokens s = Ret tt s' /\
    spawned s s' = [c] /\
    waited (called s s') = [c_pid c] /\
    c_halt c = Exited EXIT_FAILURE /\
    fdt (c_proc c) = fdt (self s) /\
    trace (c_proc c) = [SysOpen (at_ tokens (rIn + 1)) false (-1);
                        Cerr "Failed to open input redirection file"].
Proof.
  intros rIn Hfork Hne Hlt Hno.
  destruct (executeCommand_spawns os tokens s Hfork) as (s' & E & Hsp).
  destruct (executeCommand_one_child tokens s Hfork) as (s'' & E' & _ & Hw & _).
  rewrite E in E'. injection E' as <-.
  assert (Hcin : negb (rIn =? -1) && (rIn + 1 <? size tokens) = true).
  { rewrite (proj2 (Z.eqb_neq _ _) Hne), (proj2 (Z.ltb_lt _ _) Hlt). reflexivity. }
  rewrite (executeCommand_child_input_failure tokens rIn _ _ _ Hcin Hno) in Hsp.
  eexists s', _. split; [exact E |]. split; [exact Hsp |].
  cbn [c_proc c_halt c_pid fdt trace fst snd].
  split; [exact Hw |]. repeat split.
Qed.

(** When the file after [>] cannot be opened, the input file (if the line
    asks for one) having been opened, the child reports it with [perror]
    and leaves with [EXIT_FAILURE] without running anything.  The shell
    waits for it and goes on. *)
Theorem executeCommand_output_open_failure (tokens : list string) (s : shell) :
  let rIn := findTokenIndex tokens "<" in
  let rOut := findTokenIndex tokens ">" in
  let cin := negb (rIn =? -1) && (rIn + 1 <? size tokens) in
  fork_ok os (forks s) = true ->
  look (self s) STDIN_FILENO <> None ->
  rOut <> -1 -> rOut + 1 < size tokens ->
  (cin = true -> open_ok os (at_ tokens (rIn + 1)) false = true) ->
  open_ok os (at_ tokens (rOut + 1)) true = false ->
  exists s' c,
    executeCommand os tokens s = Ret tt s' /\
    spawned s s' = [c] /\
    waited (called s s') = [c_pid c] /\
    c_halt c = Exited EXIT_FAILURE /\
    (forall argv, ~ In (SysExecvp argv) (trace (c_proc c))) /\
    exists tr,
      trace (c_proc c)
      = tr ++ [SysOpen (at_ tokens (rOut + 1)) true (-1);
               Perror "Failed to open output redirection file"].
Proof.
  intros rIn rOut cin Hfork Hin Hne Hlt Hokin Hno.
  destruct (executeCommand_spawns os tokens s Hfork) as (s' & E & Hsp).
  destruct (executeCommand_one_child tokens s Hfork) as (s'' & E' & _ & Hw & _).
  rewrite E in E'. injection E' as <-.
  assert (Hcout : negb (rOut =? -1) && (rOut + 1 <? size tokens) = true).
  { rewrite (proj2 (Z.eqb_neq _ _) Hne), (proj2 (Z.ltb_lt _ _) Hlt). reflexivity. }
  destruct (executeCommand_child_output_failure tokens rIn rOut
              (map c_str (collect_args rIn rOut 0 tokens)) (fdt (self s))
              Hin Hcout Hokin Hno)
    as (Hh & Hx & _ & _ & Htr).
  eexists s', _. split; [exact E |]. split; [exact Hsp |].
  cbn [c_proc c_halt c_pid].
  split; [exact Hw |]. split; [exact Hh |]. split; [exact Hx | exact Htr].
Qed.

End SingleRedirect.

Lemma executeCommand_binds_redirections_witness :
  let tokens := ["sort"; "<"; "in.txt"; ">"; "out.txt"]%string in
  fork_ok friendly (forks initial_shell) = true /\
  std_open (fdt (self initial_shell)) /\
  open_ok friendly "in.txt" false = true /\
  open_ok friendly "out.txt" true = true /\
  exists s' c,
    executeCommand friendly tokens initial_shell = Ret tt s' /\
    spawned initial_shell s' = [c] /\
    waited (called initial_shell s') = [c_pid c] /\
    look (c_proc c) STDIN_FILENO = Some (FileRead "in.txt") /\
    look (c_proc c) STDOUT_FILENO = Some (FileWrite "out.txt") /\
    (forall x, x <> STDIN_FILENO -> x <> STDOUT_FILENO ->
               look (c_proc c) x = look (self initial_shell) x) /\
    (forall argv, In (SysExecvp argv) (trace (c_proc c)) <-> argv = ["sort"]%string) /\
    (["sort"]%string <> [] ->
     c_halt c = Execed ["sort"]%string \/ c_halt c = Exited EXIT_FAILURE) /\
    (["sort"]%string = [] -> c_halt c = Killed SIGSEGV) /\
    (["sort"]%string <> [] -> exec_errno friendly ["sort"]%string = 0 ->
     c_halt c = Execed ["sort"]%string).
Proof.
  intros tokens.
  assert (Hstd : std_open (fdt (self initial_shell))) by (split; discriminate).
  split; [reflexivity |]. split; [exact Hstd |].
  split; [reflexivity |]. split; [reflexivity |].
  exact (executeCommand_binds_redirections friendly tokens initial_shell
           eq_refl Hstd (fun _ => eq_refl) (fun _ => eq_refl)).
Defined.

Lemma executeCommand_input_open_failure_witness :
  let os := host_with_files (fun _ => false) in
  let tokens := ["sort"; "<"; "in.txt"; ">"; "out.txt"]%string in
  fork_ok os (forks initial_shell) = true /\
  findTokenIndex tokens "<" <> -1 /\
  findTokenIndex tokens "<" + 1 < size tokens /\
  open_ok os "in.txt" false = false /\
  exists s' c,
    executeCommand os tokens initial_shell = Ret tt s' /\
    spawned initial_shell s' = [c] /\
    waited (called initial_shell s') = [c_pid c] /\
    c_halt c = Exited EXIT_FAILURE /\
    fdt (c_proc c) = fdt (self initial_shell) /\
    trace (c_proc c) = [SysOpen "in.txt" false (-1);
                        Cerr "Failed to open input redirection file"].
Proof.
  intros os tokens.
  assert (H1 : findTokenIndex tokens "<" <> -1) by (vm_compute; discriminate).
  assert (H2 : findTokenIndex tokens "<" + 1 < size tokens) by (vm_compute; reflexivity).
  split; [reflexivity |]. split; [exact H1 |]. split; [exact H2 |].
  split; [reflexivity |].
  exact (executeCommand_input_open_failure os tokens initial_shell
           eq_refl H1 H2 eq_refl).
Defined.

Lemma executeCommand_output_open_failure_witness :
  let tokens := ["sort"; "<"; "in.txt"; ">"; "out.txt"]%string in
  fork_ok read_only_host (forks initial_shell) = true /\
  look (self initial_shell) STDIN_FILENO <> None /\
  findTokenIndex tokens ">" <> -1 /\
  findTokenIndex tokens ">" + 1 < size tokens /\
  open_ok read_only_host "in.txt" false = true /\
  open_ok read_only_host "out.txt" true = false /\
  exists s' c,
    executeCommand read_only_host tokens initial_shell = Ret tt s' /\
    spawned initial_shell s' = [c] /\
    waited (called initial_shell s') = [c_pid c] /\
    c_halt c = Exited EXIT_FAILURE /\
    (forall argv, ~ In (SysExecvp argv) (trace (c_proc c))) /\
    exists tr,
      trace (c_proc c)
      = tr ++ [SysOpen "out.txt" true (-1);
               Perror "Failed to open output redirection file"].
Proof.
  intros tokens.
  assert (H0 : look (self initial_shell) STDIN_FILENO <> None) by discriminate.
  assert (H1 : findTokenIndex tokens ">" <> -1) by (vm_compute; discriminate).
  assert (H2 : findTokenIndex tokens ">" + 1 < size tokens) by (vm_compute; reflexivity).
  split; [reflexivity |]. split; [exact H0 |]. split; [exact H1 |].
  split; [exact H2 |]. split; [reflexivity |]. split; [reflexivity |].
  exact (executeCommand_output_open_failure read_only_host tokens initial_shell
           eq_refl H0 H1 H2 (fun _ => eq_refl) eq_refl).
Defined.

(** ** The arguments [executeCommand] collects *)

Lemma findTokenIndex_from_first (pre rest : list string) (t : string) :
  forall i, ~ In t pre -> findTokenIndex_from i (pre ++ t :: rest) t = i + size pre.
Proof.
  induction pre as [| x pre IH]; intros i Hno.
  - cbn [app findTokenIndex_from]. rewrite String.eqb_refl.
    change (size (@nil string)) with 0. lia.
  - cbn [app findTokenIndex_from]. destruct (String.eqb x t) eqn:E.
    + apply String.eqb_eq in E. subst x. elim Hno. now left.
    + rewrite IH by (intros H; apply Hno; now right). rewrite size_cons. lia.
Qed.

Lemma findTokenIndex_first (pre rest : list string) (t : string) :
  ~ In t pre -> findTokenIndex (pre ++ t :: rest) t = size pre.
Proof. intros H. unfold findTokenIndex. now rewrite findTokenIndex_from_first. Qed.

Lemma collect_args_drop_pair (rIn rOut i : Z) (x y : string) (rest : list string) :
  keep_arg rIn rOut i = false -> keep_arg rIn rOut (i + 1) = false ->
  collect_args rIn rOut i (x :: y :: rest) = collect_args rIn rOut (i + 2) rest.
Proof.
  intros H1 H2. cbn [collect_args]. rewrite H1, H2.
  now replace (i + 1 + 1) with (i + 2) by lia.
Qed.

Lemma keep_arg_true (rIn rOut j : Z) :
  j <> rIn -> j <> rOut -> (rIn = -1 \/ j <> rIn + 1) -> (rOut = -1 \/ j <> rOut + 1) ->
  keep_arg rIn rOut j = true.
Proof.
  intros H1 H2 H3 H4. unfold keep_arg.
  rewrite (proj2 (Z.eqb_neq j rIn) H1), (proj2 (Z.eqb_neq j rOut) H2). cbn [negb andb].
  assert (E3 : (rIn =? -1) || negb (j =? rIn + 1) = true).
  { destruct H3 as [-> | H3]; [reflexivity |].
    rewrite (proj2 (Z.eqb_neq _ _) H3). apply orb_true_r. }
  assert (E4 : (rOut =? -1) || negb (j =? rOut + 1) = true).
  { destruct H4 as [-> | H4]; [reflexivity |].
    rewrite (proj2 (Z.eqb_neq _ _) H4). apply orb_true_r. }
  rewrite E3, E4. reflexivity.
Qed.

Lemma keep_arg_operator (rIn rOut j : Z) :
  j = rIn \/ j = rOut -> keep_arg rIn rOut j = false.
Proof.
  intros [-> | ->]; unfold keep_arg; rewrite Z.eqb_refl; cbn [negb andb];
    rewrite ?andb_false_r; reflexivity.
Qed.

Lemma keep_arg_file (rIn rOut j : Z) :
  (rIn <> -1 /\ j = rIn + 1) \/ (rOut <> -1 /\ j = rOut + 1) ->
  keep_arg rIn rOut j = false.
Proof.
  intros [[Hne ->] | [Hne ->]]; unfold keep_arg;
    rewrite (proj2 (Z.eqb_neq _ _) Hne), Z.eqb_refl; cbn [negb orb];
    rewrite ?andb_false_r; reflexivity.
Qed.

(** A line with one redirection: the operator and the file name after it
    are taken out of the arguments, every other token stays, in order. *)
Theorem one_redirection_arguments (op other path : string) (pre post : list string) :
  let tokens := pre ++ op :: path :: post in
  (op = "<" /\ other = ">" \/ op = ">" /\ other = "<")%string ->
  ~ In op pre -> ~ In other tokens ->
  findTokenIndex tokens op = size pre /\
  at_ tokens (findTokenIndex tokens op + 1) = path /\
  collect_args (findTokenIndex tokens "<") (findTokenIndex tokens ">") 0 tokens
  = pre ++ post.
Proof.
  intros tokens Hop Hpre Hother.
  pose proof (size_nonneg pre) as Hsz.
  assert (Hi : findTokenIndex tokens op = size pre) by (now apply findTokenIndex_first).
  assert (Ho : findTokenIndex tokens other = -1)
    by (now apply (findTokenIndex_from_absent tokens other 0)).
  split; [exact Hi |]. split.
  { rewrite Hi. unfold tokens. rewrite at_app_right by lia. reflexivity. }
  assert (Hgen : forall rIn rOut,
             (rIn = size pre /\ rOut = -1) \/ (rIn = -1 /\ rOut = size pre) ->
             collect_args rIn rOut 0 tokens = pre ++ post).
  { intros rIn rOut Hr. unfold tokens. rewrite collect_args_app.
    rewrite collect_args_all.
    2:{ intros j Hj. apply keep_arg_true; destruct Hr as [[-> ->] | [-> ->]]; lia. }
    f_equal. rewrite collect_args_drop_pair.
    - apply collect_args_all. intros j Hj.
      apply keep_arg_true; destruct Hr as [[-> ->] | [-> ->]]; lia.
    - apply keep_arg_operator. destruct Hr as [[-> ->] | [-> ->]]; lia.
    - apply keep_arg_file. destruct Hr as [[-> ->] | [-> ->]]; lia. }
  apply Hgen. destruct Hop as [[-> ->] | [-> ->]]; [left | right]; split; assumption.
Qed.

Lemma one_redirection_arguments_witness :
  let tokens := ["grep"; "-i"; "mines"; ">"; "out.txt"; "notes.txt"]%string in
  ~ In ">"%string ["grep"; "-i"; "mines"]%string /\
  ~ In "<"%string tokens /\
  findTokenIndex tokens ">" = 3 /\
  at_ tokens (findTokenIndex tokens ">" + 1) = "out.txt"%string /\
  collect_args (findTokenIndex tokens "<") (findTokenIndex tokens ">") 0 tokens
  = ["grep"; "-i"; "mines"; "notes.txt"]%string.
Proof.
  intros tokens.
  assert (H1 : ~ In ">"%string ["grep"; "-i"; "mines"]%string)
    by (intros [H | [H | [H | []]]]; discriminate).
  assert (H2 : ~ In "<"%string tokens)
    by (intros [H | [H | [H | [H | [H | [H | []]]]]]]; discriminate).
  split; [exact H1 |]. split; [exact H2 |].
  exact (one_redirection_arguments ">" "<" "out.txt" ["grep"; "-i"; "mines"]
           ["notes.txt"] (or_intror (conj eq_refl eq_refl)) H1 H2).
Defined.

(** A line with both redirections, in either order: the two operators and
    the two file names are taken out, every other token stays, in order. *)
Theorem two_redirections_arguments (op1 op2 path1 path2 : string)
    (pre mid post : list string) :
  let tokens := pre ++ op1 :: path1 :: mid ++ op2 :: path2 :: post in
  (op1 = "<" /\ op2 = ">" \/ op1 = ">" /\ op2 = "<")%string ->
  ~ In op1 pre -> ~ In op2 pre -> path1 <> op2 -> ~ In op2 mid ->
  at_ tokens (findTokenIndex tokens op1 + 1) = path1 /\
  at_ tokens (findTokenIndex tokens op2 + 1) = path2 /\
  collect_args (findTokenIndex tokens "<") (findTokenIndex tokens ">") 0 tokens
  = pre ++ mid ++ post.
Proof.
  intros tokens Hop Hpre1 Hpre2 Hpath Hmid.
  pose proof (size_nonneg pre) as Hsz. pose proof (size_nonneg mid) as Hsm.
  assert (Hne : op1 <> op2) by (destruct Hop as [[-> ->] | [-> ->]]; discriminate).
  assert (Hi1 : findTokenIndex tokens op1 = size pre) by (now apply findTokenIndex_first).
  assert (Hi2 : findTokenIndex tokens op2 = size pre + 2 + size mid).
  { unfold tokens.
    change (pre ++ op1 :: path1 :: mid ++ op2 :: path2 :: post)
      with (pre ++ [op1; path1] ++ mid ++ op2 :: path2 :: post).
    rewrite !app_assoc. rewrite findTokenIndex_first.
    - rewrite !size_app. reflexivity.
    - intros H. apply in_app_or in H. destruct H as [H | H]; [| contradiction].
      apply in_app_or in H. destruct H as [H | [H | [H | []]]]; auto. }
  split.
  { rewrite Hi1. unfold tokens. rewrite at_app_right by lia. reflexivity. }
  split.
  { rewrite Hi2. unfold tokens.
    replace (size pre + 2 + size mid + 1) with (size pre + (2 + (size mid + 1))) by lia.
    rewrite at_app_right by lia.
    change (op1 :: path1 :: mid ++ op2 :: path2 :: post)
      with ([op1; path1] ++ mid ++ op2 :: path2 :: post).
    change 2 with (size [op1; path1]) at 1.
    rewrite at_app_right by lia. rewrite at_app_right by lia. reflexivity. }
  assert (Hgen : forall rIn rOut,
             (rIn = size pre /\ rOut = size pre + 2 + size mid)
             \/ (rOut = size pre /\ rIn = size pre + 2 + size mid) ->
             collect_args rIn rOut 0 tokens = pre ++ mid ++ post).
  { intros rIn rOut Hr. unfold tokens. rewrite collect_args_app.
    rewrite collect_args_all.
    2:{ intros j Hj. apply keep_arg_true; destruct Hr as [[-> ->] | [-> ->]]; lia. }
    f_equal. rewrite collect_args_drop_pair.
    2:{ apply keep_arg_operator. destruct Hr as [[-> ->] | [-> ->]]; lia. }
    2:{ apply keep_arg_file. destruct Hr as [[-> ->] | [-> ->]]; lia. }
    rewrite collect_args_app. rewrite collect_args_all.
    2:{ intros j Hj. apply keep_arg_true; destruct Hr as [[-> ->] | [-> ->]]; lia. }
    f_equal. rewrite collect_args_drop_pair.
    - apply collect_args_all. intros j Hj.
      apply keep_arg_true; destruct Hr as [[-> ->] | [-> ->]]; lia.
    - apply keep_arg_operator. destruct Hr as [[-> ->] | [-> ->]]; lia.
    - apply keep_arg_file. destruct Hr as [[-> ->] | [-> ->]]; lia. }
  apply Hgen. destruct Hop as [[-> ->] | [-> ->]]; [left | right]; split; assumption.
Qed.

Lemma two_redirections_arguments_witness :
  let tokens := ["sort"; "-r"; "<"; "in.txt"; ">"; "out.txt"]%string in
  ~ In "<"%string ["sort"; "-r"]%string /\ ~ In ">"%string ["sort"; "-r"]%string /\
  "in.txt"%string <> ">"%string /\ ~ In ">"%string (@nil string) /\
  at_ tokens (findTokenIndex tokens "<" + 1) = "in.txt"%string /\
  at_ tokens (findTokenIndex tokens ">" + 1) = "out.txt"%string /\
  collect_args (findTokenIndex tokens "<") (findTokenIndex tokens ">") 0 tokens
  = ["sort"; "-r"]%string.
Proof.
  intros tokens.
  assert (H1 : ~ In "<"%string ["sort"; "-r"]%string)
    by (intros [H | [H | []]]; discriminate).
  assert (H2 : ~ In ">"%string ["sort"; "-r"]%string)
    by (intros [H | [H | []]]; discriminate).
  assert (H3 : "in.txt"%string <> ">"%string) by discriminate.
  assert (H4 : ~ In ">"%string (@nil string)) by (intros []).
  split; [exact H1 |]. split; [exact H2 |]. split; [exact H3 |]. split; [exact H4 |].
  exact (two_redirections_arguments "<" ">" "in.txt" "out.txt" ["sort"; "-r"] [] []
           (or_introl (conj eq_refl eq_refl)) H1 H2 H3 H4).
Defined.
(** ** When [fork] or [pipe] fails *)

(** [executeCommand] and [executeCommandInBackground] when [fork] fails:
    the first ends the shell itself with [EXIT_FAILURE], after a message;
    the second returns as if nothing had happened, without any message.
    No process is created, nothing is waited for. *)
Theorem fork_failure (os : OS) (tokens : list string) (s : shell) :
  fork_ok os (forks s) = false ->
  (exists s1,
      executeCommand os tokens s = Halt (Exited EXIT_FAILURE) s1 /\
      children s1 = children s /\
      called s s1 = [SysFork (-1); Cerr "Failed to fork process"]) /\
  (exists s2,
      executeCommandInBackground os tokens s = Ret tt s2 /\
      children s2 = children s /\
      called s s2 = [SysFork (-1)]).
Proof.
  intros Hfork. split.
  - unfold executeCommand, bind at 1, sys_fork. rewrite Hfork. cbn.
    eexists. split; [reflexivity |]. split; [reflexivity |].
    apply called_app. cbn. rewrite <- app_assoc. reflexivity.
  - unfold executeCommandInBackground, bind, sys_fork. rewrite Hfork. cbn.
    eexists. split; [reflexivity |]. split; [reflexivity |].
    apply called_app. reflexivity.
Qed.

Lemma fork_failure_witness :
  fork_ok host_without_fork (forks initial_shell) = false /\
  (exists s1,
      executeCommand host_without_fork ["ls"%string] initial_shell
      = Halt (Exited EXIT_FAILURE) s1 /\
      children s1 = children initial_shell /\
      called initial_shell s1 = [SysFork (-1); Cerr "Failed to fork process"]) /\
  (exists s2,
      executeCommandInBackground host_without_fork ["ls"%string] initial_shell
      = Ret tt s2 /\
      children s2 = children initial_shell /\
      called initial_shell s2 = [SysFork (-1)]).
Proof.
  split; [reflexivity |].
  apply (fork_failure host_without_fork ["ls"%string] initial_shell). reflexivity.
Defined.

Section PipelineFailure.

Variable os : OS.

Lemma setup_pipe_halt (n i : Z) (fds : list Z) (s : shell) (h : halt) (s1 : shell) :
  setup_pipe os n i fds s = Halt h s1 ->
  h = Exited EXIT_FAILURE /\ children s1 = children s /\
  exists tr, trace (self s1) = trace (self s) ++ tr ++ [Perror "pipe"] /\
             waited tr = [] /\ forked tr = [].
Proof.
  unfold setup_pipe. destruct (i <? n - 1); [| discriminate].
  destruct (sys_pipe_spec os fd_indeterminate s)
    as (rc & fda & sa & Ea & Hc & _ & _ & Ht & Hcase).
  rewrite (bind_Ret _ _ _ _ _ Ea).
  destruct Hcase as [(-> & _ & -> & _) | (-> & _)]; [| discriminate].
  cbn [Z.eqb Pos.eqb].
  destruct (sys_pipe_spec os fd_indeterminate sa)
    as (rc & fdb & sb & Eb & Hc' & _ & _ & Ht' & Hcase).
  rewrite (bind_Ret _ _ _ _ _ Eb).
  destruct Hcase as [(-> & _ & -> & _) | (-> & _)]; [| discriminate].
  cbn. intros H. injection H as <- <-. split; [reflexivity |].
  cbn. split; [congruence |].
  exists [SysPipe (-1) fd_indeterminate; SysPipe (-1) fd_indeterminate].
  rewrite Ht', Ht, <- !app_assoc. split; [reflexivity |].
  split; reflexivity.
Qed.

(** When the launching loop stops, the shell is leaving with
    [EXIT_FAILURE] after [perror("pipe")] or [perror("fork")]; the stages
    launched before are recorded, and none has been waited for. *)
Lemma launch_loop_halt (rest : list (list string)) :
  forall (n i in_fd : Z) (fds pids : list Z) (s : shell) (h : halt) (s' : shell),
    launch_loop os n i rest in_fd fds pids s = Halt h s' ->
    h = Exited EXIT_FAILURE /\
    exists cs tr e,
      children s' = children s ++ cs /\
      trace (self s') = trace (self s) ++ tr ++ [e] /\
      (e = Perror "pipe" \/ e = Perror "fork") /\
      forked tr = map c_pid cs /\ waited tr = [] /\
      (length cs < length rest)%nat.
Proof.
  induction rest as [| command rest' IH]; intros n i in_fd fds pids s h s' Hrun.
  - discriminate.
  - cbn [launch_loop] in Hrun.
    destruct (setup_pipe os n i fds s) as [[fd fds1] s1 | h1 s1] eqn:Esetup.
    2:{ rewrite (bind_Halt _ _ _ _ _ Esetup) in Hrun. injection Hrun as <- <-.
        destruct (setup_pipe_halt n i fds s h1 s1 Esetup) as (-> & Hc & tr & Ht & Hw & Hf).
        split; [reflexivity |]. exists [], tr, (Perror "pipe").
        rewrite app_nil_r. cbn [length]. repeat split; auto. lia. }
    rewrite (bind_Ret _ _ _ _ _ Esetup) in Hrun.
    destruct (setup_pipe_spec os n i fds s fd fds1 s1 Esetup)
      as (Hc1 & _ & (tr1 & Ht1 & Hfk1 & Hwt1) & _).
    destruct (sys_fork_spec os (ByPiped i) (piped_child os n i command in_fd fd) s1)
      as (pid & s2 & Efork & _ & _ & Ht2 & Hcase).
    rewrite (bind_Ret _ _ _ _ _ Efork) in Hrun.
    destruct Hcase as [(-> & _ & Hc2 & _) | (Hpid & _ & _ & Hc2)].
    + cbn in Hrun. injection Hrun as <- <-. split; [reflexivity |].
      exists [], (tr1 ++ [SysFork (-1)]), (Perror "fork").
      cbn. rewrite app_nil_r. split; [congruence |]. split.
      { rewrite Ht2, Ht1, <- !app_assoc. reflexivity. }
      split; [now right |].
      rewrite forked_app, waited_app, Hfk1, Hwt1. cbn. repeat split. lia.
    + assert (Hpidne : (pid =? -1) = false) by (apply Z.eqb_neq; lia).
      rewrite Hpidne in Hrun.
      destruct (parent_after_fork_spec n i in_fd fd s2)
        as (s3 & Eparent & Hc3 & _ & _ & _ & (tr3 & Ht3 & Hfk3 & Hwt3) & _).
      rewrite (bind_Ret _ _ _ _ _ Eparent) in Hrun.
      destruct (IH _ _ _ _ _ _ _ _ Hrun)
        as (-> & cs & tr & e & Hcs & Htr & He & Hfk & Hwt & Hlen).
      split; [reflexivity |].
      eexists (_ :: cs), (tr1 ++ [SysFork pid] ++ tr3 ++ tr), e.
      split; [rewrite Hcs, Hc3, Hc2, Hc1, <- app_assoc; reflexivity |].
      split; [rewrite Htr, Ht3, Ht2, Ht1, <- !app_assoc; reflexivity |].
      split; [exact He |].
      rewrite !forked_app, !waited_app, Hfk1, Hwt1, Hfk3, Hwt3, Hfk, Hwt.
      cbn. rewrite Hpidne. cbn. repeat split. lia.
Qed.

(** A pipeline that cannot be launched completely: the shell itself leaves
    with [EXIT_FAILURE], right after [perror("pipe")] or [perror("fork")].
    The stages it had launched before stay behind: it has waited for none
    of them. *)
Theorem pipeline_failure_abandons_stages (tokens : list string) (s : shell)
    (h : halt) (s' : shell) :
  executePipedCommand os tokens s = Halt h s' ->
  h = Exited EXIT_FAILURE /\
  waited (called s s') = [] /\
  forked (called s s') = map c_pid (spawned s s') /\
  (length (spawned s s') < length (split_commands tokens))%nat /\
  exists tr e, called s s' = tr ++ [e] /\ (e = Perror "pipe" \/ e = Perror "fork").
Proof.
  unfold executePipedCommand. intros Hrun.
  set (commands := split_commands tokens) in *.
  destruct (launch_loop os (size commands) 0 commands STDIN_FILENO [] [] s)
    as [[fds pids] s1 | h1 s1] eqn:Eloop.
  - rewrite (bind_Ret _ _ _ _ _ Eloop) in Hrun.
    destruct (close_all_spec fds s1) as (s2 & E2 & _).
    rewrite (bind_Ret _ _ _ _ _ E2) in Hrun.
    destruct (wait_all_spec os pids s2) as (s3 & E3 & _).
    rewrite E3 in Hrun. discriminate.
  - rewrite (bind_Halt _ _ _ _ _ Eloop) in Hrun. injection Hrun as <- <-.
    destruct (launch_loop_halt _ _ _ _ _ _ _ _ _ Eloop)
      as (-> & cs & tr & e & Hcs & Htr & He & Hfk & Hwt & Hlen).
    split; [reflexivity |].
    rewrite (spawned_app _ _ _ Hcs), (called_app _ _ _ Htr).
    rewrite forked_app, waited_app, Hfk, Hwt.
    split; [destruct He as [-> | ->]; reflexivity |].
    split; [destruct He as [-> | ->]; cbn; now rewrite app_nil_r |].
    split; [exact Hlen |]. exists tr, e. split; [reflexivity | exact He].
Qed.

End PipelineFailure.

Lemma pipeline_failure_abandons_stages_witness :
  let tokens := ["ls"; "|"; "wc"]%string in
  let s' := final (executePipedCommand host_with_one_fork tokens initial_shell) in
  executePipedCommand host_with_one_fork tokens initial_shell
  = Halt (Exited EXIT_FAILURE) s' /\
  Exited EXIT_FAILURE = Exited EXIT_FAILURE /\
  waited (called initial_shell s') = [] /\
  forked (called initial_shell s') = map c_pid (spawned initial_shell s') /\
  (length (spawned initial_shell s') < length (split_commands tokens))%nat /\
  exists tr e, called initial_shell s' = tr ++ [e] /\
               (e = Perror "pipe" \/ e = Perror "fork").
Proof.
  intros tokens s'.
  assert (E : executePipedCommand host_with_one_fork tokens initial_shell
              = Halt (Exited EXIT_FAILURE) s') by (vm_compute; reflexivity).
  split; [exact E |].
  exact (pipeline_failure_abandons_stages host_with_one_fork tokens initial_shell
           (Exited EXIT_FAILURE) s' E).
Defined.
(** ** Script mode *)

Section Script.

Variable os : OS.




End Script.


(** A script line made of a redirection only leaves [execvp] without a
    file name: the child is killed. *)
Example redirection_only_script_line :
  map c_halt
    (spawned initial_shell (final (main_script friendly ["< in.txt"%string]
                                     initial_shell)))
  = [Killed SIGSEGV].
Proof. vm_compute. reflexivity. Qed.

(** ** Assignments and ordinary commands in the command loop *)

Lemma split_at_equal_first (name value : string) :
  all_chars (fun c => negb (Ascii.eqb c "=")) name = true ->
  split_at_equal (name ++ String "=" value) = Some (name, value).
Proof.
  induction name as [| c name IH]; intros H.
  - reflexivity.
  - cbn [all_chars] in H. apply andb_true_iff in H. destruct H as [Hc Hname].
    apply negb_true_iff in Hc. cbn [append split_at_equal]. rewrite Hc.
    now rewrite (IH Hname).
Qed.

Lemma split_at_equal_none (input : string) :
  all_chars (fun c => negb (Ascii.eqb c "=")) input = true ->
  split_at_equal input = None.
Proof.
  induction input as [| c input IH]; intros H.
  - reflexivity.
  - cbn [all_chars] in H. apply andb_true_iff in H. destruct H as [Hc Hin].
    apply negb_true_iff in Hc. cbn [split_at_equal]. rewrite Hc.
    now rewrite (IH Hin).
Qed.

(** [handleVariableAssignment] cuts its input at the first [=]: what is
    before is the name, everything after (further [=] included) is the
    value.  It calls [setenv] on the two, except for [PATH] with an empty
    value, which is unset.  Without any [=] it only prints a message. *)
Theorem handleVariableAssignment_cuts_at_first_equal (p : proc) :
  (forall name value,
      all_chars (fun c => negb (Ascii.eqb c "=")) name = true ->
      handleVariableAssignment (name ++ String "=" value) p
      = Ret tt (mkProc (fdt p)
                  (trace p ++ [if String.eqb name "PATH" && String.eqb value ""
                               then SysUnsetenv "PATH"
                               else SysSetenv name value]))) /\
  (forall input,
      all_chars (fun c => negb (Ascii.eqb c "=")) input = true ->
      handleVariableAssignment input p
      = Ret tt (mkProc (fdt p) (trace p ++ [Cerr "Invalid assignment format."]))).
Proof.
  split.
  - intros name value H. unfold handleVariableAssignment.
    rewrite (split_at_equal_first name value H).
    destruct (String.eqb name "PATH" && String.eqb value ""); reflexivity.
  - intros input H. unfold handleVariableAssignment.
    rewrite (split_at_equal_none input H). reflexivity.
Qed.

Lemma handleVariableAssignment_cuts_at_first_equal_witness :
  all_chars (fun c => negb (Ascii.eqb c "=")) "OPTS" = true /\
  all_chars (fun c => negb (Ascii.eqb c "=")) "OPTS" = true /\
  handleVariableAssignment "OPTS=a=b" (self initial_shell)
  = Ret tt (mkProc (fdt (self initial_shell)) [SysSetenv "OPTS" "a=b"]) /\
  handleVariableAssignment "OPTS" (self initial_shell)
  = Ret tt (mkProc (fdt (self initial_shell)) [Cerr "Invalid assignment format."]).
Proof.
  split; [reflexivity |]. split; [reflexivity |].
  destruct (handleVariableAssignment_cuts_at_first_equal (self initial_shell))
    as [H1 H2].
  split.
  - exact (H1 "OPTS"%string "a=b"%string eq_refl).
  - exact (H2 "OPTS"%string eq_refl).
Defined.

(** A foreground line without operators whose first word is none of [cd],
    [ls], [rm], [clear], [emacs] and which has a [=] anywhere is taken for
    an assignment: the whole normalised line is cut at its first [=], blanks
    included, and no program is run. *)
Theorem line_with_equal_sign_is_an_assignment (os : OS) (line : string)
    (cmd : string) (args : list string) (name value : string) (s : shell) :
  tokenize (checkWhiteSpaces line) = cmd :: args ->
  operator_free (cmd :: args) = true ->
  isBackgroundCommand (checkWhiteSpaces line) = false ->
  ~ In cmd ["cd"; "ls"; "rm"; "clear"; "emacs"]%string ->
  split_at_equal (checkWhiteSpaces line) = Some (name, value) ->
  main_body os line s
  = Ret tt (with_self s
              (mkProc (fdt (self s))
                 (trace (self s)
                  ++ [if String.eqb name "PATH" && String.eqb value ""
                      then SysUnsetenv "PATH"
                      else SysSetenv name value]))).
Proof.
  intros Htok Hfree Hbg Hcmd Heq.
  enter_plain Htok Hfree Hbg.
  change (at_ (cmd :: args) 0) with cmd.
  assert (Hne : forall b, In b ["cd"; "ls"; "rm"; "clear"; "emacs"]%string ->
                          String.eqb cmd b = false).
  { intros b Hb. apply String.eqb_neq. intros ->. contradiction. }
  rewrite (Hne "cd"%string), (Hne "ls"%string), (Hne "rm"%string),
    (Hne "clear"%string), (Hne "emacs"%string) by (cbn; tauto).
  cbn [andb]. rewrite Heq. unfold lift, handleVariableAssignment. rewrite Heq.
  destruct (String.eqb name "PATH" && String.eqb value ""); reflexivity.
Qed.

Lemma line_with_equal_sign_is_an_assignment_witness :
  let line := "echo a=b"%string in
  tokenize (checkWhiteSpaces line) = "echo"%string :: ["a=b"%string] /\
  operator_free ("echo"%string :: ["a=b"%string]) = true /\
  isBackgroundCommand (checkWhiteSpaces line) = false /\
  ~ In "echo"%string ["cd"; "ls"; "rm"; "clear"; "emacs"]%string /\
  split_at_equal (checkWhiteSpaces line) = Some ("echo a"%string, "b"%string) /\
  main_body friendly line initial_shell
  = Ret tt (with_self initial_shell
              (mkProc (fdt (self initial_shell))
                 (trace (self initial_shell) ++ [SysSetenv "echo a" "b"]))).
Proof.
  intros line.
  assert (H : ~ In "echo"%string ["cd"; "ls"; "rm"; "clear"; "emacs"]%string).
  { intros [H | [H | [H | [H | [H | []]]]]]; discriminate. }
  split; [reflexivity |]. split; [reflexivity |]. split; [reflexivity |].
  split; [exact H |]. split; [reflexivity |].
  exact (line_with_equal_sign_is_an_assignment friendly line "echo" ["a=b"%string]
           "echo a" "b" initial_shell eq_refl eq_refl eq_refl H eq_refl).
Defined.

(** Every other foreground line without operators is handed to
    [executeCommand] with its tokens: [ls] and [emacs] lines always, any
    other first word (but [cd], [rm], [clear]) when the line has no [=]. *)
Theorem ordinary_line_runs_executeCommand (os : OS) (line : string)
    (cmd : string) (args : list string) (s : shell) :
  tokenize (checkWhiteSpaces line) = cmd :: args ->
  operator_free (cmd :: args) = true ->
  isBackgroundCommand (checkWhiteSpaces line) = false ->
  ~ In cmd ["cd"; "rm"; "clear"]%string ->
  cmd = "ls"%string \/ cmd = "emacs"%string
  \/ split_at_equal (checkWhiteSpaces line) = None ->
  main_body os line s = executeCommand os (cmd :: args) s.
Proof.
  intros Htok Hfree Hbg Hcmd Hrun.
  enter_plain Htok Hfree Hbg.
  change (at_ (cmd :: args) 0) with cmd.
  assert (Hne : forall b, In b ["cd"; "rm"; "clear"]%string ->
                          String.eqb cmd b = false).
  { intros b Hb. apply String.eqb_neq. intros ->. contradiction. }
  rewrite (Hne "cd"%string), (Hne "rm"%string), (Hne "clear"%string) by (cbn; tauto).
  destruct (String.eqb cmd "ls") eqn:Els.
  { destruct (_ && _); reflexivity. }
  cbn [andb].
  destruct (String.eqb cmd "emacs") eqn:Eemacs; [reflexivity |].
  destruct Hrun as [-> | [-> | Hnone]]; [discriminate | discriminate |].
  rewrite Hnone. reflexivity.
Qed.

Lemma ordinary_line_runs_executeCommand_witness :
  let line := "  cat   notes.txt "%string in
  tokenize (checkWhiteSpaces line) = "cat"%string :: ["notes.txt"%string] /\
  operator_free ("cat"%string :: ["notes.txt"%string]) = true /\
  isBackgroundCommand (checkWhiteSpaces line) = false /\
  ~ In "cat"%string ["cd"; "rm"; "clear"]%string /\
  split_at_equal (checkWhiteSpaces line) = None /\
  main_body friendly line initial_shell
  = executeCommand friendly ("cat"%string :: ["notes.txt"%string]) initial_shell.
Proof.
  intros line.
  assert (H : ~ In "cat"%string ["cd"; "rm"; "clear"]%string).
  { intros [H | [H | [H | []]]]; discriminate. }
  split; [reflexivity |]. split; [reflexivity |]. split; [reflexivity |].
  split; [exact H |]. split; [reflexivity |].
  exact (ordinary_line_runs_executeCommand friendly line "cat" ["notes.txt"%string]
           initial_shell eq_refl eq_refl eq_refl H (or_intror (or_intror eq_refl))).
Defined.

(** ** Lines with an operator in the command loop *)

Lemma findTokenIndex_found (tokens : list string) (token : string) :
  In token tokens -> findTokenIndex tokens token <> -1.
Proof.
  intros Hin. unfold findTokenIndex.
  destruct (findTokenIndex_from_spec tokens token 0) as [(_ & Hno & _) | (Hr & _)];
    [contradiction | lia].
Qed.

(** On a validated foreground line an operator decides who runs the line,
    before the first word is looked at: with a pipe it is
    [executePipedCommand], otherwise with a redirect operator it is
    [executeCommand].  So [cd], [rm], [clear] and assignments are not
    recognised on such a line; they are launched as programs. *)
Theorem operator_line_bypasses_builtins (os : OS) (line : string) (s : shell) :
  let tokens := tokenize (checkWhiteSpaces line) in
  validated tokens = true ->
  isBackgroundCommand (checkWhiteSpaces line) = false ->
  (In "|"%string tokens ->
   main_body os line s = executePipedCommand os tokens s) /\
  (~ In "|"%string tokens -> In "<"%string tokens \/ In ">"%string tokens ->
   main_body os line s = executeCommand os tokens s).
Proof.
  intros tokens Hval Hbg. unfold main_body. fold tokens.
  unfold validated in Hval.
  destruct tokens as [| t0 rest] eqn:Etok.
  { split; [intros [] | intros _ [[] | []]]. }
  destruct (hasMultipleRedirectionsOrPipes (t0 :: rest)); [discriminate |].
  destruct (hasSyntaxErrors (t0 :: rest)); [discriminate |].
  rewrite Hbg. unfold bind at 1. unfold ret at 1. split.
  - intros Hpipe. apply findTokenIndex_found in Hpipe.
    apply Z.eqb_neq in Hpipe. rewrite Hpipe. reflexivity.
  - intros Hno Hred.
    rewrite (findTokenIndex_from_absent (t0 :: rest) "|" 0 Hno
             : findTokenIndex (t0 :: rest) "|" = -1).
    cbn [Z.eqb negb].
    assert (E : negb (findTokenIndex (t0 :: rest) ">" =? -1)
                || negb (findTokenIndex (t0 :: rest) "<" =? -1) = true).
    { destruct Hred as [H | H]; apply findTokenIndex_found in H;
        apply Z.eqb_neq in H; rewrite H; cbn; now rewrite ?orb_true_r. }
    rewrite E. reflexivity.
Qed.

Lemma operator_line_bypasses_builtins_witness :
  let line := "cd /tmp > log"%string in
  let tokens := tokenize (checkWhiteSpaces line) in
  validated tokens = true /\
  isBackgroundCommand (checkWhiteSpaces line) = false /\
  ~ In "|"%string tokens /\ In ">"%string tokens /\
  main_body friendly line initial_shell = executeCommand friendly tokens initial_shell.
Proof.
  intros line tokens.
  assert (H1 : ~ In "|"%string tokens).
  { intros [H | [H | [H | [H | []]]]]; discriminate. }
  assert (H2 : In ">"%string tokens) by (right; right; left; reflexivity).
  split; [reflexivity |]. split; [reflexivity |]. split; [exact H1 |].
  split; [exact H2 |].
  exact (proj2 (operator_line_bypasses_builtins friendly line initial_shell
                  eq_refl eq_refl) H1 (or_intror H2)).
Defined.
(** ** The shell's descriptors across a pipeline *)

Section PipelineBindings.

Variable os : OS.

Lemma parent_after_fork_look (n i : Z) (in_fd : Z) (fd : Z * Z) (s : shell) :
  exists s1,
    parent_after_fork n i in_fd fd s
    = Ret (if i <? n - 1 then fst fd else in_fd) s1 /\
    forall x, look (self s1) x
              = if (negb (in_fd =? STDIN_FILENO) && (x =? in_fd))
                   || ((i <? n - 1) && (x =? snd fd))
                then None else look (self s) x.
Proof.
  unfold parent_after_fork.
  assert (HA : exists sa,
             when (negb (in_fd =? STDIN_FILENO)) (lift (sys_close in_fd;; ret tt)) s
             = Ret tt sa /\
             forall x, look (self sa) x
                       = if negb (in_fd =? STDIN_FILENO) && (x =? in_fd)
                         then None else look (self s) x).
  { destruct (in_fd =? STDIN_FILENO) eqn:Ein; cbn [negb when andb].
    - exists s. split; reflexivity.
    - unfold lift, bind.
      destruct (sys_close_look in_fd (self s)) as (r & p & E & T & L).
      rewrite E. cbn. eexists. split; [reflexivity |]. exact L. }
  destruct HA as (sa & EA & HL).
  rewrite (bind_Ret _ _ _ _ _ EA).
  destruct (i <? n - 1) eqn:Ei.
  - unfold lift, bind.
    destruct (sys_close_look (snd fd) (self sa)) as (r & p & E & T & L).
    rewrite E. cbn. eexists. split; [reflexivity |]. cbn.
    intros x. rewrite L, HL.
    destruct (x =? snd fd); [now rewrite orb_true_r |]. now rewrite orb_false_r.
  - exists sa. split; [reflexivity |]. intros x. rewrite HL.
    cbn [andb]. now rewrite orb_false_r.
Qed.

Lemma setup_pipe_fds (n i : Z) (fds : list Z) (s : shell)
    (fd : Z * Z) (fds1 : list Z) (s1 : shell) :
  setup_pipe os n i fds s = Ret (fd, fds1) s1 ->
  fds1 = fds \/ (i < n - 1 /\ fds1 = fds ++ [fst fd; snd fd]).
Proof.
  unfold setup_pipe. destruct (i <? n - 1) eqn:Ei.
  2:{ intros H. injection H as <- <- <-. now left. }
  apply Z.ltb_lt in Ei. unfold bind, sys_pipe.
  destruct (pipe_ok os (pipe_calls s)); cbn.
  - intros H. injection H as <- <- <-. now left.
  - destruct (pipe_ok os (S (pipe_calls s))); cbn.
    + intros H. injection H as <- <- <-. right. split; [exact Ei | reflexivity].
    + discriminate.
Qed.

(** The launching loop, seen from the shell's descriptor table: when it
    has run to its end every pipe end it created is closed again, and so is
    the read end it was entered with. *)
Lemma launch_loop_bindings (rest : list (list string)) :
  forall (n i in_fd : Z) (fds pids : list Z) (s : shell)
         (fds' pids' : list Z) (s' : shell),
    launch_loop os n i rest in_fd fds pids s = Ret (fds', pids') s' ->
    i + size rest = n ->
    look (self s) STDIN_FILENO <> None ->
    (forall x, look (self s') x
               = if negb (nil_b rest) && negb (in_fd =? STDIN_FILENO) && (x =? in_fd)
                 then None else look (self s) x) /\
    (forall x, In x fds' -> In x fds \/ look (self s') x = None).
Proof.
  induction rest as [| command rest' IH];
    intros n i in_fd fds pids s fds' pids' s' Hrun Hn Hstd.
  - cbn in Hrun. injection Hrun as <- <- <-. split; [reflexivity | auto].
  - rewrite size_cons in Hn. pose proof (size_nonneg rest') as Hsz.
    cbn [launch_loop] in Hrun.
    apply bind_inv in Hrun. destruct Hrun as ([fd fds1] & s1 & Esetup & Hrun).
    apply bind_inv in Hrun. destruct Hrun as (pid & s2 & Efork & Hrun).
    destruct (setup_pipe_spec os n i fds s fd fds1 s1 Esetup)
      as (_ & _ & _ & Hpipe).
    pose proof (setup_pipe_fds n i fds s fd fds1 s1 Esetup) as Hfds.
    destruct (sys_fork_spec os (ByPiped i) (piped_child os n i command in_fd fd) s1)
      as (pid' & s2' & Efork' & Hfdt2 & _ & _ & Hcase).
    rewrite Efork in Efork'. injection Efork' as <- <-.
    destruct Hcase as [(-> & _) | (Hpid & _)].
    { cbn in Hrun. unfold bind, lift in Hrun. cbn in Hrun. discriminate. }
    assert (Hpidne : (pid =? -1) = false) by (apply Z.eqb_neq; lia).
    rewrite Hpidne in Hrun.
    apply bind_inv in Hrun. destruct Hrun as (in_fd2 & s3 & Eparent & Hrun).
    destruct (parent_after_fork_look n i in_fd fd s2) as (s3' & Eparent' & HL3).
    rewrite Eparent in Eparent'. injection Eparent' as -> <-.
    assert (L2 : forall x, look (self s2) x = look (self s1) x)
      by (intros x; unfold look; now rewrite Hfdt2).
    cbn [nil_b negb andb].
    destruct Hpipe as [(Hi & _ & Hr & Hw & Hrw & _ & _ & Lx) | (Hi & ->)].
    + (* a pipe was created for this stage *)
      assert (Ei : (i <? n - 1) = true) by (apply Z.ltb_lt; exact Hi).
      rewrite Ei in *. cbn [andb] in HL3.
      assert (Hr0 : fst fd <> STDIN_FILENO) by (intros E; rewrite E in Hr; contradiction).
      assert (Hw0 : snd fd <> STDIN_FILENO) by (intros E; rewrite E in Hw; contradiction).
      assert (Hstd3 : look (self s3) STDIN_FILENO <> None).
      { rewrite HL3.
        replace (STDIN_FILENO =? snd fd) with false by (symmetry; apply Z.eqb_neq; congruence).
        rewrite orb_false_r.
        destruct (in_fd =? STDIN_FILENO) eqn:Ein; cbn [negb andb].
        - rewrite L2, Lx by congruence. exact Hstd.
        - rewrite Z.eqb_sym, Ein. rewrite L2, Lx by congruence. exact Hstd. }
      destruct (IH _ _ _ _ _ _ _ _ _ Hrun ltac:(lia) Hstd3) as [HL HF].
      assert (Hne : nil_b rest' = false).
      { destruct rest'; [| reflexivity]. change (size (@nil (list string))) with 0 in Hn. lia. }
      rewrite Hne in HL. cbn [negb andb] in HL.
      rewrite (proj2 (Z.eqb_neq _ _) Hr0) in HL. cbn [negb andb] in HL.
      assert (Hfinal : forall x,
                 look (self s') x
                 = if negb (in_fd =? STDIN_FILENO) && (x =? in_fd)
                   then None else look (self s) x).
      { intros x. rewrite HL. destruct (x =? fst fd) eqn:Exr.
        - apply Z.eqb_eq in Exr. subst x. rewrite Hr. now destruct (_ && _).
        - rewrite HL3. destruct (x =? snd fd) eqn:Exw.
          + apply Z.eqb_eq in Exw. subst x. rewrite Hw, orb_true_r.
            now destruct (_ && _).
          + rewrite orb_false_r. destruct (_ && _); [reflexivity |].
            rewrite L2. apply Lx; apply Z.eqb_neq; assumption. }
      split; [exact Hfinal |].
      intros x Hx. destruct (HF x Hx) as [Hin | Hnone]; [| now right].
      destruct Hfds as [-> | [_ ->]]; [now left |].
      apply in_app_or in Hin. destruct Hin as [Hin | [<- | [<- | []]]]; [now left | |];
        right; rewrite HL.
      * now rewrite Z.eqb_refl.
      * destruct (snd fd =? fst fd); [reflexivity |].
        rewrite HL3, Z.eqb_refl. now rewrite orb_true_r.
    + (* the last stage *)
      assert (Ei : (i <? n - 1) = false) by (apply Z.ltb_ge; lia).
      rewrite Ei in *. cbn [andb] in HL3.
      assert (Hnil : rest' = []).
      { destruct rest'; [reflexivity |]. rewrite size_cons in Hn.
        pose proof (size_nonneg rest'). lia. }
      subst rest'. cbn in Hrun. injection Hrun as <- <- <-.
      destruct Hfds as [-> | [Hlt _]]; [| lia].
      split; [| auto].
      intros x. rewrite HL3, orb_false_r, L2. reflexivity.
Qed.

Lemma close_all_look (fds : list Z) :
  forall s, exists s1,
    close_all fds s = Ret tt s1 /\
    forall x, look (self s1) x
              = if existsb (Z.eqb x) fds then None else look (self s) x.
Proof.
  induction fds as [| fd fds IH]; intros s.
  - exists s. split; reflexivity.
  - destruct (lift_close_spec fd s) as (r & sa & Ea & _ & _ & _ & _ & La).
    destruct (IH sa) as (s1 & E1 & L1).
    exists s1. cbn [close_all]. rewrite (bind_Ret _ _ _ _ _ Ea).
    split; [exact E1 |]. intros x. rewrite L1, La. cbn [existsb].
    destruct (x =? fd); cbn [orb]; [now destruct (existsb _ _) | reflexivity].
Qed.

(** A pipeline that was launched completely leaves the shell's descriptor
    table as it found it: every pipe end the shell created is closed again
    when [executePipedCommand] returns. *)
Theorem pipeline_leaves_no_descriptor_open (tokens : list string) (s s' : shell) :
  executePipedCommand os tokens s = Ret tt s' ->
  look (self s) STDIN_FILENO <> None ->
  same_bindings (fdt (self s)) (fdt (self s')).
Proof.
  intros Hrun Hstd. unfold executePipedCommand in Hrun.
  set (commands := split_commands tokens) in *.
  apply bind_inv in Hrun. destruct Hrun as ([fds pids] & s1 & Eloop & Hrun).
  apply bind_inv in Hrun. destruct Hrun as ([] & s2 & Eclose & Ewait).
  destruct (launch_loop_bindings commands (size commands) 0 STDIN_FILENO [] [] s
              fds pids s1 Eloop ltac:(lia) Hstd) as [HL HF].
  destruct (close_all_look fds s1) as (s2' & Eclose' & HC).
  rewrite Eclose in Eclose'. injection Eclose' as <-.
  destruct (wait_all_spec os pids s2) as (s3 & Ewait' & _ & _ & _ & Hfdt & _).
  rewrite Ewait in Ewait'. injection Ewait' as <-.
  intros x. change (look (self s') x = look (self s) x).
  unfold look at 1. rewrite Hfdt. change (look (self s2) x = look (self s) x).
  rewrite HC.
  assert (E : look (self s1) x = look (self s) x).
  { rewrite HL. rewrite Z.eqb_refl. cbn [negb andb].
    now rewrite andb_false_r. }
  destruct (existsb (Z.eqb x) fds) eqn:Ex; [| exact E].
  apply existsb_exists in Ex. destruct Ex as (y & Hy & Exy).
  apply Z.eqb_eq in Exy. subst y.
  destruct (HF x Hy) as [[] | Hnone]. now rewrite <- E.
Qed.

End PipelineBindings.

Lemma pipeline_leaves_no_descriptor_open_witness :
  let tokens := ["ls"; "|"; "sort"; "|"; "wc"]%string in
  let s' := final (executePipedCommand friendly tokens initial_shell) in
  executePipedCommand friendly tokens initial_shell = Ret tt s' /\
  look (self initial_shell) STDIN_FILENO <> None /\
  same_bindings (fdt (self initial_shell)) (fdt (self s')).
Proof.
  intros tokens s'.
  assert (E : executePipedCommand friendly tokens initial_shell = Ret tt s')
    by (vm_compute; reflexivity).
  assert (H : look (self initial_shell) STDIN_FILENO <> None) by discriminate.
  split; [exact E |]. split; [exact H |].
  exact (pipeline_leaves_no_descriptor_open friendly tokens initial_shell s' E H).
Defined.
